(** * prebid-server: the auction and cookie-sync handlers of [pbs_light.go]

    A shallow embedding of the request handlers of [pbs_light.go] and of the
    two post-processing routines they call, [checkForValidBidSize] and
    [sortBidsAddKeywordsMobile], with the properties of the specification
    that concern them.

    Representation choices, used throughout:
    - a Go slice of pointers to distinct live objects ([[]*pbs.PBSBid],
      [[]*pbs.PBSBidder]) is a [list] of records; the identity of an object
      is its position, and a write through the pointer is an update of the
      list at that position;
    - a Go [map[string]T] is a [gmap string T]; reading an absent key gives
      the zero value of [T];
    - a run-time panic (index or slice bound out of range) is [None];
    - [float64] prices are taken finite and not NaN, and are embedded in the
      rationals, where [<] agrees with the comparison of the floats;
    - packages [pbs], [adapters], [cache], [prebid_cache_client] and the Go
      library are outside this file: what the handlers use of them is
      gathered in the record [Env]. *)

From Stdlib Require Import QArith Qcanon.
From stdpp Require Import base option list strings gmap sorting pretty.

Local Open Scope string_scope.
Local Open Scope nat_scope.
Local Open Scope list_scope.
Local Open Scope general_if_scope.

(** ** Data model (package [pbs], as far as [pbs_light.go] reads it) *)

Module Size.
Record t := mk { W : N; H : N }.
End Size.
Abbreviation Size := Size.t.

(** [pbs.PBSAdUnit]: an ad unit as handed to one bidder. *)
Module PBSAdUnit.
Record t := mk { Sizes : list Size; Code : string; BidID : string }.
End PBSAdUnit.
Abbreviation PBSAdUnit := PBSAdUnit.t.

(** [pbs.AdUnit]: an ad unit of the auction request. *)
Module AdUnit.
Record t := mk { Code : string; Sizes : list Size }.
End AdUnit.
Abbreviation AdUnit := AdUnit.t.

(** [pbs.PBSBid]. [AdServerTargeting] is [None] for the nil map. *)
Module PBSBid.
Record t := mk {
  BidID : string;
  AdUnitCode : string;
  BidderCode : string;
  Price : Qc;
  Adm : string;
  NURL : string;
  Width : N;
  Height : N;
  CreativeMediaType : string;
  CacheID : string;
  AdServerTargeting : option (gmap string string);
  ResponseTime : Z
}.

(** [bid.Width, bid.Height = w, h] *)
Definition set_size (b : t) (w h : N) : t :=
  mk (BidID b) (AdUnitCode b) (BidderCode b) (Price b) (Adm b) (NURL b)
     w h (CreativeMediaType b) (CacheID b) (AdServerTargeting b)
     (ResponseTime b).

(** [bid.ResponseTime = ms] *)
Definition set_ResponseTime (b : t) (ms : Z) : t :=
  mk (BidID b) (AdUnitCode b) (BidderCode b) (Price b) (Adm b) (NURL b)
     (Width b) (Height b) (CreativeMediaType b) (CacheID b)
     (AdServerTargeting b) ms.

(** [bid.CacheID = uuid; bid.NURL = ""; bid.Adm = ""] *)
Definition set_cached (b : t) (uuid : string) : t :=
  mk (BidID b) (AdUnitCode b) (BidderCode b) (Price b) "" ""
     (Width b) (Height b) (CreativeMediaType b) uuid
     (AdServerTargeting b) (ResponseTime b).

(** [bid.AdServerTargeting = kvs] *)
Definition set_AdServerTargeting (b : t) (kvs : gmap string string) : t :=
  mk (BidID b) (AdUnitCode b) (BidderCode b) (Price b) (Adm b) (NURL b)
     (Width b) (Height b) (CreativeMediaType b) (CacheID b) (Some kvs)
     (ResponseTime b).
End PBSBid.
Abbreviation PBSBid := PBSBid.t.

(** Modelled from the spec: [pbs.UsersyncInfo] is declared in package [pbs];
    the handlers only pass the adapter's value on, so it is an opaque token. *)
Definition UsersyncInfo : Type := string.

(** [pbs.PBSBidder]: a bidder request and the scratch fields the auction
    fills in. [UsersyncInfo] is [None] for the nil pointer. *)
Module PBSBidder.
Record t := mk {
  BidderCode : string;
  AdUnits : list PBSAdUnit;
  ResponseTime : Z;
  NumBids : nat;
  Error : string;
  NoCookie : bool;
  NoBid : bool;
  UsersyncInfo : option UsersyncInfo
}.

(** [bidder.NoCookie = true; bidder.UsersyncInfo = info] *)
Definition set_NoCookie (b : t) (info : string) : t :=
  mk (BidderCode b) (AdUnits b) (ResponseTime b) (NumBids b) (Error b)
     true (NoBid b) (Some info).

Definition set_ResponseTime (b : t) (ms : Z) : t :=
  mk (BidderCode b) (AdUnits b) ms (NumBids b) (Error b)
     (NoCookie b) (NoBid b) (UsersyncInfo b).

Definition set_Error (b : t) (e : string) : t :=
  mk (BidderCode b) (AdUnits b) (ResponseTime b) (NumBids b) e
     (NoCookie b) (NoBid b) (UsersyncInfo b).

Definition set_NumBids (b : t) (n : nat) : t :=
  mk (BidderCode b) (AdUnits b) (ResponseTime b) n (Error b)
     (NoCookie b) (NoBid b) (UsersyncInfo b).

Definition set_NoBid (b : t) : t :=
  mk (BidderCode b) (AdUnits b) (ResponseTime b) (NumBids b) (Error b)
     (NoCookie b) true (UsersyncInfo b).
End PBSBidder.
Abbreviation PBSBidder := PBSBidder.t.

(** ** [checkForValidBidSize] *)

(** [finalValidBids] and [finalBidCounter]: a buffer of [len(bids)] nil
    pointers and the number of slots filled so far. *)
Definition valid_bids : Type := list (option PBSBid) * nat.

(** [finalValidBids[finalBidCounter] = bid; finalBidCounter++]; the index
    expression panics when the counter is out of range. *)
Definition store_bid (st : valid_bids) (bid : PBSBid) : option valid_bids :=
  let '(finalValidBids, finalBidCounter) := st in
  if decide (finalBidCounter < length finalValidBids)
  then Some (<[finalBidCounter := Some bid]> finalValidBids, S finalBidCounter)
  else None.

(** The guard of the outer loop: a banner bid one of whose dimensions is 0. *)
Definition size_undefined (bid : PBSBid) : bool :=
  bool_decide (PBSBid.CreativeMediaType bid = "banner")
  && ((PBSBid.Height bid =? 0)%N || (PBSBid.Width bid =? 0)%N).

Definition adunit_matches (bid : PBSBid) (adunit : PBSAdUnit) : bool :=
  bool_decide (PBSAdUnit.BidID adunit = PBSBid.BidID bid)
  && bool_decide (PBSAdUnit.Code adunit = PBSBid.AdUnitCode bid).

(** The inner loop [for _, adunit := range bidder.AdUnits]. The first
    matching unit ends it ([continue bidLoop]); with more than one size only
    a warning is logged, and with no size nothing is done. *)
Fixpoint scan_adunits (bid : PBSBid) (adunits : list PBSAdUnit)
    (st : valid_bids) : option valid_bids :=
  match adunits with
  | [] => Some st
  | adunit :: rest =>
      if adunit_matches bid adunit then
        if decide (length (PBSAdUnit.Sizes adunit) = 1) then
          sz ← PBSAdUnit.Sizes adunit !! 0;
          store_bid st (PBSBid.set_size bid (Size.W sz) (Size.H sz))
        else Some st
      else scan_adunits bid rest st
  end.

(** The outer loop [bidLoop]. *)
Fixpoint bidLoop (bidder : PBSBidder) (bids : list PBSBid)
    (st : valid_bids) : option valid_bids :=
  match bids with
  | [] => Some st
  | bid :: rest =>
      st' ← (if size_undefined bid
             then scan_adunits bid (PBSBidder.AdUnits bidder) st
             else store_bid st bid);
      bidLoop bidder rest st'
  end.

(** [finalValidBids[:finalBidCounter]] as a slice of bids: the bound must be
    in range, and the slots below it filled. *)
Definition slice_to (st : valid_bids) : option (list PBSBid) :=
  let '(finalValidBids, finalBidCounter) := st in
  if decide (finalBidCounter ≤ length finalValidBids)
  then mapM id (take finalBidCounter finalValidBids)
  else None.

Definition checkForValidBidSize (bids : list PBSBid) (bidder : PBSBidder)
    : option (list PBSBid) :=
  bidLoop bidder bids (replicate (length bids) None, 0) ≫= slice_to.

(** The words of the specification for size reconciliation. A bid has an
    undefined size when it is a banner with a dimension 0; its originating
    ad unit is the first unit of the bidder with the bid's [bidId] and
    [adUnitCode]. *)
Definition undefined_size (bid : PBSBid) : Prop :=
  PBSBid.CreativeMediaType bid = "banner"
  ∧ (PBSBid.Width bid = 0%N ∨ PBSBid.Height bid = 0%N).

Definition originating_unit (bidder : PBSBidder) (bid : PBSBid)
    : option PBSAdUnit :=
  head (filter (λ u, PBSAdUnit.BidID u = PBSBid.BidID bid
                     ∧ PBSAdUnit.Code u = PBSBid.AdUnitCode bid)
          (PBSBidder.AdUnits bidder)).

Definition reconcile (bidder : PBSBidder) (bid : PBSBid) : option PBSBid :=
  if decide (undefined_size bid) then
    match originating_unit bidder bid with
    | Some u =>
        match PBSAdUnit.Sizes u with
        | [sz] => Some (PBSBid.set_size bid (Size.W sz) (Size.H sz))
        | _ => None
        end
    | None => None
    end
  else Some bid.

(** ** Targeting keys: [sortBidsAddKeywordsMobile] *)

Definition defaultPriceGranularity : string := "med".

Definition hbpbConstantKey : string := "hb_pb".
Definition hbCreativeLoadMethodConstantKey : string := "hb_creative_loadtype".
Definition hbBidderConstantKey : string := "hb_bidder".
Definition hbCacheIdConstantKey : string := "hb_cache_id".
Definition hbSizeConstantKey : string := "hb_size".

Definition hbCreativeLoadMethodHTML : string := "html".
Definition hbCreativeLoadMethodDemandSDK : string := "demand_sdk".

(** [func min(x, y int) int] *)
Definition min (x y : Z) : Z := if decide (x < y)%Z then x else y.

(** The slice expression [s[:n]] on a string: bytes [0 .. n), a panic
    unless [0 <= n <= len(s)]. *)
Definition slice_prefix (s : string) (n : Z) : option string :=
  if decide (0 ≤ n ≤ Z.of_nat (String.length s))%Z
  then Some (String.substring 0 (Z.to_nat n) s)
  else None.

(** [key[:min(len(key), int(pbs_req.MaxKeyLength))]] *)
Definition truncate_key (key : string) (MaxKeyLength : Z) : option string :=
  slice_prefix key (min (Z.of_nat (String.length key)) MaxKeyLength).

(** [strconv.FormatUint(n, 10)] *)
Definition FormatUint (n : N) : string := pretty n.

(** [hbSize]: ["<w>x<h>"] when both dimensions are non-zero, else [""]. *)
Definition hbSize (bid : PBSBid) : string :=
  if negb (PBSBid.Width bid =? 0)%N && negb (PBSBid.Height bid =? 0)%N
  then FormatUint (PBSBid.Width bid) +:+ "x" +:+ FormatUint (PBSBid.Height bid)
  else "".

(** The four bidder-suffixed key names of a bid, truncated when
    [MaxKeyLength != 0]: for [hb_pb], [hb_bidder], [hb_cache_id], [hb_size]. *)
Definition bidder_keys (MaxKeyLength : Z) (bid : PBSBid)
    : option (string * string * string * string) :=
  let hbPbBidderKey := hbpbConstantKey +:+ "_" +:+ PBSBid.BidderCode bid in
  let hbBidderBidderKey := hbBidderConstantKey +:+ "_" +:+ PBSBid.BidderCode bid in
  let hbCacheIdBidderKey := hbCacheIdConstantKey +:+ "_" +:+ PBSBid.BidderCode bid in
  let hbSizeBidderKey := hbSizeConstantKey +:+ "_" +:+ PBSBid.BidderCode bid in
  if decide (MaxKeyLength ≠ 0%Z) then
    hbPbBidderKey ← truncate_key hbPbBidderKey MaxKeyLength;
    hbBidderBidderKey ← truncate_key hbBidderBidderKey MaxKeyLength;
    hbCacheIdBidderKey ← truncate_key hbCacheIdBidderKey MaxKeyLength;
    hbSizeBidderKey ← truncate_key hbSizeBidderKey MaxKeyLength;
    Some (hbPbBidderKey, hbBidderBidderKey, hbCacheIdBidderKey, hbSizeBidderKey)
  else
    Some (hbPbBidderKey, hbBidderBidderKey, hbCacheIdBidderKey, hbSizeBidderKey).

(** The body of the loop [for i, bid := range bar]: the map [pbs_kvs] of the
    bid at position [i] of its sorted group, for the bucketed price
    [roundedCpm]. The entries of the map literal are stored in order. *)
Definition pbs_kvs (MaxKeyLength : Z) (roundedCpm : string) (i : nat)
    (bid : PBSBid) : option (gmap string string) :=
  '(hbPbBidderKey, hbBidderBidderKey, hbCacheIdBidderKey, hbSizeBidderKey)
    ← bidder_keys MaxKeyLength bid;
  let kvs : gmap string string :=
    <[hbCacheIdBidderKey := PBSBid.CacheID bid]>
      (<[hbBidderBidderKey := PBSBid.BidderCode bid]>
         (<[hbPbBidderKey := roundedCpm]> ∅)) in
  let kvs :=
    if decide (hbSize bid ≠ "") then <[hbSizeBidderKey := hbSize bid]> kvs
    else kvs in
  let kvs :=
    if decide (i = 0) then
      let kvs := <[hbpbConstantKey := roundedCpm]> kvs in
      let kvs := <[hbBidderConstantKey := PBSBid.BidderCode bid]> kvs in
      let kvs := <[hbCacheIdConstantKey := PBSBid.CacheID bid]> kvs in
      let kvs :=
        if decide (hbSize bid ≠ "") then <[hbSizeConstantKey := hbSize bid]> kvs
        else kvs in
      if decide (PBSBid.BidderCode bid = "audienceNetwork")
      then <[hbCreativeLoadMethodConstantKey := hbCreativeLoadMethodDemandSDK]> kvs
      else <[hbCreativeLoadMethodConstantKey := hbCreativeLoadMethodHTML]> kvs
    else kvs in
  Some kvs.

(** Modelled from the spec: [PBSBidSlice.Less] is a method of package [pbs];
    the specification has each group sorted "by descending price", so the
    bid at [i] is less than the bid at [j] when its price is the greater.
    Positions are into the list of all bids. *)
Definition PBSBidSlice_Less (bids : list PBSBid) (i j : nat) : bool :=
  match bids !! i, bids !! j with
  | Some bi, Some bj => bool_decide (PBSBid.Price bj < PBSBid.Price bi)%Qc
  | _, _ => false
  end.

(** [code_bids[bid.AdUnitCode] = append(code_bids[bid.AdUnitCode], bid)] *)
Definition record_bid (code_bids : gmap string (list nat))
    (ib : nat * PBSBid) : gmap string (list nat) :=
  <[PBSBid.AdUnitCode ib.2 :=
      (default [] (code_bids !! PBSBid.AdUnitCode ib.2) ++ [ib.1])%list]>
    code_bids.

Definition group_by_code (bids : list PBSBid) : gmap string (list nat) :=
  foldl record_bid ∅ (imap pair bids).

(** ** The collaborators of the handlers *)

(** Go [error] values, as far as the handlers tell them apart. *)
Inductive error :=
  | DeadlineExceeded
  | Canceled
  | Errorf (msg : string).

(** [err.Error()] *)
Definition Error_string (err : error) : string :=
  match err with
  | DeadlineExceeded => "context deadline exceeded"
  | Canceled => "context canceled"
  | Errorf msg => msg
  end.

(** [*pbs.PBSCookie], through the four methods the handlers call.
    [GetUID] keeps the first of its three results. *)
Module PBSCookie.
Record t := mk {
  AllowSyncs : bool;
  LiveSyncCount : nat;
  HasLiveSync : string → bool;
  GetUID : string → string
}.
End PBSCookie.
Abbreviation PBSCookie := PBSCookie.t.

(** [*pbs.PBSRequest]. [App] is [None] for the nil pointer; the integer
    fields keep their JSON value. *)
Module PBSRequest.
Record t := mk {
  AccountID : string;
  Tid : string;
  CacheMarkup : Z;
  SortBids : Z;
  MaxKeyLength : Z;
  TimeoutMillis : Z;
  AdUnits : list AdUnit;
  App : option string;
  Bidders : list PBSBidder;
  Cookie : PBSCookie;
  Url : string
}.
End PBSRequest.
Abbreviation PBSRequest := PBSRequest.t.

(** What [adapters.Adapter.Call] hands back, with the milliseconds the call
    took: [bid_list] ([None] for nil) and [err]. *)
Module CallResult.
Record t := mk {
  elapsed : Z;
  bid_list : option (list PBSBid);
  err : option error
}.
End CallResult.
Abbreviation CallResult := CallResult.t.

(** The interface [adapters.Adapter]. *)
Module Adapter.
Record t := mk {
  FamilyName : string;
  GetUsersyncInfo : UsersyncInfo;
  SkipNoCookies : bool;
  Call : PBSRequest → PBSBidder → CallResult
}.
End Adapter.
Abbreviation Adapter := Adapter.t.

(** [*cache.Account] *)
Module Account.
Record t := mk { ID : string; PriceGranularity : string }.
End Account.
Abbreviation Account := Account.t.

(** [pbc.BidCache]: the value of one cache object. *)
Module BidCache.
Record t := mk { Adm : string; NURL : string; Width : N; Height : N }.
End BidCache.
Abbreviation BidCache := BidCache.t.

(** [bidResult]; [bidder] is the position of the bidder in
    [pbs_req.Bidders], [bid_list] the bids sent with it (nil as [[]]). *)
Record bidResult := { bidder : nat; bid_list : list PBSBid }.

Record cookieSyncRequest := { UUID : string; Bidders : list string }.

(** The process-wide state and the external services:
    - [exchanges]: the adapter registry;
    - [Accounts_Get]: [dataCache.Accounts().Get];
    - [pbc_Put]: [pbc.Put] on the cache objects with the given values; on
      success, the [UUID] field it leaves in the object at each position;
    - [GetPriceBucketString]: [pbs.GetPriceBucketString];
    - [sort_Sort]: [sort.Sort] on a slice of bids (given by position) whose
      [Less] is the first argument;
    - [arrival]: the order in which the results sent by the bidder tasks
      are received from the channel;
    - [json_Decode]: [json.NewDecoder(r.Body).Decode(&csReq)], where
      [csReq] is a pointer to a fresh [cookieSyncRequest]: the error, or
      what [csReq] points to afterwards, [None] when the decoder has set
      the pointer to nil (as it does for the body [null]). *)
Record Env := {
  exchanges : gmap string Adapter;
  Accounts_Get : string → error + Account;
  pbc_Put : list BidCache → error + (nat → string);
  GetPriceBucketString : Qc → gmap string string;
  sort_Sort : (nat → nat → bool) → list nat → list nat;
  arrival : list bidResult → list bidResult;
  json_Decode : string → error + option cookieSyncRequest
}.

(** What the callers of [sort.Sort] may rely on: the slice is permuted, and
    when [Less] is a strict weak order on its elements no later element is
    less than an earlier one. Nothing is promised on elements that compare
    equal ("the sort is not guaranteed to be stable"). *)
Record strict_weak_on (less : nat → nat → bool) (l : list nat) : Prop := {
  less_asym x y : x ∈ l → y ∈ l → less x y = true → less y x = false;
  less_negtrans x y z :
    x ∈ l → y ∈ l → z ∈ l →
    less x y = false → less y z = false → less x z = false
}.

Record sorts (srt : (nat → nat → bool) → list nat → list nat) : Prop := {
  sorts_perm less l : srt less l ≡ₚ l;
  sorts_sorted less l :
    strict_weak_on less l →
    StronglySorted (λ x y, less y x = false) (srt less l)
}.

(** ** The loops of [sortBidsAddKeywordsMobile] *)

(** [for i, bid := range bar], from position [i] on: each bid of the group
    gets its map as [bid.AdServerTargeting]. *)
Fixpoint add_keywords (E : Env) (MaxKeyLength : Z)
    (priceGranularitySetting : string) (i : nat) (bar : list nat)
    (bids : list PBSBid) : option (list PBSBid) :=
  match bar with
  | [] => Some bids
  | p :: rest =>
      bid ← bids !! p;
      let priceBucketStringMap := GetPriceBucketString E (PBSBid.Price bid) in
      let roundedCpm :=
        default "" (priceBucketStringMap !! priceGranularitySetting) in
      kvs ← pbs_kvs MaxKeyLength roundedCpm i bid;
      add_keywords E MaxKeyLength priceGranularitySetting (S i) rest
        (<[p := PBSBid.set_AdServerTargeting bid kvs]> bids)
  end.

(** One turn of [for _, unit := range pbs_req.AdUnits]. [sort.Sort] works
    in place on the array that [code_bids[unit.Code]] shares with [bar]. *)
Definition unit_step (E : Env) (MaxKeyLength : Z)
    (priceGranularitySetting : string)
    (st : gmap string (list nat) * list PBSBid) (unit : AdUnit)
    : option (gmap string (list nat) * list PBSBid) :=
  let '(code_bids, bids) := st in
  let bar := default [] (code_bids !! AdUnit.Code unit) in
  if decide (length bar = 0) then Some st
  else
    let bar := sort_Sort E (PBSBidSlice_Less bids) bar in
    bids ← add_keywords E MaxKeyLength priceGranularitySetting 0 bar bids;
    Some (<[AdUnit.Code unit := bar]> code_bids, bids).

Fixpoint unit_loop (E : Env) (MaxKeyLength : Z)
    (priceGranularitySetting : string) (units : list AdUnit)
    (st : gmap string (list nat) * list PBSBid)
    : option (gmap string (list nat) * list PBSBid) :=
  match units with
  | [] => Some st
  | unit :: rest =>
      st' ← unit_step E MaxKeyLength priceGranularitySetting st unit;
      unit_loop E MaxKeyLength priceGranularitySetting rest st'
  end.

(** The whole function, with the final [code_bids] next to the bids. *)
Definition sortBidsAddKeywordsMobile_run (E : Env) (bids : list PBSBid)
    (pbs_req : PBSRequest) (priceGranularitySetting : string)
    : option (gmap string (list nat) * list PBSBid) :=
  let priceGranularitySetting :=
    if decide (priceGranularitySetting = "") then defaultPriceGranularity
    else priceGranularitySetting in
  unit_loop E (PBSRequest.MaxKeyLength pbs_req) priceGranularitySetting
    (PBSRequest.AdUnits pbs_req) (group_by_code bids, bids).

Definition sortBidsAddKeywordsMobile (E : Env) (bids : list PBSBid)
    (pbs_req : PBSRequest) (priceGranularitySetting : string)
    : option (list PBSBid) :=
  snd <$> sortBidsAddKeywordsMobile_run E bids pbs_req priceGranularitySetting.

(** ** An instance of [sort.Sort]

    The Go library up to release 1.18 sorts a slice of at most 12 elements
    by one ShellSort pass with gap 6 followed by insertion sort; longer
    slices are first partitioned by quickSort, which is not modelled: the
    same two passes are applied to any length, which still sorts. *)

(** [data.Swap(i, j)] *)
Definition Swap (l : list nat) (i j : nat) : list nat :=
  match l !! i, l !! j with
  | Some x, Some y => <[i := y]> (<[j := x]> l)
  | _, _ => l
  end.

(** [if data.Less(i, i-6) { data.Swap(i, i-6) }] *)
Definition shell_step (less : nat → nat → bool) (l : list nat) (i : nat)
    : list nat :=
  match l !! i, l !! (i - 6) with
  | Some x, Some y => if less x y then Swap l i (i - 6) else l
  | _, _ => l
  end.

(** [for i := a + 6; i < b; i++] *)
Definition shell_pass (less : nat → nat → bool) (l : list nat) : list nat :=
  foldl (shell_step less) l (seq 6 (length l - 6)).

(** [for j := i; j > a && data.Less(j, j-1); j-- { data.Swap(j, j-1) }],
    on the sorted prefix read from its end: [x] moves down past every
    element it is less than. *)
Fixpoint sink (less : nat → nat → bool) (x : nat) (rev_prefix : list nat)
    : list nat :=
  match rev_prefix with
  | [] => [x]
  | y :: rest => if less x y then y :: sink less x rest else x :: y :: rest
  end.

Definition insertionSort (less : nat → nat → bool) (l : list nat)
    : list nat :=
  rev (foldl (λ rev_prefix x, sink less x rev_prefix) [] l).

Definition shellInsertionSort (less : nat → nat → bool) (l : list nat)
    : list nat :=
  insertionSort less (shell_pass less l).

(** ** Metrics and responses *)

(** The process-wide meters of [pbsmetrics.Metrics] that the two handlers
    mark. The per-adapter and per-account meters, timers and histograms
    only record; they are left out. *)
Module Metrics.
Record t := mk {
  RequestMeter : N;
  SafariRequestMeter : N;
  ErrorMeter : N;
  AppRequestMeter : N;
  NoCookieMeter : N;
  SafariNoCookieMeter : N;
  CookieSyncMeter : N
}.

Definition mark_Request (m : t) : t :=
  mk (RequestMeter m + 1) (SafariRequestMeter m) (ErrorMeter m)
     (AppRequestMeter m) (NoCookieMeter m) (SafariNoCookieMeter m)
     (CookieSyncMeter m).
Definition mark_SafariRequest (m : t) : t :=
  mk (RequestMeter m) (SafariRequestMeter m + 1) (ErrorMeter m)
     (AppRequestMeter m) (NoCookieMeter m) (SafariNoCookieMeter m)
     (CookieSyncMeter m).
Definition mark_Error (m : t) : t :=
  mk (RequestMeter m) (SafariRequestMeter m) (ErrorMeter m + 1)
     (AppRequestMeter m) (NoCookieMeter m) (SafariNoCookieMeter m)
     (CookieSyncMeter m).
Definition mark_AppRequest (m : t) : t :=
  mk (RequestMeter m) (SafariRequestMeter m) (ErrorMeter m)
     (AppRequestMeter m + 1) (NoCookieMeter m) (SafariNoCookieMeter m)
     (CookieSyncMeter m).
Definition mark_NoCookie (m : t) : t :=
  mk (RequestMeter m) (SafariRequestMeter m) (ErrorMeter m)
     (AppRequestMeter m) (NoCookieMeter m + 1) (SafariNoCookieMeter m)
     (CookieSyncMeter m).
Definition mark_SafariNoCookie (m : t) : t :=
  mk (RequestMeter m) (SafariRequestMeter m) (ErrorMeter m)
     (AppRequestMeter m) (NoCookieMeter m) (SafariNoCookieMeter m + 1)
     (CookieSyncMeter m).
Definition mark_CookieSync (m : t) : t :=
  mk (RequestMeter m) (SafariRequestMeter m) (ErrorMeter m)
     (AppRequestMeter m) (NoCookieMeter m) (SafariNoCookieMeter m)
     (CookieSyncMeter m + 1).
End Metrics.
Abbreviation Metrics := Metrics.t.

(** [pbs.PBSResponse]; nil slices are [[]]. *)
Module PBSResponse.
Record t := mk {
  TID : string;
  Status : string;
  BidderStatus : list PBSBidder;
  Bids : list PBSBid
}.
End PBSResponse.
Abbreviation PBSResponse := PBSResponse.t.

(** The parsed [User-Agent], as far as [auction] looks at it:
    [ua.Type == useragent.Browser] and [ua.Name]. *)
Record UserAgent := { IsBrowser : bool; Name : string }.

(** What [auction] writes to the [http.ResponseWriter]: the JSON of a
    response, through [writeAuctionError] or through the final
    [enc.Encode(pbs_resp)]. *)
Inductive Written :=
  | WroteError (resp : PBSResponse)
  | Encoded (resp : PBSResponse).

Definition body (w : Written) : PBSResponse :=
  match w with WroteError resp | Encoded resp => resp end.

(** One run of [auction]: what was written, the meters afterwards, the
    bidders (by position) whose adapter was called, in dispatch order, and
    the arguments of the calls of [pbc.Put]. *)
Module AuctionRun.
Record t := mk {
  written : Written;
  metrics : Metrics;
  calls : list nat;
  cache_puts : list (list BidCache)
}.
End AuctionRun.
Abbreviation AuctionRun := AuctionRun.t.

(** [writeAuctionError]: a response with only [Status] set. *)
Definition writeAuctionError (s : string) (err : option error) : PBSResponse :=
  PBSResponse.mk ""
    (match err with
     | Some e => s +:+ ": " +:+ Error_string e
     | None => s
     end)
    [] [].

(** ** [auction] *)

(** The body of the goroutine started for a dispatched bidder: the bidder
    as it leaves it, and the [bid_list] of the result it sends. *)
Definition bidder_task (ex : Adapter) (pbs_req : PBSRequest)
    (bidder : PBSBidder) : option (PBSBidder * list PBSBid) :=
  let r := Adapter.Call ex pbs_req bidder in
  let bidder := PBSBidder.set_ResponseTime bidder (CallResult.elapsed r) in
  match CallResult.err r with
  | Some err =>
      let bidder :=
        match err with
        | DeadlineExceeded => PBSBidder.set_Error bidder "Timed out"
        | _ => PBSBidder.set_Error bidder (Error_string err)
        end in
      Some (bidder, default [] (CallResult.bid_list r))
  | None =>
      match CallResult.bid_list r with
      | Some bid_list =>
          bid_list ← checkForValidBidSize bid_list bidder;
          let bidder := PBSBidder.set_NumBids bidder (length bid_list) in
          Some (bidder,
                (λ bid, PBSBid.set_ResponseTime bid
                          (PBSBidder.ResponseTime bidder)) <$> bid_list)
      | None => Some (PBSBidder.set_NoBid bidder, [])
      end
  end.

(** The state of the fan-out loop: the bidders behind [pbs_req.Bidders]
    (and behind [pbs_resp.BidderStatus], which is the same slice), the
    results sent so far, and [sentBids]. *)
Module FanOut.
Record t := mk {
  bidders : list PBSBidder;
  results : list bidResult;
  sentBids : nat
}.
End FanOut.
Abbreviation FanOut := FanOut.t.

(** One turn of [for _, bidder := range pbs_req.Bidders], for the bidder at
    position [i]. A task touches no bidder but its own, so it is run to its
    end where it is started. *)
Definition dispatch (E : Env) (pbs_req : PBSRequest) (st : FanOut) (i : nat)
    : option FanOut :=
  bidder ← FanOut.bidders st !! i;
  match exchanges E !! PBSBidder.BidderCode bidder with
  | Some ex =>
      let uid := PBSCookie.GetUID (PBSRequest.Cookie pbs_req)
                   (Adapter.FamilyName ex) in
      let no_cookie :=
        bool_decide (PBSRequest.App pbs_req = None) && bool_decide (uid = "") in
      let bidder :=
        if no_cookie
        then PBSBidder.set_NoCookie bidder (Adapter.GetUsersyncInfo ex)
        else bidder in
      if no_cookie && Adapter.SkipNoCookies ex then
        Some (FanOut.mk (<[i := bidder]> (FanOut.bidders st))
                (FanOut.results st) (FanOut.sentBids st))
      else
        '(bidder, bid_list) ← bidder_task ex pbs_req bidder;
        Some (FanOut.mk (<[i := bidder]> (FanOut.bidders st))
                (FanOut.results st ++ [Build_bidResult i bid_list])%list
                (S (FanOut.sentBids st)))
  | None =>
      Some (FanOut.mk
              (<[i := PBSBidder.set_Error bidder "Unsupported bidder"]>
                 (FanOut.bidders st))
              (FanOut.results st) (FanOut.sentBids st))
  end.

Fixpoint dispatch_loop (E : Env) (pbs_req : PBSRequest) (positions : list nat)
    (st : FanOut) : option FanOut :=
  match positions with
  | [] => Some st
  | i :: rest => st' ← dispatch E pbs_req st i; dispatch_loop E pbs_req rest st'
  end.

Definition fan_out (E : Env) (pbs_req : PBSRequest) : option FanOut :=
  dispatch_loop E pbs_req (seq 0 (length (PBSRequest.Bidders pbs_req)))
    (FanOut.mk (PBSRequest.Bidders pbs_req) [] 0).

(** [for i := 0; i < sentBids; i++ { result := <-ch; ... append ... }] *)
Definition drain (E : Env) (st : FanOut) : list PBSBid :=
  foldl (λ Bids result, (Bids ++ bid_list result)%list) []
    (take (FanOut.sentBids st) (arrival E (FanOut.results st))).

(** The cache objects built from the bids, [cobjs[i].Value]. *)
Definition cache_values (Bids : list PBSBid) : list BidCache :=
  (λ bid, BidCache.mk (PBSBid.Adm bid) (PBSBid.NURL bid)
            (PBSBid.Width bid) (PBSBid.Height bid)) <$> Bids.

(** [bid.CacheID = cobjs[i].UUID; bid.NURL = ""; bid.Adm = ""] for all. *)
Definition set_cache_ids (uuids : nat → string) (Bids : list PBSBid)
    : list PBSBid :=
  imap (λ i bid, PBSBid.set_cached bid (uuids i)) Bids.

Definition isSafari (ua : option UserAgent) : bool :=
  match ua with
  | Some ua => IsBrowser ua && bool_decide (Name ua = "Safari")
  | None => false
  end.

(** The end of the handler, once the bidders are through the fan-out loop:
    the results are received, the creatives cached when [cache_markup] is
    1, the keywords added when [sort_bids] is 1, and the response encoded. *)
Definition respond (E : Env) (pbs_req : PBSRequest) (account : Account)
    (status : string) (m : Metrics) (st : FanOut) : option AuctionRun :=
  let calls := bidder <$> FanOut.results st in
  let Bids := drain E st in
  let finish (Bids : list PBSBid) (puts : list (list BidCache)) :=
    Bids ← (if decide (PBSRequest.SortBids pbs_req = 1%Z)
            then sortBidsAddKeywordsMobile E Bids pbs_req
                   (Account.PriceGranularity account)
            else Some Bids);
    Some (AuctionRun.mk
            (Encoded (PBSResponse.mk (PBSRequest.Tid pbs_req) status
                        (FanOut.bidders st) Bids))
            m calls puts) in
  if decide (PBSRequest.CacheMarkup pbs_req = 1%Z) then
    let cobjs := cache_values Bids in
    match pbc_Put E cobjs with
    | inl err =>
        Some (AuctionRun.mk
                (WroteError (writeAuctionError "Prebid cache failed" (Some err)))
                (Metrics.mark_Error m) calls [cobjs])
    | inr uuids => finish (set_cache_ids uuids Bids) [cobjs]
    end
  else finish Bids [].

(** The status of the response and the meters, from the app and the
    cookie of the request. *)
Definition request_status (pbs_req : PBSRequest) (ua : option UserAgent)
    (m : Metrics) : string * Metrics :=
  if PBSRequest.App pbs_req is Some _ then
    ("OK", Metrics.mark_AppRequest m)
  else if decide (PBSCookie.LiveSyncCount (PBSRequest.Cookie pbs_req) = 0)
  then
    let m := Metrics.mark_NoCookie m in
    ("no_cookie", if isSafari ua then Metrics.mark_SafariNoCookie m else m)
  else ("OK", m).

(** The handler, from the meters [m], the parsed user agent of the request
    and the result of [pbs.ParsePBSRequest]. *)
Definition auction (E : Env) (m : Metrics) (ua : option UserAgent)
    (parsed : error + PBSRequest) : option AuctionRun :=
  let m := Metrics.mark_Request m in
  let m := if isSafari ua then Metrics.mark_SafariRequest m else m in
  match parsed with
  | inl err =>
      Some (AuctionRun.mk
              (WroteError (writeAuctionError "Error parsing request" (Some err)))
              (Metrics.mark_Error m) [] [])
  | inr pbs_req =>
      let '(status, m) := request_status pbs_req ua m in
      match Accounts_Get E (PBSRequest.AccountID pbs_req) with
      | inl _ =>
          Some (AuctionRun.mk
                  (WroteError (writeAuctionError "Unknown account id"
                                 (Some (Errorf "Unknown account"))))
                  (Metrics.mark_Error m) [] [])
      | inr account =>
          st ← fan_out E pbs_req;
          respond E pbs_req account status m st
      end
  end.

(** ** [cookieSync] *)

Record cookieSyncResponse := {
  cs_UUID : string;
  cs_Status : string;
  cs_BidderStatus : list PBSBidder
}.

(** What [cookieSync] writes: [http.Error(w, msg, code)] or the JSON of the
    response (with status 200). *)
Inductive CookieSyncReply :=
  | HttpError (msg : string) (code : nat)
  | CookieSyncJSON (resp : cookieSyncResponse).

(** One run of [cookieSync]: the reply, the meters afterwards, and whether
    [r.Body] was handed to the JSON decoder. *)
Record CookieSyncRun := {
  reply : CookieSyncReply;
  cs_metrics : Metrics;
  body_decoded : bool
}.

Definition StatusUnauthorized : nat := 401.
Definition StatusBadRequest : nat := 400.

(** [for _, bidder := range csReq.Bidders]: the statuses appended. *)
Fixpoint sync_statuses (E : Env) (userSyncCookie : PBSCookie)
    (bidders : list string) : list PBSBidder :=
  match bidders with
  | [] => []
  | bidder :: rest =>
      let tail := sync_statuses E userSyncCookie rest in
      match exchanges E !! bidder with
      | Some ex =>
          if negb (PBSCookie.HasLiveSync userSyncCookie (Adapter.FamilyName ex))
          then PBSBidder.mk bidder [] 0 0 "" true false
                 (Some (Adapter.GetUsersyncInfo ex)) :: tail
          else tail
      | None => tail
      end
  end.

(** The handler, from the meters, the cookie parsed from the request and
    the bytes of the request body. Reading [csReq.UUID] through a nil
    [csReq] panics, before anything is written. *)
Definition cookieSync (E : Env) (m : Metrics) (userSyncCookie : PBSCookie)
    (r_Body : string) : option CookieSyncRun :=
  let m := Metrics.mark_CookieSync m in
  if negb (PBSCookie.AllowSyncs userSyncCookie) then
    Some (Build_CookieSyncRun
            (HttpError "User has opted out" StatusUnauthorized) m false)
  else
    match json_Decode E r_Body with
    | inl _ =>
        Some (Build_CookieSyncRun
                (HttpError "JSON parse failed" StatusBadRequest) m true)
    | inr csReq =>
        csReq ← csReq;
        let status :=
          if decide (PBSCookie.LiveSyncCount userSyncCookie = 0)
          then "no_cookie" else "ok" in
        Some (Build_CookieSyncRun
                (CookieSyncJSON
                   (Build_cookieSyncResponse (UUID csReq) status
                      (sync_statuses E userSyncCookie (Bidders csReq))))
                m true)
    end.

(** ** Definitions used by the statements and proofs below *)

(** A buffer of [checkForValidBidSize] whose first slots hold [acc] and
    whose [n] last ones are nil. *)
Definition filled (acc : list PBSBid) (n : nat) : valid_bids :=
  ((Some <$> acc) ++ replicate n None, length acc).

(** A requested bidder code needs a sync: it is registered, and the cookie
    has no live sync for the family of its adapter. *)
Definition needs_sync (E : Env) (userSyncCookie : PBSCookie) (code : string)
    : Prop :=
  match exchanges E !! code with
  | Some ex =>
      PBSCookie.HasLiveSync userSyncCookie (Adapter.FamilyName ex) = false
  | None => False
  end.

#[global] Instance needs_sync_dec E userSyncCookie code :
  Decision (needs_sync E userSyncCookie code).
Proof. unfold needs_sync. destruct (exchanges E !! code); apply _. Defined.

(** A bid without its targeting map: what [sortBidsAddKeywordsMobile]
    leaves alone. *)
Definition untargeted (b : PBSBid) : PBSBid :=
  PBSBid.mk (PBSBid.BidID b) (PBSBid.AdUnitCode b) (PBSBid.BidderCode b)
    (PBSBid.Price b) (PBSBid.Adm b) (PBSBid.NURL b) (PBSBid.Width b)
    (PBSBid.Height b) (PBSBid.CreativeMediaType b) (PBSBid.CacheID b) None
    (PBSBid.ResponseTime b).

(** The granularity in force, and the bucketed price string of a bid. *)
Definition granularity (priceGranularitySetting : string) : string :=
  if decide (priceGranularitySetting = "") then defaultPriceGranularity
  else priceGranularitySetting.

Definition roundedCpm (E : Env) (priceGranularitySetting : string)
    (bid : PBSBid) : string :=
  default "" (GetPriceBucketString E (PBSBid.Price bid)
                !! priceGranularitySetting).

(** The unsuffixed key names, which only the top bid of a group gets. *)
Definition top_keys : list string :=
  [hbpbConstantKey; hbBidderConstantKey; hbCacheIdConstantKey;
   hbSizeConstantKey; hbCreativeLoadMethodConstantKey].


(** A key name as the key length leaves it: whole when the length is 0,
    else its first [MaxKeyLength] bytes (all of it when it has fewer). *)
Definition cut_key (MaxKeyLength : Z) (key : string) : string :=
  if decide (MaxKeyLength = 0%Z) then key
  else String.substring 0 (Z.to_nat MaxKeyLength) key.

(** The four bidder-suffixed key names of a bid, in full. *)
Definition bidder_names (bid : PBSBid) : list string :=
  [hbpbConstantKey +:+ "_" +:+ PBSBid.BidderCode bid;
   hbBidderConstantKey +:+ "_" +:+ PBSBid.BidderCode bid;
   hbCacheIdConstantKey +:+ "_" +:+ PBSBid.BidderCode bid;
   hbSizeConstantKey +:+ "_" +:+ PBSBid.BidderCode bid].

(** The positions of the bids of one ad unit code, in the order of the
    aggregate bid list. *)
Definition positions_of (bids : list PBSBid) (code : string) : list nat :=
  filter (λ j, PBSBid.AdUnitCode <$> bids !! j = Some code)
    (seq 0 (length bids)).

(** The bid at position [j1] has a price at least that of the bid at [j2]. *)
Definition price_ge (bids : list PBSBid) (j1 j2 : nat) : Prop :=
  ∃ b1 b2, bids !! j1 = Some b1 ∧ bids !! j2 = Some b2
           ∧ (PBSBid.Price b2 <= PBSBid.Price b1)%Qc.

(** In [cur], the bid at position [j] is the bid of [bids] there, with the
    targeting map that [pbs_kvs] builds for rank [i] in its group. *)
Definition keyed (E : Env) (MaxKeyLength : Z) (pg : string)
    (bids cur : list PBSBid) (i j : nat) : Prop :=
  ∃ bid kvs,
    bids !! j = Some bid
    ∧ pbs_kvs MaxKeyLength (roundedCpm E pg bid) i bid = Some kvs
    ∧ cur !! j = Some (PBSBid.set_AdServerTargeting bid kvs).

(** Each bid of [cur] is the bid of [bids] at its position, as it was or
    with a targeting map built by [pbs_kvs]. *)
Definition touched (E : Env) (MaxKeyLength : Z) (pg : string)
    (bids cur : list PBSBid) : Prop :=
  length cur = length bids
  ∧ ∀ j bid', cur !! j = Some bid' →
      ∃ bid, bids !! j = Some bid
             ∧ (bid' = bid
                ∨ ∃ i kvs,
                    pbs_kvs MaxKeyLength (roundedCpm E pg bid) i bid = Some kvs
                    ∧ bid' = PBSBid.set_AdServerTargeting bid kvs).

(** The invariant of the loop over the ad units, once the units with the
    codes [done] have been through it. *)
Record targeting_inv (E : Env) (MaxKeyLength : Z) (pg : string)
    (bids : list PBSBid) (done : list string)
    (st : gmap string (list nat) * list PBSBid) : Prop := {
  inv_touched : touched E MaxKeyLength pg bids st.2;
  inv_groups c : default [] (st.1 !! c) ≡ₚ positions_of bids c;
  inv_untouched c j :
    c ∉ done → j ∈ positions_of bids c → st.2 !! j = bids !! j;
  inv_sorted c :
    c ∈ done → StronglySorted (price_ge bids) (default [] (st.1 !! c));
  inv_keyed c i j :
    c ∈ done → default [] (st.1 !! c) !! i = Some j →
    keyed E MaxKeyLength pg bids st.2 i j
}.

(** The entry for a size key: present, with ["<w>x<h>"], exactly when both
    dimensions are non-zero. *)
Definition size_entry (bid : PBSBid) : option string :=
  if decide (PBSBid.Width bid ≠ 0%N ∧ PBSBid.Height bid ≠ 0%N)
  then Some (FormatUint (PBSBid.Width bid) +:+ "x"
             +:+ FormatUint (PBSBid.Height bid))
  else None.

(** What one turn of the fan-out loop does with the bidder it is at: the
    bidder as the turn leaves it, and the bids of the result sent for it
    when its adapter was called. *)
Definition settle (E : Env) (pbs_req : PBSRequest) (bidder : PBSBidder)
    : option (PBSBidder * option (list PBSBid)) :=
  match exchanges E !! PBSBidder.BidderCode bidder with
  | Some ex =>
      let uid := PBSCookie.GetUID (PBSRequest.Cookie pbs_req)
                   (Adapter.FamilyName ex) in
      let no_cookie :=
        bool_decide (PBSRequest.App pbs_req = None) && bool_decide (uid = "") in
      let bidder :=
        if no_cookie
        then PBSBidder.set_NoCookie bidder (Adapter.GetUsersyncInfo ex)
        else bidder in
      if no_cookie && Adapter.SkipNoCookies ex then Some (bidder, None)
      else
        '(bidder, bid_list) ← bidder_task ex pbs_req bidder;
        Some (bidder, Some bid_list)
  | None => Some (PBSBidder.set_Error bidder "Unsupported bidder", None)
  end.

(** The bidder is skipped: no app, no user id for the family of the
    adapter, and an adapter that skips such users. *)
Definition skipped (pbs_req : PBSRequest) (ex : Adapter) : Prop :=
  PBSRequest.App pbs_req = None
  ∧ PBSCookie.GetUID (PBSRequest.Cookie pbs_req) (Adapter.FamilyName ex) = ""
  ∧ Adapter.SkipNoCookies ex = true.

(** The bidder as its adapter is called with it. *)
Definition as_called (pbs_req : PBSRequest) (ex : Adapter)
    (bidder : PBSBidder) : PBSBidder :=
  if decide (PBSRequest.App pbs_req = None
             ∧ PBSCookie.GetUID (PBSRequest.Cookie pbs_req)
                 (Adapter.FamilyName ex) = "")
  then PBSBidder.mk (PBSBidder.BidderCode bidder) (PBSBidder.AdUnits bidder)
         (PBSBidder.ResponseTime bidder) (PBSBidder.NumBids bidder)
         (PBSBidder.Error bidder) true (PBSBidder.NoBid bidder)
         (Some (Adapter.GetUsersyncInfo ex))
  else bidder.

(** ** A scenario to run the handlers on

    One ad unit [u1] of 300x250; four registered adapters: ["A"] answers a
    banner of 1.23 without a size, ["B"] a 300x250 banner of 0.50,
    ["audienceNetwork"] skips users without a cookie, ["T"] runs into the
    deadline; ["Z"] is not registered. The user has synced with all but
    ["audienceNetwork"]. *)

Definition example_bid (code bidder : string) (cents : Z) (w h : N) : PBSBid :=
  PBSBid.mk "bid-1" code bidder (Q2Qc (cents # 100)) "<div/>" "http://n.url"
    w h "banner" "" None 0.

Definition example_bidder (code : string) : PBSBidder :=
  PBSBidder.mk code [PBSAdUnit.mk [Size.mk 300 250] "u1" "bid-1"]
    0 0 "" false false None.

Definition example_adapter (family : string) (skip : bool) (r : CallResult)
    : Adapter :=
  Adapter.mk family ("//sync." +:+ family) skip (λ _ _, r).

Definition example_exchanges : gmap string Adapter :=
  <["A" := example_adapter "famA" false
             (CallResult.mk 12 (Some [example_bid "u1" "A" 123 0 0]) None)]>
    (<["B" := example_adapter "famB" false
                (CallResult.mk 48
                   (Some [example_bid "u1" "B" 50 300 250]) None)]>
       (<["audienceNetwork" := example_adapter "audienceNetwork" true
                                 (CallResult.mk 5 None None)]>
          (<["T" := example_adapter "famT" false
                      (CallResult.mk 200 None (Some DeadlineExceeded))]> ∅))).

Definition example_cookie (allow : bool) : PBSCookie :=
  let uid family :=
    if decide (family ∈ ["famA"; "famB"; "famT"]) then "uid-" +:+ family
    else "" in
  PBSCookie.mk allow 3 (λ family, negb (bool_decide (uid family = ""))) uid.

Definition example_Env : Env :=
  Build_Env example_exchanges
    (λ id, if decide (id = "acct") then inr (Account.mk "acct" "")
           else inl (Errorf "sql: no rows in result set"))
    (λ cobjs, inr (λ i, "uuid-" +:+ pretty i))
    (λ price, {["med" := if decide (price < 1)%Qc then "0.50" else "1.20"]})
    shellInsertionSort
    id
    (λ body, if decide (body = "{}")
             then inr (Some (Build_cookieSyncRequest "" []))
             else if decide (body = "[A,B,Z]")
             then inr (Some (Build_cookieSyncRequest "u"
                               ["A"; "audienceNetwork"; "Z"]))
             else if decide (body = "null") then inr None
             else inl (Errorf "invalid character")).

Definition example_request (account : string) (MaxKeyLength : Z)
    : PBSRequest :=
  PBSRequest.mk account "tid-1" 1 1 MaxKeyLength 500
    [AdUnit.mk "u1" [Size.mk 300 250]] None
    (example_bidder <$> ["A"; "B"; "Z"; "audienceNetwork"; "T"])
    (example_cookie true) "http://page".

Definition example_metrics : Metrics := Metrics.mk 0 0 0 0 0 0 0.

(** Seven bids for [u1], of prices 1, 5, 0, 0, 0, 0, 5. *)
Definition example_ties : list PBSBid :=
  (λ '(bidder, cents), example_bid "u1" bidder cents 300 250)
  <$> [("b0", 100); ("b1", 500); ("b2", 0); ("b3", 0); ("b4", 0); ("b5", 0);
       ("b6", 500)]%Z.

(** The key length in force cuts none of the bidder-suffixed key names of
    the bid: there is none, or the longest name, [hb_cache_id_<bidderCode>],
    fits. *)
Definition keys_fit (MaxKeyLength : Z) (bid : PBSBid) : Prop :=
  MaxKeyLength = 0%Z
  ∨ (Z.of_nat (String.length
                 (hbCacheIdConstantKey +:+ "_" +:+ PBSBid.BidderCode bid))
     ≤ MaxKeyLength)%Z.

(** Two bids with defined dimensions: a sized banner and a video. *)
Definition example_defined_bids : list PBSBid :=
  [example_bid "u1" "B" 50 300 250;
   PBSBid.mk "bid-2" "u1" "A" 0 "<VAST/>" "" 0 0 "video" "" None 0].

(** The bids of ["A"] and ["B"] for [u1], both sized. *)
Definition example_two_bids : list PBSBid :=
  [example_bid "u1" "A" 123 300 250; example_bid "u1" "B" 50 300 250].

(** One bid of ["audienceNetwork"], and what the targeting builder makes of
    it with a key length of 20. *)
Definition example_long_code_bids : list PBSBid :=
  [example_bid "u1" "audienceNetwork" 123 300 250].

Definition example_long_code_keyed : list PBSBid :=
  default [] (sortBidsAddKeywordsMobile example_Env example_long_code_bids
                (example_request "acct" 20) "").

(** The run of the auction on the scenario, and the response it encodes. *)
Definition example_run : AuctionRun :=
  default (AuctionRun.mk (WroteError (writeAuctionError "" None))
             example_metrics [] [])
    (auction example_Env example_metrics None
       (inr (example_request "acct" 0))).

Definition example_response : PBSResponse :=
  body (AuctionRun.written example_run).

(** The cookie-sync request decoded from the body ["[A,B,Z]"]. *)
Definition example_csReq : cookieSyncRequest :=
  Build_cookieSyncRequest "u" ["A"; "audienceNetwork"; "Z"].


(** ** Definitions for the further properties *)

(** A bid without its dimensions: what size reconciliation leaves alone. *)
Definition unsized (b : PBSBid) : PBSBid := PBSBid.set_size b 0 0.

(** The bidder as the fan-out loop leaves it. *)
Definition settled (E : Env) (pbs_req : PBSRequest) (b : PBSBidder)
    : PBSBidder :=
  default b (fst <$> settle E pbs_req b).

(** The results sent for the bidders [bs], which stand at the positions
    from [i] on, in the order in which their tasks are started. *)
Fixpoint sent_results (E : Env) (pbs_req : PBSRequest) (i : nat)
    (bs : list PBSBidder) : list bidResult :=
  match bs with
  | [] => []
  | b :: rest =>
      match settle E pbs_req b with
      | Some (_, Some bl) => [Build_bidResult i bl]
      | _ => []
      end ++ sent_results E pbs_req (S i) rest
  end.

(** The adapters that fail hand back no bids with their error. *)
Definition errors_without_bids (E : Env) : Prop :=
  ∀ code ex pbs_req b,
    exchanges E !! code = Some ex →
    is_Some (CallResult.err (Adapter.Call ex pbs_req b)) →
    default [] (CallResult.bid_list (Adapter.Call ex pbs_req b)) = [].

(** ** [keys] *)

(** [keys[i] = k; i++]: the index expression panics out of range. *)
Definition keys_step (st : option (list string * nat)) (k : string)
    : option (list string * nat) :=
  '(keys, i) ← st;
  if decide (i < length keys) then Some (<[i := k]> keys, S i) else None.

(** [keys], for the order [range m] in which [for k := range m] visits
    the keys of the map (the language leaves it open). *)
Definition keys (range : gmap string Adapter → list string)
    (m : gmap string Adapter) : option (list string) :=
  fst <$> foldl keys_step (Some (replicate (size m) "", 0)) (range m).

(** ** [NewJsonDirectoryServer] *)

(** How the start of the server ends: it goes on with a value, exits
    through [glog.Fatalf], or panics. *)
Inductive Startup (A : Type) :=
  | Started (a : A)
  | Fatalf (msg : string)
  | Panic.
Arguments Started {A} a.
Arguments Fatalf {A} msg.
Arguments Panic {A}.

(** [for _, file := range files]: each file is read, then stored under its
    name less the last five bytes. *)
Fixpoint slurp (ReadFile : string → error + string)
    (schemaDirectory : string) (files : list string)
    (data : gmap string string) : Startup (gmap string string) :=
  match files with
  | [] => Started data
  | file_Name :: rest =>
      match ReadFile (schemaDirectory +:+ "/" +:+ file_Name) with
      | inl err =>
          Fatalf ("Failed to read file " +:+ schemaDirectory +:+ "/"
                  +:+ file_Name +:+ ": " +:+ Error_string err)
      | inr bytes =>
          match slice_prefix file_Name
                  (Z.of_nat (String.length file_Name) - 5) with
          | Some key =>
              slurp ReadFile schemaDirectory rest (<[key := bytes]> data)
          | None => Panic
          end
      end
  end.

(** The function, up to the handler it returns: the bytes that the handler
    writes on every request. [ReadDir] gives the names of the directory
    entries, [json_Marshal] is [json.Marshal] on the map. *)
Definition NewJsonDirectoryServer (ReadDir : string → error + list string)
    (ReadFile : string → error + string)
    (json_Marshal : gmap string string → error + string)
    (schemaDirectory : string) : Startup string :=
  match ReadDir schemaDirectory with
  | inl err =>
      Fatalf ("Failed to read directory " +:+ schemaDirectory +:+ ": "
              +:+ Error_string err)
  | inr files =>
      match slurp ReadFile schemaDirectory files ∅ with
      | Started data =>
          match json_Marshal data with
          | inl err =>
              Fatalf ("Failed to marshal bidder param JSON-schema: "
                      +:+ Error_string err)
          | inr response => Started response
          end
      | Fatalf msg => Fatalf msg
      | Panic => Panic
      end
  end.

(** The key under which a file is served: its name less the last five
    bytes, whatever they are. *)
Definition stem (file_Name : string) : string :=
  String.substring 0 (String.length file_Name - 5) file_Name.

(** ** Further scenarios *)

(** Two banners of ["A"] without a size: for [u1], and for a unit [u9]
    that the bidder does not have. *)
Definition example_unsized_bids : list PBSBid :=
  [example_bid "u1" "A" 123 0 0; example_bid "u9" "A" 80 0 0].

(** A bidder whose unit [u1] declares two sizes. *)
Definition example_bidder_two_sizes : PBSBidder :=
  PBSBidder.mk "A"
    [PBSAdUnit.mk [Size.mk 300 250; Size.mk 728 90] "u1" "bid-1"]
    0 0 "" false false None.

(** A bid for a unit that the request does not list. *)
Definition example_unlisted_bids : list PBSBid :=
  [example_bid "u9" "A" 123 300 250].

(** An adapter ["F"] that fails and hands back a bid all the same, and a
    request for it alone. *)
Definition example_failing_adapter : Adapter :=
  example_adapter "famF" false
    (CallResult.mk 7 (Some [example_bid "u1" "F" 99 0 0])
       (Some (Errorf "boom"))).

Definition example_failing_Env : Env :=
  Build_Env {["F" := example_failing_adapter]}
    (Accounts_Get example_Env) (pbc_Put example_Env)
    (GetPriceBucketString example_Env) shellInsertionSort id
    (json_Decode example_Env).

Definition example_failing_request : PBSRequest :=
  PBSRequest.mk "acct" "tid-2" 0 0 0 500
    [AdUnit.mk "u1" [Size.mk 300 250]] None [example_bidder "F"]
    (example_cookie true) "http://page".

(** The range over a map in the order of its list of entries. *)
Definition example_range (m : gmap string Adapter) : list string :=
  (map_to_list m).*1.

(** A schema directory with two schemas and a subdirectory. *)
Definition example_ReadDir (entries : list string) (dir : string)
    : error + list string :=
  if decide (dir = "schemas") then inr entries
  else inl (Errorf "no such file or directory").

Definition example_content (file_Name : string) : string :=
  "{" +:+ file_Name +:+ "}".

Definition example_ReadFile (path : string) : error + string :=
  if decide (path = "schemas/doc") then inl (Errorf "is a directory")
  else inr ("{" +:+ String.substring 8 (String.length path - 8) path +:+ "}").

Definition example_Marshal (data : gmap string string) : error + string :=
  inr (foldr (λ kv s, kv.1 +:+ ":" +:+ kv.2 +:+ ";" +:+ s) ""
         (map_to_list data)).


(** * Properties *)

(** ** Size reconciliation *)

Section size_reconciliation.
Context (bidder : PBSBidder).

Lemma store_bid_filled acc n bid :
  store_bid (filled acc (S n)) bid = Some (filled (acc ++ [bid]) n).
Proof.
  unfold store_bid, filled.
  rewrite decide_True
    by (rewrite length_app, length_fmap, length_replicate; lia).
  f_equal. f_equal.
  - rewrite insert_app_r_alt by (rewrite length_fmap; lia).
    rewrite length_fmap, Nat.sub_diag, fmap_app. simpl.
    by rewrite <- (assoc_L (++)).
  - rewrite length_app. simpl. lia.
Qed.

Lemma slice_to_filled acc n : slice_to (filled acc n) = Some acc.
Proof.
  unfold slice_to, filled.
  rewrite decide_True
    by (rewrite length_app, length_fmap; lia).
  rewrite take_app_length' by (by rewrite length_fmap).
  by apply mapM_fmap_Some.
Qed.

Lemma size_undefined_spec bid :
  size_undefined bid = true ↔ undefined_size bid.
Proof.
  unfold size_undefined, undefined_size.
  rewrite andb_true_iff, orb_true_iff, bool_decide_eq_true, !N.eqb_eq.
  tauto.
Qed.

Lemma adunit_matches_spec bid u :
  adunit_matches bid u = true ↔
  PBSAdUnit.BidID u = PBSBid.BidID bid
  ∧ PBSAdUnit.Code u = PBSBid.AdUnitCode bid.
Proof.
  unfold adunit_matches.
  by rewrite andb_true_iff, !bool_decide_eq_true.
Qed.

(** The inner loop stops at the first matching unit. *)
Lemma scan_adunits_first bid adunits st :
  scan_adunits bid adunits st =
  match head (filter (λ u, PBSAdUnit.BidID u = PBSBid.BidID bid
                           ∧ PBSAdUnit.Code u = PBSBid.AdUnitCode bid)
                adunits) with
  | Some u =>
      if decide (length (PBSAdUnit.Sizes u) = 1) then
        sz ← PBSAdUnit.Sizes u !! 0;
        store_bid st (PBSBid.set_size bid (Size.W sz) (Size.H sz))
      else Some st
  | None => Some st
  end.
Proof.
  induction adunits as [|u adunits IH]; [done|].
  simpl. rewrite filter_cons.
  destruct (adunit_matches bid u) eqn:Hm;
    destruct (decide (_ ∧ _)) as [Hu|Hu]; try done.
  - apply adunit_matches_spec in Hm. done.
  - apply adunit_matches_spec in Hu. congruence.
Qed.

(** One turn of the outer loop appends the reconciled bid, if any. *)
Lemma bid_turn_filled acc n bid :
  (if size_undefined bid
   then scan_adunits bid (PBSBidder.AdUnits bidder) (filled acc (S n))
   else store_bid (filled acc (S n)) bid)
  = Some (match reconcile bidder bid with
          | Some bid' => filled (acc ++ [bid']) n
          | None => filled acc (S n)
          end).
Proof.
  unfold reconcile.
  destruct (size_undefined bid) eqn:Hu.
  - apply size_undefined_spec in Hu. rewrite decide_True by done.
    rewrite scan_adunits_first. unfold originating_unit.
    destruct (head _) as [u|]; [|done].
    destruct (PBSAdUnit.Sizes u) as [|sz [|sz' sizes]]; simpl; try done.
    apply store_bid_filled.
  - rewrite decide_False.
    + apply store_bid_filled.
    + intros Hu'. apply size_undefined_spec in Hu'. congruence.
Qed.

Lemma bidLoop_filled bids acc n :
  length bids ≤ n →
  ∃ n', bidLoop bidder bids (filled acc n)
        = Some (filled (acc ++ omap (reconcile bidder) bids) n').
Proof.
  revert acc n. induction bids as [|bid bids IH]; intros acc n Hn.
  - exists n. simpl. by rewrite (right_id_L [] (++)).
  - simpl in Hn. destruct n as [|n]; [lia|].
    cbn [bidLoop]. rewrite bid_turn_filled. cbn [mbind option_bind].
    cbn [omap list_omap]. destruct (reconcile bidder bid) as [bid'|].
    + destruct (IH (acc ++ [bid']) n) as [n' Hn']; [lia|].
      exists n'. rewrite Hn'. by rewrite <- (assoc_L (++)).
    + destruct (IH acc (S n)) as [n' Hn']; [lia|]. by exists n'.
Qed.

(** The routine never runs out of its buffer, and returns the reconciled
    bids in the order of its input. *)
Lemma checkForValidBidSize_omap bids :
  checkForValidBidSize bids bidder = Some (omap (reconcile bidder) bids).
Proof.
  unfold checkForValidBidSize.
  destruct (bidLoop_filled bids [] (length bids)) as [n' Hn']; [done|].
  change (replicate (length bids) None, 0) with (filled [] (length bids)).
  rewrite Hn'. simpl. apply slice_to_filled.
Qed.

Lemma reconcile_defined bid :
  PBSBid.CreativeMediaType bid ≠ "banner"
  ∨ (0 < PBSBid.Width bid ∧ 0 < PBSBid.Height bid)%N →
  reconcile bidder bid = Some bid.
Proof.
  intros Hd. unfold reconcile. rewrite decide_False; [done|].
  intros [Hb Hz]. destruct Hd as [?|[? ?]]; [done|lia].
Qed.

(** C1. Size reconciliation: the result is the input with a per-bid rule
    applied in order, dropped bids left out. The rule keeps a banner bid
    with a zero dimension when its originating ad unit declares exactly
    one size: the bid kept has the width and the height of that size, and
    every other field as it was; it drops the bid when the unit declares
    more than one size, and when there is no such unit; it keeps every
    non-banner bid and every bid with both dimensions positive as it
    is. *)
Theorem checkForValidBidSize_reconciles (bids : list PBSBid) :
  ∃ rule : PBSBid → option PBSBid,
    checkForValidBidSize bids bidder = Some (omap rule bids)
    ∧ (∀ bid u sz,
         undefined_size bid → originating_unit bidder bid = Some u →
         PBSAdUnit.Sizes u = [sz] →
         ∃ bid',
           rule bid = Some bid'
           ∧ PBSBid.Width bid' = Size.W sz
           ∧ PBSBid.Height bid' = Size.H sz
           ∧ bid'
             = PBSBid.mk (PBSBid.BidID bid) (PBSBid.AdUnitCode bid)
                 (PBSBid.BidderCode bid) (PBSBid.Price bid)
                 (PBSBid.Adm bid) (PBSBid.NURL bid)
                 (PBSBid.Width bid') (PBSBid.Height bid')
                 (PBSBid.CreativeMediaType bid) (PBSBid.CacheID bid)
                 (PBSBid.AdServerTargeting bid) (PBSBid.ResponseTime bid))
    ∧ (∀ bid u,
         undefined_size bid → originating_unit bidder bid = Some u →
         1 < length (PBSAdUnit.Sizes u) → rule bid = None)
    ∧ (∀ bid,
         undefined_size bid → originating_unit bidder bid = None →
         rule bid = None)
    ∧ (∀ bid,
         PBSBid.CreativeMediaType bid ≠ "banner"
         ∨ (0 < PBSBid.Width bid ∧ 0 < PBSBid.Height bid)%N →
         rule bid = Some bid).
Proof.
  exists (reconcile bidder). split; [apply checkForValidBidSize_omap|].
  repeat split.
  - intros bid u sz Hu Ho Hs. unfold reconcile.
    rewrite decide_True, Ho, Hs by done. by eexists.
  - intros bid u Hu Ho Hs. unfold reconcile. rewrite decide_True, Ho by done.
    destruct (PBSAdUnit.Sizes u) as [|? [|? ?]]; simpl in Hs; [lia|lia|done].
  - intros bid Hu Ho. unfold reconcile. by rewrite decide_True, Ho.
  - apply reconcile_defined.
Qed.

(** C9. On bids with defined dimensions (non-banner, or both dimensions
    positive) size reconciliation returns its input, so a second pass
    changes nothing. *)
Theorem checkForValidBidSize_idempotent (bids : list PBSBid) :
  Forall (λ bid, PBSBid.CreativeMediaType bid ≠ "banner"
                 ∨ (0 < PBSBid.Width bid ∧ 0 < PBSBid.Height bid)%N) bids →
  checkForValidBidSize bids bidder = Some bids
  ∧ (checkForValidBidSize bids bidder
       ≫= λ out, checkForValidBidSize out bidder)
    = checkForValidBidSize bids bidder.
Proof.
  intros Hd.
  assert (omap (reconcile bidder) bids = bids) as Hid.
  { induction Hd as [|bid bids Hbid _ IH]; [done|].
    cbn [omap list_omap]. by rewrite reconcile_defined, IH. }
  assert (checkForValidBidSize bids bidder = Some bids) as Hone
    by (by rewrite checkForValidBidSize_omap, Hid).
  split; [done|]. rewrite Hone. simpl. by rewrite Hone.
Qed.
End size_reconciliation.

(** ** Cookie sync *)

Section cookie_sync.
Context (E : Env) (m : Metrics) (userSyncCookie : PBSCookie).

Lemma sync_statuses_codes bidders :
  PBSBidder.BidderCode <$> sync_statuses E userSyncCookie bidders
  = filter (needs_sync E userSyncCookie) bidders.
Proof.
  induction bidders as [|code bidders IH]; [done|].
  cbn [sync_statuses]. rewrite filter_cons.
  unfold needs_sync at 1.
  destruct (decide _) as [Hn|Hn]; unfold needs_sync in Hn;
    destruct (exchanges E !! code) as [ex|]; try done.
  - rewrite Hn. cbn [negb]. rewrite fmap_cons. by rewrite IH.
  - apply not_false_is_true in Hn. by rewrite Hn.
Qed.

Lemma sync_statuses_records bidders :
  Forall (λ b, ∃ ex,
            exchanges E !! PBSBidder.BidderCode b = Some ex
            ∧ PBSBidder.NoCookie b = true
            ∧ PBSBidder.UsersyncInfo b = Some (Adapter.GetUsersyncInfo ex))
    (sync_statuses E userSyncCookie bidders).
Proof.
  induction bidders as [|code bidders IH]; [constructor|].
  cbn [sync_statuses].
  destruct (exchanges E !! code) as [ex|] eqn:Hex; [|done].
  destruct (negb _); [|done].
  constructor; [|done]. by exists ex.
Qed.

(** The body [null] decodes without an error and leaves the request
    pointer nil: the handler then panics, with nothing written. *)
Lemma cookieSync_nil_request (r_Body : string) :
  PBSCookie.AllowSyncs userSyncCookie = true →
  json_Decode E r_Body = inr None →
  cookieSync E m userSyncCookie r_Body = None.
Proof. intros Hallow Hdec. unfold cookieSync. by rewrite Hallow, Hdec. Qed.

(** C7. The cookie-sync response, for a cookie that allows syncs and a
    body that decodes to a request: its status is ["no_cookie"] exactly
    when the cookie has no live sync, and ["ok"] otherwise; its bidder
    statuses are, in request order, one for each requested code that is
    registered and lacks a live sync for its adapter's family (the others
    are left out), with that code, [noCookie] set and the adapter's
    user-sync information. *)
Theorem cookieSync_response (r_Body : string) (csReq : cookieSyncRequest) :
  PBSCookie.AllowSyncs userSyncCookie = true →
  json_Decode E r_Body = inr (Some csReq) →
  ∃ run resp,
    cookieSync E m userSyncCookie r_Body = Some run
    ∧ reply run = CookieSyncJSON resp
    ∧ cs_UUID resp = UUID csReq
    ∧ (cs_Status resp = "no_cookie"
       ↔ PBSCookie.LiveSyncCount userSyncCookie = 0)
    ∧ (cs_Status resp = "ok" ↔ PBSCookie.LiveSyncCount userSyncCookie ≠ 0)
    ∧ PBSBidder.BidderCode <$> cs_BidderStatus resp
      = filter (needs_sync E userSyncCookie) (Bidders csReq)
    ∧ Forall (λ b, ∃ ex,
                exchanges E !! PBSBidder.BidderCode b = Some ex
                ∧ PBSBidder.NoCookie b = true
                ∧ PBSBidder.UsersyncInfo b
                  = Some (Adapter.GetUsersyncInfo ex))
        (cs_BidderStatus resp).
Proof.
  intros Hallow Hdec. unfold cookieSync. rewrite Hallow, Hdec. simpl.
  eexists _, _. split; [done|]. split; [done|]. simpl.
  split_and!.
  - done.
  - by destruct (decide _).
  - by destruct (decide _).
  - apply sync_statuses_codes.
  - apply sync_statuses_records.
Qed.

(** C10. The opt-out check comes before the body: for a cookie that
    disallows syncs the handler answers 401 "User has opted out" whatever
    the body is and whatever decoding it would give, without decoding it;
    so it never answers 400 "JSON parse failed" for such a cookie. *)
Theorem cookieSync_opt_out_first (r_Body : string) :
  PBSCookie.AllowSyncs userSyncCookie = false →
  cookieSync E m userSyncCookie r_Body
  = Some (Build_CookieSyncRun
            (HttpError "User has opted out" StatusUnauthorized)
            (Metrics.mark_CookieSync m) false).
Proof. intros Hopt. unfold cookieSync. by rewrite Hopt. Qed.
End cookie_sync.

(** ** The auction: request-scoped failures *)

Section auction_errors.
Context (E : Env) (m : Metrics) (ua : option UserAgent).

(** C8. An auction request whose account id does not resolve: the body
    written has the status ["Unknown account id: Unknown account"] and no
    bids, no adapter is called, and the error meter goes up by one. *)
Theorem auction_unknown_account (pbs_req : PBSRequest) (err : error) :
  Accounts_Get E (PBSRequest.AccountID pbs_req) = inl err →
  ∃ run,
    auction E m ua (inr pbs_req) = Some run
    ∧ PBSResponse.Status (body (AuctionRun.written run))
      = "Unknown account id: Unknown account"
    ∧ PBSResponse.Bids (body (AuctionRun.written run)) = []
    ∧ AuctionRun.calls run = []
    ∧ AuctionRun.cache_puts run = []
    ∧ Metrics.ErrorMeter (AuctionRun.metrics run)
      = (Metrics.ErrorMeter m + 1)%N.
Proof.
  intros Hacc. unfold auction.
  destruct (request_status _ _ _) as [status m'] eqn:Hstatus.
  rewrite Hacc. eexists. split; [done|]. simpl. split_and!; try done.
  f_equal. unfold request_status in Hstatus.
  destruct (PBSRequest.App pbs_req); [|destruct (decide _)];
    destruct (isSafari ua); by simplify_eq.
Qed.
End auction_errors.

(** ** Targeting keys of one bid *)

Section targeting_keys.
Lemma substring_length n s :
  String.length (String.substring 0 n s) = n `min` String.length s.
Proof.
  revert s. induction n as [|n IH]; intros [|c s]; simpl; try done.
  by rewrite IH.
Qed.

Lemma truncate_key_Some key MaxKeyLength :
  (0 ≤ MaxKeyLength)%Z → is_Some (truncate_key key MaxKeyLength).
Proof.
  intros Hm. unfold truncate_key, slice_prefix, min.
  destruct (decide (_ < _)%Z); rewrite decide_True by lia; eauto.
Qed.

Lemma truncate_key_length key MaxKeyLength k :
  truncate_key key MaxKeyLength = Some k →
  (Z.of_nat (String.length k) ≤ MaxKeyLength)%Z
  ∧ k = String.substring 0
          (Z.to_nat (Z.min (Z.of_nat (String.length key)) MaxKeyLength))
          key.
Proof.
  unfold truncate_key, slice_prefix, min.
  destruct (decide (_ < _)%Z) as [Hlt|Hge];
    (destruct (decide (_ ≤ _ ≤ _)%Z) as [Hr|]; [|done]);
    intros [= <-]; rewrite substring_length.
  - rewrite Z.min_l by lia. split; [lia|done].
  - rewrite Z.min_r by lia. split; [lia|done].
Qed.

Lemma bidder_keys_Some MaxKeyLength bid :
  (0 ≤ MaxKeyLength)%Z → is_Some (bidder_keys MaxKeyLength bid).
Proof.
  intros Hm. unfold bidder_keys. destruct (decide _); [|eauto].
  repeat match goal with
         | |- context [truncate_key ?k MaxKeyLength] =>
             let H := fresh in
             destruct (truncate_key_Some k MaxKeyLength Hm) as [? H];
             rewrite H; clear H; simpl
         end.
  eauto.
Qed.

Lemma pbs_kvs_Some MaxKeyLength cpm i bid :
  (0 ≤ MaxKeyLength)%Z → is_Some (pbs_kvs MaxKeyLength cpm i bid).
Proof.
  intros Hm. unfold pbs_kvs.
  destruct (bidder_keys_Some MaxKeyLength bid Hm) as [[[[k1 k2] k3] k4] ->].
  simpl. eauto.
Qed.

(** When a length is in force, each of the four bidder keys fits it. *)
Lemma bidder_keys_length MaxKeyLength bid k1 k2 k3 k4 :
  (0 < MaxKeyLength)%Z →
  bidder_keys MaxKeyLength bid = Some (k1, k2, k3, k4) →
  Forall (λ k, (Z.of_nat (String.length k) ≤ MaxKeyLength)%Z)
    [k1; k2; k3; k4].
Proof.
  intros Hm. unfold bidder_keys. rewrite decide_True by lia.
  intros Hk. simplify_option_eq.
  repeat match goal with
         | H : truncate_key _ _ = Some _ |- _ =>
             apply truncate_key_length in H as [? _]
         end.
  by repeat constructor.
Qed.


(** The top bid has the unsuffixed keys, under their full names. *)
Lemma pbs_kvs_top MaxKeyLength cpm bid kvs :
  pbs_kvs MaxKeyLength cpm 0 bid = Some kvs →
  is_Some (kvs !! hbpbConstantKey)
  ∧ is_Some (kvs !! hbBidderConstantKey)
  ∧ is_Some (kvs !! hbCacheIdConstantKey)
  ∧ is_Some (kvs !! hbCreativeLoadMethodConstantKey).
Proof.
  unfold pbs_kvs.
  destruct (bidder_keys MaxKeyLength bid) as [[[[k1 k2] k3] k4]|]; [|done].
  simpl. intros [= <-].
  repeat case_decide; split_and!;
    rewrite ?lookup_insert_is_Some; set_solver.
Qed.

Lemma pbs_kvs_untargeted MaxKeyLength cpm i b b' :
  untargeted b' = untargeted b →
  pbs_kvs MaxKeyLength cpm i b' = pbs_kvs MaxKeyLength cpm i b.
Proof. destruct b, b'. intros [=]. by simplify_eq. Qed.

Lemma set_targeting_untargeted b b' kvs :
  untargeted b' = untargeted b →
  PBSBid.set_AdServerTargeting b' kvs = PBSBid.set_AdServerTargeting b kvs.
Proof. destruct b, b'. intros [=]. by simplify_eq. Qed.

Lemma untargeted_set_targeting b kvs :
  untargeted (PBSBid.set_AdServerTargeting b kvs) = untargeted b.
Proof. by destruct b. Qed.
End targeting_keys.

Section untruncated_keys.
Lemma hbSize_entry bid :
  (hbSize bid ≠ "" ∧ size_entry bid = Some (hbSize bid))
  ∨ (hbSize bid = "" ∧ size_entry bid = None).
Proof.
  unfold hbSize, size_entry.
  destruct (N.eqb_spec (PBSBid.Width bid) 0) as [Hw|Hw];
    destruct (N.eqb_spec (PBSBid.Height bid) 0) as [Hh|Hh]; simpl;
    try (right; split; [done|]; rewrite decide_False; [done|tauto]).
  left. rewrite decide_True by done. split; [|done].
  by destruct (FormatUint (PBSBid.Width bid)).
Qed.

Ltac key_ne :=
  unfold hbpbConstantKey, hbBidderConstantKey, hbCacheIdConstantKey,
    hbSizeConstantKey, hbCreativeLoadMethodConstantKey;
  cbn; discriminate.

Ltac key_lookup :=
  repeat (rewrite lookup_insert_ne by key_ne);
  first [rewrite lookup_insert_eq | rewrite lookup_empty]; try done.

(** Without truncation the map of a bid has its bidder-suffixed entries,
    and for the top bid the unsuffixed ones and the load type. *)
Lemma pbs_kvs_untruncated cpm i bid :
  ∃ kvs,
    pbs_kvs 0 cpm i bid = Some kvs
    ∧ kvs !! (hbpbConstantKey +:+ "_" +:+ PBSBid.BidderCode bid) = Some cpm
    ∧ kvs !! (hbBidderConstantKey +:+ "_" +:+ PBSBid.BidderCode bid)
      = Some (PBSBid.BidderCode bid)
    ∧ kvs !! (hbCacheIdConstantKey +:+ "_" +:+ PBSBid.BidderCode bid)
      = Some (PBSBid.CacheID bid)
    ∧ kvs !! (hbSizeConstantKey +:+ "_" +:+ PBSBid.BidderCode bid)
      = size_entry bid
    ∧ (i = 0 →
       kvs !! hbpbConstantKey = Some cpm
       ∧ kvs !! hbBidderConstantKey = Some (PBSBid.BidderCode bid)
       ∧ kvs !! hbCacheIdConstantKey = Some (PBSBid.CacheID bid)
       ∧ kvs !! hbSizeConstantKey = size_entry bid
       ∧ kvs !! hbCreativeLoadMethodConstantKey
         = Some (if decide (PBSBid.BidderCode bid = "audienceNetwork")
                 then hbCreativeLoadMethodDemandSDK
                 else hbCreativeLoadMethodHTML)).
Proof.
  unfold pbs_kvs, bidder_keys.
  rewrite (decide_False (P := (0 ≠ 0)%Z)) by (intros H; by apply H). simpl.
  eexists. split; [done|].
  destruct (hbSize_entry bid) as [[Hs ->]|[Hs ->]].
  - rewrite !(decide_True (P := hbSize bid ≠ "")) by done.
    destruct (decide (i = 0)) as [->|Hi].
    + split_and!; [..|intros _; split_and!];
        case_decide; by key_lookup.
    + split_and!; [..|done]; by key_lookup.
  - rewrite !(decide_False (P := hbSize bid ≠ "")) by (intros H; by apply H).
    destruct (decide (i = 0)) as [->|Hi].
    + split_and!; [..|intros _; split_and!];
        case_decide; by key_lookup.
    + split_and!; [..|done]; by key_lookup.
Qed.

Lemma substring_full s : String.substring 0 (String.length s) s = s.
Proof. induction s as [|c s IH]; [done|]. simpl. by rewrite IH. Qed.

Lemma truncate_key_fits key MaxKeyLength :
  (Z.of_nat (String.length key) ≤ MaxKeyLength)%Z →
  truncate_key key MaxKeyLength = Some key.
Proof.
  intros Hfit. unfold truncate_key, slice_prefix, min.
  destruct (decide (_ < _)%Z).
  - rewrite decide_True by lia. by rewrite Nat2Z.id, substring_full.
  - assert (MaxKeyLength = Z.of_nat (String.length key)) as -> by lia.
    rewrite decide_True by lia. by rewrite Nat2Z.id, substring_full.
Qed.

Lemma length_append s1 s2 :
  String.length (s1 +:+ s2) = String.length s1 + String.length s2.
Proof.
  induction s1 as [|c s1 IH]; [done|].
  change (String c s1 +:+ s2) with (String c (s1 +:+ s2)).
  simpl. by rewrite IH.
Qed.

(** When the names fit, the map is the one built without truncation. *)
Lemma pbs_kvs_fits MaxKeyLength cpm i bid :
  keys_fit MaxKeyLength bid →
  pbs_kvs MaxKeyLength cpm i bid = pbs_kvs 0 cpm i bid.
Proof.
  intros [->|Hfit]; [done|]. unfold keys_fit in Hfit.
  unfold pbs_kvs. f_equal. unfold bidder_keys.
  rewrite (decide_False (P := (0 ≠ 0)%Z)) by (intros H; by apply H).
  destruct (decide (MaxKeyLength ≠ 0%Z)); [|done].
  unfold hbpbConstantKey, hbBidderConstantKey, hbCacheIdConstantKey,
    hbSizeConstantKey in *.
  rewrite !length_append in Hfit. cbn [String.length] in Hfit.
  rewrite !truncate_key_fits
    by (rewrite !length_append; cbn [String.length]; lia).
  done.
Qed.
End untruncated_keys.

(** ** Key names cut by the key length *)

Section cut_keys.
Lemma substring_ge n s :
  String.length s ≤ n → String.substring 0 n s = s.
Proof.
  revert n. induction s as [|c s IH]; intros [|n] Hn; simpl in *;
    try done; try lia.
  rewrite IH; [done|lia].
Qed.

Lemma substring_substring a n s :
  a ≤ n →
  String.substring 0 a (String.substring 0 n s) = String.substring 0 a s.
Proof.
  revert n s. induction a as [|a IH]; intros [|n] [|c s] Ha; simpl;
    try done; try lia.
  rewrite IH; [done|lia].
Qed.

Lemma truncate_key_cut key MaxKeyLength :
  (0 < MaxKeyLength)%Z →
  truncate_key key MaxKeyLength = Some (cut_key MaxKeyLength key).
Proof.
  intros Hm. unfold truncate_key, slice_prefix, min, cut_key.
  rewrite (decide_False (P := MaxKeyLength = 0%Z)) by lia.
  destruct (decide (_ < _)%Z).
  - rewrite decide_True by lia. f_equal.
    rewrite Nat2Z.id, substring_full. symmetry. apply substring_ge. lia.
  - by rewrite decide_True by lia.
Qed.

Lemma bidder_keys_cut MaxKeyLength bid :
  (0 ≤ MaxKeyLength)%Z →
  bidder_keys MaxKeyLength bid
  = Some (cut_key MaxKeyLength
            (hbpbConstantKey +:+ "_" +:+ PBSBid.BidderCode bid),
          cut_key MaxKeyLength
            (hbBidderConstantKey +:+ "_" +:+ PBSBid.BidderCode bid),
          cut_key MaxKeyLength
            (hbCacheIdConstantKey +:+ "_" +:+ PBSBid.BidderCode bid),
          cut_key MaxKeyLength
            (hbSizeConstantKey +:+ "_" +:+ PBSBid.BidderCode bid)).
Proof.
  intros Hm. unfold bidder_keys.
  destruct (decide (MaxKeyLength ≠ 0%Z)) as [Hne|Heq].
  - rewrite !truncate_key_cut by lia. done.
  - unfold cut_key. by rewrite !decide_True by lia.
Qed.

Lemma cut_key_length MaxKeyLength key :
  (0 < MaxKeyLength)%Z →
  (Z.of_nat (String.length (cut_key MaxKeyLength key)) ≤ MaxKeyLength)%Z.
Proof.
  intros Hm. unfold cut_key. rewrite decide_False by lia.
  rewrite substring_length. lia.
Qed.

(** A cut name differs from a constant from which the name differs in
    its first [a] bytes, the constant having that many. *)
Lemma cut_key_ne (a : nat) MaxKeyLength name c :
  (0 ≤ MaxKeyLength)%Z →
  a ≤ String.length c →
  String.substring 0 a name ≠ String.substring 0 a c →
  c ≠ cut_key MaxKeyLength name.
Proof.
  intros Hm Ha Hne ->. unfold cut_key in *.
  destruct (decide (MaxKeyLength = 0%Z)); [done|].
  rewrite substring_length in Ha.
  destruct (decide (a ≤ Z.to_nat MaxKeyLength)) as [Hle|Hgt]; [|lia].
  by rewrite substring_substring in Hne.
Qed.

(** Two cut names differ when at least four bytes are left of names that
    differ in their first four. *)
Lemma cut_key_ne_cut MaxKeyLength name1 name2 :
  MaxKeyLength = 0%Z ∨ (4 ≤ MaxKeyLength)%Z →
  String.substring 0 4 name1 ≠ String.substring 0 4 name2 →
  cut_key MaxKeyLength name1 ≠ cut_key MaxKeyLength name2.
Proof.
  intros Hm Hne Heq. unfold cut_key in Heq.
  destruct (decide (MaxKeyLength = 0%Z)); [by subst|].
  apply (f_equal (String.substring 0 4)) in Heq.
  rewrite !substring_substring in Heq by lia. done.
Qed.

(** With one to three bytes left, the four bidder names of a bid are cut
    to the same key. *)
Lemma cut_key_merged MaxKeyLength code :
  (0 < MaxKeyLength < 4)%Z →
  cut_key MaxKeyLength (hbBidderConstantKey +:+ "_" +:+ code)
  = cut_key MaxKeyLength (hbpbConstantKey +:+ "_" +:+ code)
  ∧ cut_key MaxKeyLength (hbCacheIdConstantKey +:+ "_" +:+ code)
    = cut_key MaxKeyLength (hbpbConstantKey +:+ "_" +:+ code)
  ∧ cut_key MaxKeyLength (hbSizeConstantKey +:+ "_" +:+ code)
    = cut_key MaxKeyLength (hbpbConstantKey +:+ "_" +:+ code).
Proof.
  intros Hm.
  assert (MaxKeyLength = 1 ∨ MaxKeyLength = 2 ∨ MaxKeyLength = 3)%Z
    as [->|[->| ->]] by lia; done.
Qed.

Lemma lookup_insert_same (m : gmap string string) c k v :
  m !! k = Some v → <[c := v]> m !! k = Some v.
Proof.
  intros Hk. destruct (decide (c = k)) as [->|Hne].
  - by rewrite lookup_insert_eq.
  - by rewrite lookup_insert_ne.
Qed.
End cut_keys.

Section cut_maps.
Context (MaxKeyLength : Z) (cpm : string) (bid : PBSBid).
Context (Hlength : (0 ≤ MaxKeyLength)%Z).

Ltac const_ne :=
  unfold hbpbConstantKey, hbBidderConstantKey, hbCacheIdConstantKey,
    hbSizeConstantKey, hbCreativeLoadMethodConstantKey;
  first [discriminate | vm_compute; discriminate | simpl; lia].

Ltac key_facts :=
  pose proof (cut_key_ne 4 MaxKeyLength
                (hbpbConstantKey +:+ "_" +:+ PBSBid.BidderCode bid)
                hbBidderConstantKey Hlength ltac:(const_ne) ltac:(const_ne));
  pose proof (cut_key_ne 4 MaxKeyLength
                (hbpbConstantKey +:+ "_" +:+ PBSBid.BidderCode bid)
                hbCacheIdConstantKey Hlength ltac:(const_ne) ltac:(const_ne));
  pose proof (cut_key_ne 4 MaxKeyLength
                (hbpbConstantKey +:+ "_" +:+ PBSBid.BidderCode bid)
                hbSizeConstantKey Hlength ltac:(const_ne) ltac:(const_ne));
  pose proof (cut_key_ne 4 MaxKeyLength
                (hbpbConstantKey +:+ "_" +:+ PBSBid.BidderCode bid)
                hbCreativeLoadMethodConstantKey Hlength ltac:(const_ne)
                ltac:(const_ne));
  pose proof (cut_key_ne 4 MaxKeyLength
                (hbBidderConstantKey +:+ "_" +:+ PBSBid.BidderCode bid)
                hbpbConstantKey Hlength ltac:(const_ne) ltac:(const_ne));
  pose proof (cut_key_ne 4 MaxKeyLength
                (hbBidderConstantKey +:+ "_" +:+ PBSBid.BidderCode bid)
                hbCacheIdConstantKey Hlength ltac:(const_ne) ltac:(const_ne));
  pose proof (cut_key_ne 4 MaxKeyLength
                (hbBidderConstantKey +:+ "_" +:+ PBSBid.BidderCode bid)
                hbSizeConstantKey Hlength ltac:(const_ne) ltac:(const_ne));
  pose proof (cut_key_ne 4 MaxKeyLength
                (hbBidderConstantKey +:+ "_" +:+ PBSBid.BidderCode bid)
                hbCreativeLoadMethodConstantKey Hlength ltac:(const_ne)
                ltac:(const_ne));
  pose proof (cut_key_ne 4 MaxKeyLength
                (hbCacheIdConstantKey +:+ "_" +:+ PBSBid.BidderCode bid)
                hbpbConstantKey Hlength ltac:(const_ne) ltac:(const_ne));
  pose proof (cut_key_ne 4 MaxKeyLength
                (hbCacheIdConstantKey +:+ "_" +:+ PBSBid.BidderCode bid)
                hbBidderConstantKey Hlength ltac:(const_ne) ltac:(const_ne));
  pose proof (cut_key_ne 4 MaxKeyLength
                (hbCacheIdConstantKey +:+ "_" +:+ PBSBid.BidderCode bid)
                hbSizeConstantKey Hlength ltac:(const_ne) ltac:(const_ne));
  pose proof (cut_key_ne 5 MaxKeyLength
                (hbCacheIdConstantKey +:+ "_" +:+ PBSBid.BidderCode bid)
                hbCreativeLoadMethodConstantKey Hlength ltac:(const_ne)
                ltac:(const_ne));
  pose proof (cut_key_ne 4 MaxKeyLength
                (hbSizeConstantKey +:+ "_" +:+ PBSBid.BidderCode bid)
                hbpbConstantKey Hlength ltac:(const_ne) ltac:(const_ne));
  pose proof (cut_key_ne 4 MaxKeyLength
                (hbSizeConstantKey +:+ "_" +:+ PBSBid.BidderCode bid)
                hbBidderConstantKey Hlength ltac:(const_ne) ltac:(const_ne));
  pose proof (cut_key_ne 4 MaxKeyLength
                (hbSizeConstantKey +:+ "_" +:+ PBSBid.BidderCode bid)
                hbCacheIdConstantKey Hlength ltac:(const_ne) ltac:(const_ne));
  pose proof (cut_key_ne 4 MaxKeyLength
                (hbSizeConstantKey +:+ "_" +:+ PBSBid.BidderCode bid)
                hbCreativeLoadMethodConstantKey Hlength ltac:(const_ne)
                ltac:(const_ne)).

Ltac walk :=
  repeat first
    [ rewrite lookup_insert_eq
    | rewrite lookup_insert_ne
        by first [assumption | apply not_eq_sym; assumption | const_ne]
    | apply lookup_insert_same
    | rewrite lookup_empty ];
  try done.

(** The unsuffixed entries of the top bid's map, whatever the key length:
    the bidder names, cut or not, never take their place. *)
Lemma pbs_kvs_top_values kvs :
  pbs_kvs MaxKeyLength cpm 0 bid = Some kvs →
  kvs !! hbpbConstantKey = Some cpm
  ∧ kvs !! hbBidderConstantKey = Some (PBSBid.BidderCode bid)
  ∧ kvs !! hbCacheIdConstantKey = Some (PBSBid.CacheID bid)
  ∧ kvs !! hbSizeConstantKey = size_entry bid
  ∧ kvs !! hbCreativeLoadMethodConstantKey
    = Some (if decide (PBSBid.BidderCode bid = "audienceNetwork")
            then hbCreativeLoadMethodDemandSDK
            else hbCreativeLoadMethodHTML).
Proof.
  unfold pbs_kvs. rewrite bidder_keys_cut by done.
  cbn [mbind option_bind]. intros [= <-]. key_facts.
  destruct (hbSize_entry bid) as [[Hs ->]|[Hs ->]].
  - destruct (decide (hbSize bid ≠ "")); [|done].
    destruct (decide (PBSBid.BidderCode bid = "audienceNetwork"));
      split_and!; walk.
  - destruct (decide (hbSize bid ≠ "")); [done|].
    destruct (decide (PBSBid.BidderCode bid = "audienceNetwork"));
      split_and!; walk.
Qed.

(** The bidder entries, under the names as the key length leaves them,
    when it leaves them apart. *)
Lemma pbs_kvs_cut_values i kvs :
  MaxKeyLength = 0%Z ∨ (4 ≤ MaxKeyLength)%Z →
  pbs_kvs MaxKeyLength cpm i bid = Some kvs →
  kvs !! cut_key MaxKeyLength
           (hbpbConstantKey +:+ "_" +:+ PBSBid.BidderCode bid)
  = Some cpm
  ∧ kvs !! cut_key MaxKeyLength
             (hbBidderConstantKey +:+ "_" +:+ PBSBid.BidderCode bid)
    = Some (PBSBid.BidderCode bid)
  ∧ kvs !! cut_key MaxKeyLength
             (hbCacheIdConstantKey +:+ "_" +:+ PBSBid.BidderCode bid)
    = Some (PBSBid.CacheID bid)
  ∧ kvs !! cut_key MaxKeyLength
             (hbSizeConstantKey +:+ "_" +:+ PBSBid.BidderCode bid)
    = size_entry bid.
Proof.
  intros Hapart. unfold pbs_kvs. rewrite bidder_keys_cut by done.
  cbn [mbind option_bind]. intros [= <-]. key_facts.
  pose proof (cut_key_ne_cut MaxKeyLength
                (hbpbConstantKey +:+ "_" +:+ PBSBid.BidderCode bid)
                (hbBidderConstantKey +:+ "_" +:+ PBSBid.BidderCode bid)
                Hapart ltac:(const_ne)).
  pose proof (cut_key_ne_cut MaxKeyLength
                (hbpbConstantKey +:+ "_" +:+ PBSBid.BidderCode bid)
                (hbCacheIdConstantKey +:+ "_" +:+ PBSBid.BidderCode bid)
                Hapart ltac:(const_ne)).
  pose proof (cut_key_ne_cut MaxKeyLength
                (hbpbConstantKey +:+ "_" +:+ PBSBid.BidderCode bid)
                (hbSizeConstantKey +:+ "_" +:+ PBSBid.BidderCode bid)
                Hapart ltac:(const_ne)).
  pose proof (cut_key_ne_cut MaxKeyLength
                (hbBidderConstantKey +:+ "_" +:+ PBSBid.BidderCode bid)
                (hbCacheIdConstantKey +:+ "_" +:+ PBSBid.BidderCode bid)
                Hapart ltac:(const_ne)).
  pose proof (cut_key_ne_cut MaxKeyLength
                (hbBidderConstantKey +:+ "_" +:+ PBSBid.BidderCode bid)
                (hbSizeConstantKey +:+ "_" +:+ PBSBid.BidderCode bid)
                Hapart ltac:(const_ne)).
  pose proof (cut_key_ne_cut MaxKeyLength
                (hbCacheIdConstantKey +:+ "_" +:+ PBSBid.BidderCode bid)
                (hbSizeConstantKey +:+ "_" +:+ PBSBid.BidderCode bid)
                Hapart ltac:(const_ne)).
  destruct (hbSize_entry bid) as [[Hs ->]|[Hs ->]].
  - destruct (decide (hbSize bid ≠ "")); [|done].
    destruct (decide (i = 0));
      [destruct (decide (PBSBid.BidderCode bid = "audienceNetwork"))|];
      split_and!; walk.
  - destruct (decide (hbSize bid ≠ "")); [done|].
    destruct (decide (i = 0));
      [destruct (decide (PBSBid.BidderCode bid = "audienceNetwork"))|];
      split_and!; walk.
Qed.

(** With one to three bytes left the bidder entries share one key, which
    holds what was written last: the size when there is one, else the
    cache id. *)
Lemma pbs_kvs_merged_value i kvs :
  (0 < MaxKeyLength < 4)%Z →
  pbs_kvs MaxKeyLength cpm i bid = Some kvs →
  kvs !! cut_key MaxKeyLength
           (hbpbConstantKey +:+ "_" +:+ PBSBid.BidderCode bid)
  = Some (default (PBSBid.CacheID bid) (size_entry bid)).
Proof.
  intros Hshort. unfold pbs_kvs. rewrite bidder_keys_cut by done.
  cbn [mbind option_bind]. intros [= <-]. key_facts.
  assert (hbpbConstantKey
          ≠ cut_key MaxKeyLength
              (hbpbConstantKey +:+ "_" +:+ PBSBid.BidderCode bid)) as Hpb.
  { intros Heq.
    pose proof (cut_key_length MaxKeyLength
                  (hbpbConstantKey +:+ "_" +:+ PBSBid.BidderCode bid)
                  ltac:(lia)) as Hlen.
    rewrite <- Heq in Hlen. unfold hbpbConstantKey in Hlen.
    simpl in Hlen. lia. }
  destruct (cut_key_merged MaxKeyLength (PBSBid.BidderCode bid) Hshort)
    as (-> & -> & ->).
  destruct (hbSize_entry bid) as [[Hs ->]|[Hs ->]].
  - destruct (decide (hbSize bid ≠ "")); [|done].
    destruct (decide (i = 0));
      [destruct (decide (PBSBid.BidderCode bid = "audienceNetwork"))|];
      walk.
  - destruct (decide (hbSize bid ≠ "")); [done|].
    destruct (decide (i = 0));
      [destruct (decide (PBSBid.BidderCode bid = "audienceNetwork"))|];
      walk.
Qed.
End cut_maps.

(** ** Grouping and the loops of [sortBidsAddKeywordsMobile] *)

Section grouping.
Lemma filter_ext_elem {A} (P1 P2 : A → Prop)
    `{!∀ x, Decision (P1 x), !∀ x, Decision (P2 x)} (l : list A) :
  (∀ x, x ∈ l → P1 x ↔ P2 x) → filter P1 l = filter P2 l.
Proof.
  induction l as [|x l IH]; intros Hext; [done|].
  rewrite !filter_cons.
  rewrite IH by (intros y Hy; apply Hext; by right).
  destruct (decide (P1 x)) as [H1|H1], (decide (P2 x)) as [H2|H2];
    try done; exfalso; apply (Hext x) in H1 || apply (Hext x) in H2;
    by (done || left).
Qed.

Lemma positions_of_snoc bids b c :
  positions_of (bids ++ [b]) c
  = positions_of bids c
    ++ (if decide (PBSBid.AdUnitCode b = c) then [length bids] else []).
Proof.
  unfold positions_of. rewrite length_app. simpl.
  rewrite Nat.add_1_r, seq_S, filter_app. simpl. f_equal.
  - apply filter_ext_elem. intros j Hj. apply elem_of_seq in Hj.
    by rewrite lookup_app_l by lia.
  - rewrite filter_cons, filter_nil.
    rewrite lookup_app_r, Nat.sub_diag by lia. simpl.
    destruct (decide (Some _ = _)) as [[= ?]|Hne],
      (decide (PBSBid.AdUnitCode b = c)); try done.
    destruct Hne. by f_equal.
Qed.

(** The groups are the bids of each code, in the order of the list. *)
Lemma group_by_code_positions bids c :
  default [] (group_by_code bids !! c) = positions_of bids c.
Proof.
  induction bids as [|b bids IH] using rev_ind; [done|].
  unfold group_by_code in *.
  rewrite imap_app, foldl_app. simpl. rewrite Nat.add_0_r.
  rewrite positions_of_snoc. unfold record_bid at 1. simpl.
  destruct (decide (PBSBid.AdUnitCode b = c)) as [->|Hne].
  - rewrite lookup_insert_eq. simpl. by rewrite IH.
  - rewrite lookup_insert_ne by done. by rewrite IH, (right_id_L [] (++)).
Qed.

Lemma elem_of_positions_of bids c j :
  j ∈ positions_of bids c
  ↔ ∃ b, bids !! j = Some b ∧ PBSBid.AdUnitCode b = c.
Proof.
  unfold positions_of. rewrite list_elem_of_filter, elem_of_seq. split.
  - intros [Hc _]. destruct (bids !! j) as [b|]; [|done].
    exists b. split; [done|]. by injection Hc.
  - intros (b & Hb & <-). rewrite Hb. split; [done|].
    apply lookup_lt_Some in Hb. lia.
Qed.

Lemma NoDup_positions_of bids c : NoDup (positions_of bids c).
Proof. apply NoDup_filter, NoDup_seq. Qed.
End grouping.

Section keyword_loops.
Context (E : Env) (MaxKeyLength : Z) (pg : string) (bids : list PBSBid).

Lemma roundedCpm_untargeted b b' :
  untargeted b' = untargeted b → roundedCpm E pg b' = roundedCpm E pg b.
Proof. destruct b, b'. intros [=]. by simplify_eq. Qed.

Lemma touched_same cur j b0 b' :
  touched E MaxKeyLength pg bids cur →
  bids !! j = Some b0 → cur !! j = Some b' → untargeted b' = untargeted b0.
Proof.
  intros [_ Ht] Hb Hc. destruct (Ht j b' Hc) as (bid & Hbid & Hcase).
  simplify_eq. destruct Hcase as [->|(i & kvs & _ & ->)]; [done|].
  apply untargeted_set_targeting.
Qed.

(** Whatever the group, a turn of the inner loop leaves each bid as it
    was or gives it a map built by [pbs_kvs]. *)
Lemma add_keywords_touched bar i cur cur' :
  touched E MaxKeyLength pg bids cur →
  add_keywords E MaxKeyLength pg i bar cur = Some cur' →
  touched E MaxKeyLength pg bids cur'.
Proof.
  revert i cur. induction bar as [|p bar IH]; intros i cur Ht Hrun.
  - by simplify_eq/=.
  - cbn [add_keywords] in Hrun.
    destruct (cur !! p) as [b'|] eqn:Hp; [|done]. cbn in Hrun.
    destruct (pbs_kvs _ _ i b') as [kvs|] eqn:Hkvs; [|done]. cbn in Hrun.
    apply IH in Hrun; [done|]. clear IH Hrun.
    destruct Ht as [Hlen Ht]. split; [by rewrite length_insert|].
    intros j bid' Hj. destruct (decide (p = j)) as [->|Hne].
    + rewrite list_lookup_insert_eq in Hj by (by eapply lookup_lt_Some).
      simplify_eq.
      destruct (Ht j b' Hp) as (bid & Hbid & Hcase).
      exists bid. split; [done|]. right. exists i, kvs.
      assert (untargeted b' = untargeted bid) as Hsame.
      { destruct Hcase as [->|(? & ? & _ & ->)]; [done|].
        apply untargeted_set_targeting. }
      split; [|by apply set_targeting_untargeted].
      rewrite <- (pbs_kvs_untargeted _ _ _ _ _ Hsame).
      by rewrite <- (roundedCpm_untargeted _ _ Hsame).
    + rewrite list_lookup_insert_ne in Hj by done. by apply Ht.
Qed.

(** On a group of distinct valid positions the inner loop does not fail
    (the key length not being negative), gives the bid at each rank its
    map, and leaves the bids outside the group alone. *)
Lemma add_keywords_keyed bar i cur :
  (0 ≤ MaxKeyLength)%Z →
  touched E MaxKeyLength pg bids cur →
  NoDup bar → Forall (λ j, j < length bids) bar →
  ∃ cur',
    add_keywords E MaxKeyLength pg i bar cur = Some cur'
    ∧ (∀ k j, bar !! k = Some j →
              keyed E MaxKeyLength pg bids cur' (i + k) j)
    ∧ (∀ j, j ∉ bar → cur' !! j = cur !! j).
Proof.
  intros Hm. revert i cur.
  induction bar as [|p bar IH]; intros i cur Ht Hnd Hvalid.
  - exists cur. by split_and!.
  - apply NoDup_cons in Hnd as [Hp Hnd].
    apply Forall_cons in Hvalid as [Hplt Hvalid].
    destruct (lookup_lt_is_Some_2 cur p) as [b' Hb'];
      [by rewrite (proj1 Ht)|].
    destruct (lookup_lt_is_Some_2 bids p Hplt) as [b0 Hb0].
    pose proof (touched_same _ _ _ _ Ht Hb0 Hb') as Hsame.
    destruct (pbs_kvs_Some MaxKeyLength (roundedCpm E pg b') i b' Hm)
      as [kvs Hkvs].
    cbn [add_keywords]. rewrite Hb'. cbn.
    fold (roundedCpm E pg b'). rewrite Hkvs. cbn.
    set (cur1 := <[p:=PBSBid.set_AdServerTargeting b' kvs]> cur).
    assert (touched E MaxKeyLength pg bids cur1) as Ht1.
    { apply (add_keywords_touched [p] i cur); [done|].
      cbn. rewrite Hb'. cbn. fold (roundedCpm E pg b'). by rewrite Hkvs. }
    destruct (IH (S i) cur1 Ht1 Hnd Hvalid) as (cur' & Hrun & Hkeyed & Hrest).
    exists cur'. split; [done|]. split.
    + intros [|k] j Hj; cbn in Hj.
      * injection Hj as <-. rewrite Nat.add_0_r. exists b0, kvs. split; [done|].
        rewrite <- (pbs_kvs_untargeted _ _ _ _ _ Hsame).
        rewrite <- (roundedCpm_untargeted _ _ Hsame). split; [done|].
        rewrite Hrest by done. unfold cur1.
        rewrite list_lookup_insert_eq by (by eapply lookup_lt_Some).
        by rewrite (set_targeting_untargeted _ _ _ Hsame).
      * rewrite Nat.add_succ_r. by apply Hkeyed.
    + intros j Hj. apply not_elem_of_cons in Hj as [Hjp Hj].
      rewrite Hrest by done. unfold cur1.
      by rewrite list_lookup_insert_ne.
Qed.
End keyword_loops.

Section unit_loop.
Context (E : Env) (MaxKeyLength : Z) (pg : string) (bids : list PBSBid).

Lemma unit_loop_touched units st st' :
  touched E MaxKeyLength pg bids st.2 →
  unit_loop E MaxKeyLength pg units st = Some st' →
  touched E MaxKeyLength pg bids st'.2.
Proof.
  revert st. induction units as [|unit units IH]; intros st Ht Hrun.
  - by simplify_eq/=.
  - cbn [unit_loop] in Hrun.
    destruct (unit_step E MaxKeyLength pg st unit) as [st1|] eqn:Hstep;
      [|done].
    cbn in Hrun. apply IH in Hrun; [done|]. clear IH Hrun.
    destruct st as [code_bids cur]. unfold unit_step in Hstep.
    case_decide; [by simplify_eq|].
    destruct (add_keywords _ _ _ _ _ _) as [cur'|] eqn:Hadd; [|done].
    simplify_eq/=. by eapply add_keywords_touched.
Qed.

Lemma StronglySorted_impl_elem {A} (R R' : relation A) (l : list A) :
  StronglySorted R l →
  (∀ x y, x ∈ l → y ∈ l → R x y → R' x y) →
  StronglySorted R' l.
Proof.
  induction 1 as [|x l Hl IH Hx]; intros Himpl; constructor.
  - apply IH. intros y z Hy Hz. apply Himpl; by right.
  - apply Forall_forall. intros y Hy. rewrite Forall_forall in Hx.
    apply Himpl; [by left|by right|by apply Hx].
Qed.

Lemma untargeted_Price b b' :
  untargeted b' = untargeted b → PBSBid.Price b' = PBSBid.Price b.
Proof. destruct b, b'. by intros [=]. Qed.

Lemma untargeted_AdUnitCode b b' :
  untargeted b' = untargeted b →
  PBSBid.AdUnitCode b' = PBSBid.AdUnitCode b.
Proof. destruct b, b'. by intros [=]. Qed.

(** On valid positions, [Less] by price is a strict weak order. *)
Lemma Less_strict_weak cur bar :
  Forall (λ j, j < length cur) bar →
  strict_weak_on (PBSBidSlice_Less cur) bar.
Proof.
  intros Hvalid. rewrite Forall_forall in Hvalid.
  split.
  - intros x y Hx Hy. unfold PBSBidSlice_Less.
    destruct (cur !! x) as [bx|], (cur !! y) as [by'|]; try done.
    rewrite bool_decide_eq_true, bool_decide_eq_false.
    intros Hlt. by apply Qcle_not_lt, Qclt_le_weak.
  - intros x y z Hx Hy Hz. unfold PBSBidSlice_Less.
    destruct (lookup_lt_is_Some_2 cur x (Hvalid x Hx)) as [bx ->].
    destruct (lookup_lt_is_Some_2 cur y (Hvalid y Hy)) as [by' ->].
    destruct (lookup_lt_is_Some_2 cur z (Hvalid z Hz)) as [bz ->].
    rewrite !bool_decide_eq_false. intros Hxy Hyz.
    apply Qcle_not_lt.
    eapply Qcle_trans; by apply Qcnot_lt_le.
Qed.

Lemma Less_price_ge cur x y :
  touched E MaxKeyLength pg bids cur →
  x < length bids → y < length bids →
  PBSBidSlice_Less cur y x = false → price_ge bids x y.
Proof.
  intros Ht Hx Hy. unfold PBSBidSlice_Less.
  destruct (lookup_lt_is_Some_2 bids x Hx) as [bx Hbx].
  destruct (lookup_lt_is_Some_2 bids y Hy) as [by' Hby].
  destruct (lookup_lt_is_Some_2 cur x) as [cx Hcx];
    [by rewrite (proj1 Ht)|].
  destruct (lookup_lt_is_Some_2 cur y) as [cy Hcy];
    [by rewrite (proj1 Ht)|].
  rewrite Hcx, Hcy, bool_decide_eq_false. intros Hlt.
  exists bx, by'. split_and!; [done..|].
  rewrite <- (untargeted_Price bx cx), <- (untargeted_Price by' cy)
    by (by eapply touched_same).
  by apply Qcnot_lt_le.
Qed.

Context (Hlength : (0 ≤ MaxKeyLength)%Z) (Hsort : sorts (sort_Sort E)).

Lemma positions_valid c bar :
  bar ≡ₚ positions_of bids c → Forall (λ j, j < length bids) bar.
Proof.
  intros Hperm. apply Forall_forall. intros j Hj. rewrite Hperm in Hj.
  apply elem_of_positions_of in Hj as (b & Hb & _).
  by eapply lookup_lt_Some.
Qed.

(** One turn of the loop over the ad units keeps the invariant, and
    establishes it for the code of the unit. *)
Lemma unit_step_inv done st unit :
  targeting_inv E MaxKeyLength pg bids done st →
  ∃ st',
    unit_step E MaxKeyLength pg st unit = Some st'
    ∧ targeting_inv E MaxKeyLength pg bids (AdUnit.Code unit :: done) st'.
Proof.
  destruct st as [code_bids cur].
  intros [Ht Hgroups Huntouched Hsorted Hkeyed].
  simpl in *. unfold unit_step.
  set (c := AdUnit.Code unit).
  destruct (decide (length (default [] (code_bids !! c)) = 0)) as [Hnil|_].
  { exists (code_bids, cur). split; [done|].
    apply nil_length_inv in Hnil.
    split; simpl; [done|done|..].
    - intros c' j [_ Hc']%not_elem_of_cons. by apply Huntouched.
    - intros c' [->|Hc']%elem_of_cons; [|by apply Hsorted].
      rewrite Hnil. constructor.
    - intros c' i j [->|Hc']%elem_of_cons; [|by apply Hkeyed].
      by rewrite Hnil. }
  set (bar := sort_Sort E (PBSBidSlice_Less cur) (default [] (code_bids !! c))).
  assert (bar ≡ₚ positions_of bids c) as Hperm
    by (unfold bar; by rewrite (sorts_perm _ Hsort)).
  pose proof (positions_valid c bar Hperm) as Hvalid.
  assert (NoDup bar) as Hnd
    by (rewrite Hperm; apply NoDup_positions_of).
  destruct (add_keywords_keyed E MaxKeyLength pg bids bar 0 cur
              Hlength Ht Hnd Hvalid) as (cur' & Hrun & Hk & Hrest).
  rewrite Hrun. cbn. eexists. split; [done|].
  assert (touched E MaxKeyLength pg bids cur') as Ht'
    by (by eapply add_keywords_touched).
  split; simpl; [done|..].
  - intros c'. destruct (decide (c = c')) as [<-|Hne].
    + by rewrite lookup_insert_eq.
    + by rewrite lookup_insert_ne.
  - intros c' j [Hne Hc']%not_elem_of_cons Hj.
    rewrite Hrest; [by eapply Huntouched|].
    rewrite Hperm. intros Hin.
    apply elem_of_positions_of in Hin as (b & Hb & Hcode).
    apply elem_of_positions_of in Hj as (b' & Hb' & Hcode').
    by simplify_eq.
  - intros c' Hc'. destruct (decide (c = c')) as [<-|Hne].
    + rewrite lookup_insert_eq. simpl.
      apply (StronglySorted_impl_elem
               (λ x y, PBSBidSlice_Less cur y x = false)).
      * apply (sorts_sorted _ Hsort), Less_strict_weak.
        rewrite (proj1 Ht). apply (positions_valid c).
        by rewrite <- Hgroups.
      * intros x y Hx Hy. rewrite Forall_forall in Hvalid.
        apply (Less_price_ge cur); auto.
    + rewrite lookup_insert_ne by done. apply Hsorted.
      apply elem_of_cons in Hc' as [?|?]; [by subst|done].
  - intros c' i j Hc'. destruct (decide (c = c')) as [<-|Hne].
    + rewrite lookup_insert_eq. simpl. apply (Hk i j).
    + rewrite lookup_insert_ne by done. intros Hj.
      apply elem_of_cons in Hc' as [?|Hc']; [by subst|].
      destruct (Hkeyed c' i j Hc' Hj) as (bid & kvs & Hbid & Hkvs & Hcur).
      exists bid, kvs. split_and!; [done..|].
      rewrite Hrest; [done|]. rewrite Hperm. intros Hin.
      apply elem_of_positions_of in Hin as (b & Hb & Hcode).
      assert (j ∈ positions_of bids c') as Hin'.
      { rewrite <- Hgroups. apply list_elem_of_lookup. eauto. }
      apply elem_of_positions_of in Hin' as (b' & Hb' & Hcode').
      by simplify_eq.
Qed.

Lemma unit_loop_inv units done st :
  targeting_inv E MaxKeyLength pg bids done st →
  ∃ st',
    unit_loop E MaxKeyLength pg units st = Some st'
    ∧ targeting_inv E MaxKeyLength pg bids
        (rev (AdUnit.Code <$> units) ++ done) st'.
Proof.
  revert done st. induction units as [|unit units IH]; intros done st Hinv.
  - by exists st.
  - destruct (unit_step_inv done st unit Hinv) as (st1 & Hstep & Hinv1).
    destruct (IH _ _ Hinv1) as (st' & Hloop & Hinv').
    exists st'. cbn [unit_loop]. rewrite Hstep. cbn. split; [done|].
    by rewrite <- (assoc_L (++)).
Qed.
End unit_loop.

Section sortBidsAddKeywordsMobile.
Context (E : Env) (bids : list PBSBid) (pbs_req : PBSRequest) (pg : string).

Lemma touched_refl MaxKeyLength pg' :
  touched E MaxKeyLength pg' bids bids.
Proof. split; [done|]. intros j bid' Hj. exists bid'. auto. Qed.

(** The function returns, with every group of a listed unit sorted and
    keyed, when the sort keeps its contract and no slice bound is
    negative. *)
Lemma sortBidsAddKeywordsMobile_inv :
  (0 ≤ PBSRequest.MaxKeyLength pbs_req)%Z → sorts (sort_Sort E) →
  ∃ st',
    sortBidsAddKeywordsMobile_run E bids pbs_req pg = Some st'
    ∧ targeting_inv E (PBSRequest.MaxKeyLength pbs_req) (granularity pg)
        bids (rev (AdUnit.Code <$> PBSRequest.AdUnits pbs_req)) st'.
Proof.
  intros Hm Hsort. unfold sortBidsAddKeywordsMobile_run.
  fold (granularity pg).
  destruct (unit_loop_inv E (PBSRequest.MaxKeyLength pbs_req)
              (granularity pg) bids Hm Hsort (PBSRequest.AdUnits pbs_req)
              [] (group_by_code bids, bids)) as (st' & Hrun & Hinv).
  - split; simpl.
    + apply touched_refl.
    + intros c. by rewrite group_by_code_positions.
    + done.
    + intros c Hc. by apply elem_of_nil in Hc.
    + intros c i j Hc. by apply elem_of_nil in Hc.
  - exists st'. split; [done|]. by rewrite (right_id_L [] (++)) in Hinv.
Qed.

Lemma sortBidsAddKeywordsMobile_touched bids' :
  sortBidsAddKeywordsMobile E bids pbs_req pg = Some bids' →
  touched E (PBSRequest.MaxKeyLength pbs_req) (granularity pg) bids bids'.
Proof.
  unfold sortBidsAddKeywordsMobile, sortBidsAddKeywordsMobile_run.
  fold (granularity pg).
  destruct (unit_loop _ _ _ _ _) as [st'|] eqn:Hrun; [|done].
  intros [= <-].
  eapply unit_loop_touched; [|done]. apply touched_refl.
Qed.
End sortBidsAddKeywordsMobile.

(** ** Targeting keys: the properties of the specification *)

Section targeting.
Context (E : Env) (bids : list PBSBid) (pbs_req : PBSRequest) (pg : string).

Lemma elem_of_rev {A} (x : A) (l : list A) : x ∈ rev l ↔ x ∈ l.
Proof. by rewrite !list_elem_of_In, <- in_rev. Qed.

(** Every bid of a listed unit has the map built for its rank in its
    sorted group; the others are left alone. *)
Lemma sortBidsAddKeywordsMobile_ranked :
  (0 ≤ PBSRequest.MaxKeyLength pbs_req)%Z → sorts (sort_Sort E) →
  ∃ code_bids' bids',
    sortBidsAddKeywordsMobile_run E bids pbs_req pg
    = Some (code_bids', bids')
    ∧ (∀ j bid,
         bids !! j = Some bid →
         PBSBid.AdUnitCode bid
         ∉ AdUnit.Code <$> PBSRequest.AdUnits pbs_req →
         bids' !! j = Some bid)
    ∧ ∀ j bid,
        bids !! j = Some bid →
        PBSBid.AdUnitCode bid ∈ AdUnit.Code <$> PBSRequest.AdUnits pbs_req →
        ∃ i kvs,
          (head (default [] (code_bids' !! PBSBid.AdUnitCode bid)) = Some j
           ↔ i = 0)
          ∧ pbs_kvs (PBSRequest.MaxKeyLength pbs_req)
              (roundedCpm E (granularity pg) bid) i bid = Some kvs
          ∧ bids' !! j = Some (PBSBid.set_AdServerTargeting bid kvs).
Proof.
  intros Hm Hsort.
  destruct (sortBidsAddKeywordsMobile_inv E bids pbs_req pg)
    as ([code_bids' bids'] & Hrun & Hinv); [done..|].
  exists code_bids', bids'. split; [done|].
  destruct Hinv as [Ht Hgroups Huntouched _ Hkeyed]. simpl in *. split.
  { intros j bid Hj Hcode. rewrite <- Hj.
    apply (Huntouched (PBSBid.AdUnitCode bid)).
    - by rewrite elem_of_rev.
    - apply elem_of_positions_of. eauto. }
  intros j bid Hj Hcode.
  assert (j ∈ default [] (code_bids' !! PBSBid.AdUnitCode bid)) as Hin.
  { rewrite Hgroups. apply elem_of_positions_of. eauto. }
  apply list_elem_of_lookup in Hin as [i Hi].
  destruct (Hkeyed (PBSBid.AdUnitCode bid) i j) as (b & kvs & Hb & Hkvs & Hcur);
    [|done|].
  { by apply elem_of_rev. }
  simplify_eq. exists i, kvs. split_and!; [|done..].
  rewrite head_lookup. split.
  - intros Hhead. eapply NoDup_lookup; [|done..].
    rewrite Hgroups. apply NoDup_positions_of.
  - by intros ->.
Qed.

(** C2, amended. With a [sort.Sort] that keeps its contract (and no
    negative key length) the function returns, and every bid whose ad
    unit code is that of a unit of the request has, nothing else of it
    being changed, a targeting map in which, under the names
    [hb_pb_<bidderCode>], [hb_bidder_<bidderCode>],
    [hb_cache_id_<bidderCode>] and [hb_size_<bidderCode>] as the key
    length leaves them (whole when it is 0, else their first
    [MaxKeyLength] bytes), there are the bucketed price, the bidder code,
    the cache id and, exactly when both dimensions are non-zero,
    ["<w>x<h>"], provided the key length is 0 or at least 4; with a key
    length of 1 to 3 the four names are cut to one key, which holds what
    was written last: the size if there is one, else the cache id. The
    bid first in its sorted group has moreover, for every key length,
    [hb_pb], [hb_bidder], [hb_cache_id], [hb_size] (under the same
    condition) and [hb_creative_loadtype], which is ["demand_sdk"] for
    the bidder ["audienceNetwork"] and ["html"] otherwise. A bid whose ad
    unit code is that of no unit of the request is left as it was. *)
Theorem sortBidsAddKeywordsMobile_keywords :
  (0 ≤ PBSRequest.MaxKeyLength pbs_req)%Z → sorts (sort_Sort E) →
  ∃ code_bids' bids',
    sortBidsAddKeywordsMobile_run E bids pbs_req pg
    = Some (code_bids', bids')
    ∧ (∀ j bid,
         bids !! j = Some bid →
         PBSBid.AdUnitCode bid
         ∉ AdUnit.Code <$> PBSRequest.AdUnits pbs_req →
         bids' !! j = Some bid)
    ∧ ∀ j bid,
        bids !! j = Some bid →
        PBSBid.AdUnitCode bid ∈ AdUnit.Code <$> PBSRequest.AdUnits pbs_req →
        let cut := cut_key (PBSRequest.MaxKeyLength pbs_req) in
        ∃ bid' kvs,
          bids' !! j = Some bid'
          ∧ untargeted bid' = untargeted bid
          ∧ PBSBid.AdServerTargeting bid' = Some kvs
          ∧ (PBSRequest.MaxKeyLength pbs_req = 0%Z
             ∨ (4 ≤ PBSRequest.MaxKeyLength pbs_req)%Z →
             kvs !! cut (hbpbConstantKey +:+ "_" +:+ PBSBid.BidderCode bid)
             = Some (roundedCpm E (granularity pg) bid)
             ∧ kvs !! cut (hbBidderConstantKey +:+ "_"
                           +:+ PBSBid.BidderCode bid)
               = Some (PBSBid.BidderCode bid)
             ∧ kvs !! cut (hbCacheIdConstantKey +:+ "_"
                           +:+ PBSBid.BidderCode bid)
               = Some (PBSBid.CacheID bid)
             ∧ kvs !! cut (hbSizeConstantKey +:+ "_"
                           +:+ PBSBid.BidderCode bid)
               = size_entry bid)
          ∧ ((0 < PBSRequest.MaxKeyLength pbs_req < 4)%Z →
             Forall (λ name,
                       cut name
                       = cut (hbpbConstantKey +:+ "_"
                              +:+ PBSBid.BidderCode bid))
               (bidder_names bid)
             ∧ kvs !! cut (hbpbConstantKey +:+ "_" +:+ PBSBid.BidderCode bid)
               = Some (default (PBSBid.CacheID bid) (size_entry bid)))
          ∧ (head (default [] (code_bids' !! PBSBid.AdUnitCode bid))
             = Some j →
             kvs !! hbpbConstantKey
             = Some (roundedCpm E (granularity pg) bid)
             ∧ kvs !! hbBidderConstantKey = Some (PBSBid.BidderCode bid)
             ∧ kvs !! hbCacheIdConstantKey = Some (PBSBid.CacheID bid)
             ∧ kvs !! hbSizeConstantKey = size_entry bid
             ∧ kvs !! hbCreativeLoadMethodConstantKey
               = Some (if decide (PBSBid.BidderCode bid = "audienceNetwork")
                       then hbCreativeLoadMethodDemandSDK
                       else hbCreativeLoadMethodHTML)).
Proof.
  intros Hm Hsort.
  destruct (sortBidsAddKeywordsMobile_ranked Hm Hsort)
    as (code_bids' & bids' & Hrun & Hunlisted & Hlisted).
  exists code_bids', bids'. split; [done|]. split; [done|].
  intros j bid Hj Hcode cut.
  destruct (Hlisted j bid Hj Hcode) as (i & kvs & Hhead & Hkvs & Hbid').
  exists (PBSBid.set_AdServerTargeting bid kvs), kvs.
  split_and!; [done|apply untargeted_set_targeting|done|..].
  - intros Hapart. by eapply pbs_kvs_cut_values.
  - intros Hshort. split; [|by eapply pbs_kvs_merged_value].
    destruct (cut_key_merged (PBSRequest.MaxKeyLength pbs_req)
                (PBSBid.BidderCode bid) Hshort) as (H2 & H3 & H4).
    unfold bidder_names. by repeat constructor.
  - intros Hj0. apply Hhead in Hj0 as ->.
    by eapply pbs_kvs_top_values.
Qed.


(** C4, amended. With a [sort.Sort] that keeps its contract (and no
    negative key length) the function returns, and for every unit of the
    request the group of its code holds the positions of the bids with
    that code, arranged in non-increasing order of price, and the
    targeting map of each bid of the group is the one built for its rank
    in that order. Nothing is said of the order of bids of equal price. *)
Theorem sortBidsAddKeywordsMobile_sorted :
  (0 ≤ PBSRequest.MaxKeyLength pbs_req)%Z → sorts (sort_Sort E) →
  ∃ code_bids' bids',
    sortBidsAddKeywordsMobile_run E bids pbs_req pg
    = Some (code_bids', bids')
    ∧ ∀ unit,
        unit ∈ PBSRequest.AdUnits pbs_req →
        default [] (code_bids' !! AdUnit.Code unit)
        ≡ₚ positions_of bids (AdUnit.Code unit)
        ∧ StronglySorted (price_ge bids)
            (default [] (code_bids' !! AdUnit.Code unit))
        ∧ ∀ i j,
            default [] (code_bids' !! AdUnit.Code unit) !! i = Some j →
            keyed E (PBSRequest.MaxKeyLength pbs_req) (granularity pg)
              bids bids' i j.
Proof.
  intros Hm Hsort.
  destruct (sortBidsAddKeywordsMobile_inv E bids pbs_req pg Hm Hsort)
    as ([code_bids' bids'] & Hrun & Hinv).
  exists code_bids', bids'. split; [done|].
  intros unit Hunit. destruct Hinv as [_ Hgroups _ Hsorted Hkeyed].
  assert (AdUnit.Code unit
          ∈ rev (AdUnit.Code <$> PBSRequest.AdUnits pbs_req)) as Hdone.
  { by apply elem_of_rev, list_elem_of_fmap_2. }
  split_and!; [apply Hgroups|by apply Hsorted|].
  intros i j. by apply Hkeyed.
Qed.
End targeting.

(** ** The instance of [sort.Sort] keeps the contract *)

Section sort_instance.
Context (less : nat → nat → bool).

Lemma insert_Permutation (l : list nat) j x y :
  l !! j = Some y → y :: <[j:=x]> l ≡ₚ x :: l.
Proof.
  revert j. induction l as [|a l IH]; intros [|j] Hj; simplify_eq/=.
  - apply Permutation_swap.
  - rewrite (Permutation_swap a y), (IH j Hj). apply Permutation_swap.
Qed.

Lemma Swap_Permutation l i j : Swap l i j ≡ₚ l.
Proof.
  unfold Swap.
  destruct (l !! i) as [x|] eqn:Hi; [|done].
  destruct (l !! j) as [y|] eqn:Hj; [|done].
  destruct (decide (i = j)) as [->|Hne].
  { simplify_eq. rewrite list_insert_insert_eq. by rewrite list_insert_id. }
  apply (Permutation_cons_inv (a := x)).
  rewrite insert_Permutation
    by (by rewrite list_lookup_insert_ne).
  by apply insert_Permutation.
Qed.

Lemma shell_pass_Permutation l : shell_pass less l ≡ₚ l.
Proof.
  unfold shell_pass. generalize (seq 6 (length l - 6)). intros idx.
  revert l. induction idx as [|i idx IH]; intros l; [done|].
  simpl. rewrite IH. unfold shell_step.
  destruct (l !! i), (l !! (i - 6)); try done.
  destruct (less _ _); [apply Swap_Permutation|done].
Qed.

Lemma sink_Permutation x rev_prefix :
  sink less x rev_prefix ≡ₚ x :: rev_prefix.
Proof.
  induction rev_prefix as [|y rest IH]; [done|].
  simpl. destruct (less x y); [|done].
  rewrite IH. apply Permutation_swap.
Qed.

Lemma sink_all_Permutation l acc :
  foldl (λ rev_prefix x, sink less x rev_prefix) acc l ≡ₚ l ++ acc.
Proof.
  revert acc. induction l as [|x l IH]; intros acc; [done|].
  simpl. rewrite IH, sink_Permutation. by rewrite Permutation_middle.
Qed.

Lemma insertionSort_Permutation l : insertionSort less l ≡ₚ l.
Proof.
  unfold insertionSort. rewrite <- Permutation_rev, sink_all_Permutation.
  by rewrite (right_id_L [] (++)).
Qed.

(** The prefix, read from its end: no element is less than a later one
    of the list, that is than an earlier one of the prefix. *)
Lemma sink_sorted L x rev_prefix :
  strict_weak_on less L →
  x ∈ L → Forall (λ y, y ∈ L) rev_prefix →
  StronglySorted (λ a b, less a b = false) rev_prefix →
  StronglySorted (λ a b, less a b = false) (sink less x rev_prefix).
Proof.
  intros [Hasym Hneg] Hx HL.
  induction 1 as [|y rest Hrest IH Hy]; simpl.
  - repeat constructor.
  - apply Forall_cons in HL as [HyL HL].
    destruct (less x y) eqn:Hxy.
    + constructor; [by apply IH|].
      rewrite sink_Permutation. constructor; [by apply Hasym|done].
    + constructor; [by constructor|].
      constructor; [done|].
      rewrite Forall_forall in Hy, HL. apply Forall_forall.
      intros b Hb. apply (Hneg x y b); auto.
Qed.

Lemma sink_all_sorted L l acc :
  strict_weak_on less L →
  Forall (λ y, y ∈ L) l → Forall (λ y, y ∈ L) acc →
  StronglySorted (λ a b, less a b = false) acc →
  StronglySorted (λ a b, less a b = false)
    (foldl (λ rev_prefix x, sink less x rev_prefix) acc l).
Proof.
  intros Hsw. revert acc.
  induction l as [|x l IH]; intros acc Hl Hacc Hs; [done|].
  apply Forall_cons in Hl as [Hx Hl]. simpl. apply IH; [done|..].
  - rewrite sink_Permutation. by constructor.
  - by apply (sink_sorted L).
Qed.

Lemma StronglySorted_rev {A} (R : relation A) (l : list A) :
  StronglySorted (flip R) l → StronglySorted R (rev l).
Proof.
  induction 1 as [|x l Hl IH Hx]; simpl; [constructor|].
  apply StronglySorted_app_2; [|done|repeat constructor].
  intros a b Ha ->%list_elem_of_singleton.
  rewrite Forall_forall in Hx. apply Hx.
  by rewrite list_elem_of_In, in_rev, <- list_elem_of_In.
Qed.

Lemma strict_weak_on_Permutation l l' :
  l ≡ₚ l' → strict_weak_on less l → strict_weak_on less l'.
Proof.
  intros Hperm [Hasym Hneg]. split.
  - intros x y. rewrite <- !Hperm. apply Hasym.
  - intros x y z. rewrite <- !Hperm. apply Hneg.
Qed.

Lemma insertionSort_sorted l :
  strict_weak_on less l →
  StronglySorted (λ x y, less y x = false) (insertionSort less l).
Proof.
  intros Hsw. unfold insertionSort. apply StronglySorted_rev.
  apply (sink_all_sorted l); [done| |done|constructor].
  by apply Forall_forall.
Qed.
End sort_instance.

Lemma shellInsertionSort_sorts : sorts shellInsertionSort.
Proof.
  split; intros less l; unfold shellInsertionSort.
  - by rewrite insertionSort_Permutation, shell_pass_Permutation.
  - intros Hsw. apply insertionSort_sorted.
    eapply strict_weak_on_Permutation; [|done].
    by rewrite shell_pass_Permutation.
Qed.

(** ** The auction: bidder statuses and the creative cache *)

Section fan_out.
Context (E : Env) (pbs_req : PBSRequest).

Lemma bidder_task_Some ex bidder :
  is_Some (bidder_task ex pbs_req bidder).
Proof.
  unfold bidder_task.
  destruct (CallResult.err _) as [err|]; [eauto|].
  destruct (CallResult.bid_list _) as [bid_list|]; [|eauto].
  rewrite checkForValidBidSize_omap. simpl. eauto.
Qed.

Lemma bidder_task_identity ex bidder bidder' bid_list :
  bidder_task ex pbs_req bidder = Some (bidder', bid_list) →
  PBSBidder.BidderCode bidder' = PBSBidder.BidderCode bidder
  ∧ PBSBidder.AdUnits bidder' = PBSBidder.AdUnits bidder
  ∧ (CallResult.err (Adapter.Call ex pbs_req bidder) = Some DeadlineExceeded
     → PBSBidder.Error bidder' = "Timed out")
  ∧ (∀ err, CallResult.err (Adapter.Call ex pbs_req bidder) = Some err →
            err ≠ DeadlineExceeded →
            PBSBidder.Error bidder' = Error_string err).
Proof.
  unfold bidder_task.
  destruct (CallResult.err _) as [err|].
  - intros [= <- <-]. destruct err; split_and!; try done;
      intros e [= <-]; done.
  - destruct (CallResult.bid_list _) as [bids|].
    + rewrite checkForValidBidSize_omap. simpl. intros [= <- <-]. done.
    + intros [= <- <-]. done.
Qed.

Lemma bidder_task_cookie ex bidder bidder' bid_list :
  bidder_task ex pbs_req bidder = Some (bidder', bid_list) →
  PBSBidder.NoCookie bidder' = PBSBidder.NoCookie bidder
  ∧ PBSBidder.UsersyncInfo bidder' = PBSBidder.UsersyncInfo bidder.
Proof.
  unfold bidder_task.
  destruct (CallResult.err _) as [err|].
  - intros [= <- <-]. by destruct err.
  - destruct (CallResult.bid_list _) as [bids|].
    + rewrite checkForValidBidSize_omap. simpl. by intros [= <- <-].
    + by intros [= <- <-].
Qed.

Lemma settle_Some bidder : is_Some (settle E pbs_req bidder).
Proof.
  unfold settle. destruct (exchanges E !! _) as [ex|]; [|eauto].
  destruct (_ && Adapter.SkipNoCookies ex); [eauto|].
  destruct (bidder_task_Some ex
              (if bool_decide (PBSRequest.App pbs_req = None)
                  && bool_decide
                       (PBSCookie.GetUID (PBSRequest.Cookie pbs_req)
                          (Adapter.FamilyName ex) = "")
               then PBSBidder.set_NoCookie bidder
                      (Adapter.GetUsersyncInfo ex)
               else bidder)) as [[b bl] ->].
  simpl. eauto.
Qed.

(** A turn of the loop settles the bidder it is at, in place. *)
Lemma dispatch_settle st i :
  dispatch E pbs_req st i
  = bidder ← FanOut.bidders st !! i;
    '(bidder', sent) ← settle E pbs_req bidder;
    Some (FanOut.mk (<[i := bidder']> (FanOut.bidders st))
            (FanOut.results st
             ++ match sent with
                | Some bid_list => [Build_bidResult i bid_list]
                | None => []
                end)
            (FanOut.sentBids st
             + match sent with Some _ => 1 | None => 0 end)).
Proof.
  unfold dispatch, settle.
  destruct (FanOut.bidders st !! i) as [bidder|]; [|done]. simpl.
  destruct (exchanges E !! _) as [ex|]; simpl.
  - destruct (_ && Adapter.SkipNoCookies ex); simpl.
    + by rewrite (right_id_L [] (++)), Nat.add_0_r.
    + destruct (bidder_task _ _ _) as [[b bl]|]; [|done]. simpl.
      by rewrite Nat.add_1_r.
  - by rewrite (right_id_L [] (++)), Nat.add_0_r.
Qed.

(** The loop over distinct positions settles each of them once, leaves
    the others alone, and calls the adapters of those that are sent. *)
Lemma dispatch_loop_spec positions st :
  NoDup positions →
  Forall (λ i, i < length (FanOut.bidders st)) positions →
  ∃ st',
    dispatch_loop E pbs_req positions st = Some st'
    ∧ length (FanOut.bidders st') = length (FanOut.bidders st)
    ∧ (∀ i, i ∉ positions →
            FanOut.bidders st' !! i = FanOut.bidders st !! i)
    ∧ (∀ i, i ∈ positions →
            ∃ b b' sent,
              FanOut.bidders st !! i = Some b
              ∧ settle E pbs_req b = Some (b', sent)
              ∧ FanOut.bidders st' !! i = Some b'
              ∧ (i ∈ bidder <$> FanOut.results st'
                 ↔ is_Some sent ∨ i ∈ bidder <$> FanOut.results st))
    ∧ (∀ i, i ∉ positions →
            i ∈ bidder <$> FanOut.results st'
            ↔ i ∈ bidder <$> FanOut.results st).
Proof.
  revert st. induction positions as [|p ps IH]; intros st Hnd Hvalid.
  { exists st. split_and!; try done. intros i Hi. by apply elem_of_nil in Hi. }
  apply NoDup_cons in Hnd as [Hp Hnd].
  apply Forall_cons in Hvalid as [Hplt Hvalid].
  destruct (lookup_lt_is_Some_2 _ _ Hplt) as [b Hb].
  destruct (settle_Some b) as [[b' sent] Hsettle].
  cbn [dispatch_loop]. rewrite dispatch_settle, Hb. cbn.
  rewrite Hsettle. cbn.
  set (st1 := FanOut.mk _ _ _).
  destruct (IH st1 Hnd) as (st' & Hrun & Hlen & Hout & Hin & Hcalls).
  { unfold st1. simpl. by rewrite length_insert. }
  assert (∀ i, i ∈ bidder <$> FanOut.results st1
               ↔ (i = p ∧ is_Some sent) ∨ i ∈ bidder <$> FanOut.results st)
    as Hres1.
  { intros i. unfold st1. simpl. rewrite fmap_app, elem_of_app.
    destruct sent as [bl|]; simpl.
    - rewrite list_elem_of_singleton. split.
      + intros [?|?]; [by right|left]. split; [done|eauto].
      + intros [[-> _]|?]; [by right|by left].
    - rewrite elem_of_nil. split.
      + intros [?|[]]. by right.
      + intros [[_ []%is_Some_None]|?]. by left. }
  exists st'. split; [done|]. split_and!.
  - rewrite Hlen. unfold st1. simpl. by rewrite length_insert.
  - intros i [Hip Hi]%not_elem_of_cons. rewrite Hout by done.
    unfold st1. simpl. by rewrite list_lookup_insert_ne.
  - intros i [->|Hi]%elem_of_cons.
    + exists b, b', sent. split_and!; [done..| |].
      * rewrite Hout by done. unfold st1. simpl.
        by rewrite list_lookup_insert_eq.
      * rewrite Hcalls by done. rewrite Hres1. intuition.
    + destruct (Hin i Hi) as (bi & bi' & senti & Hbi & Hsi & Hbi' & Hci).
      assert (i ≠ p) as Hne by (intros ->; done).
      exists bi, bi', senti. split_and!; [|done..|].
      * unfold st1 in Hbi. simpl in Hbi.
        by rewrite list_lookup_insert_ne in Hbi.
      * rewrite Hci, Hres1. tauto.
  - intros i [Hip Hi]%not_elem_of_cons.
    rewrite Hcalls by done. rewrite Hres1. tauto.
Qed.

(** The fan-out always comes to its end. *)
Lemma fan_out_spec :
  ∃ st,
    fan_out E pbs_req = Some st
    ∧ length (FanOut.bidders st) = length (PBSRequest.Bidders pbs_req)
    ∧ ∀ i b,
        PBSRequest.Bidders pbs_req !! i = Some b →
        ∃ b' sent,
          settle E pbs_req b = Some (b', sent)
          ∧ FanOut.bidders st !! i = Some b'
          ∧ (i ∈ bidder <$> FanOut.results st ↔ is_Some sent).
Proof.
  unfold fan_out.
  destruct (dispatch_loop_spec
              (seq 0 (length (PBSRequest.Bidders pbs_req)))
              (FanOut.mk (PBSRequest.Bidders pbs_req) [] 0))
    as (st & Hrun & Hlen & _ & Hin & _).
  { apply NoDup_seq. }
  { apply Forall_forall. intros i Hi. apply elem_of_seq in Hi. simpl. lia. }
  exists st. split_and!; [done..|].
  intros i b Hb.
  destruct (Hin i) as (b0 & b' & sent & Hb0 & Hsettle & Hb' & Hcalls).
  { apply elem_of_seq. apply lookup_lt_Some in Hb. lia. }
  simpl in *. simplify_eq. exists b', sent. split_and!; [done..|].
  rewrite Hcalls. rewrite elem_of_nil. tauto.
Qed.

(** What settling does to a bidder, case by case. *)
Lemma settle_cases bidder bidder' sent :
  settle E pbs_req bidder = Some (bidder', sent) →
  PBSBidder.BidderCode bidder' = PBSBidder.BidderCode bidder
  ∧ PBSBidder.AdUnits bidder' = PBSBidder.AdUnits bidder
  ∧ (exchanges E !! PBSBidder.BidderCode bidder = None →
     bidder' = PBSBidder.set_Error bidder "Unsupported bidder"
     ∧ sent = None)
  ∧ (∀ ex,
       exchanges E !! PBSBidder.BidderCode bidder = Some ex →
       (skipped pbs_req ex →
        bidder' = PBSBidder.set_NoCookie bidder (Adapter.GetUsersyncInfo ex)
        ∧ sent = None)
       ∧ (¬ skipped pbs_req ex →
          let r := Adapter.Call ex pbs_req (as_called pbs_req ex bidder) in
          is_Some sent
          ∧ (CallResult.err r = Some DeadlineExceeded →
             PBSBidder.Error bidder' = "Timed out")
          ∧ (∀ err, CallResult.err r = Some err → err ≠ DeadlineExceeded →
                    PBSBidder.Error bidder' = Error_string err))).
Proof.
  unfold settle, skipped, as_called.
  destruct (exchanges E !! _) as [ex|].
  2:{ intros [= <- <-]. split_and!; try done. }
  destruct (bool_decide_reflect (PBSRequest.App pbs_req = None)) as [Happ|Happ];
    destruct (bool_decide_reflect
                (PBSCookie.GetUID (PBSRequest.Cookie pbs_req)
                   (Adapter.FamilyName ex) = "")) as [Huid|Huid];
    simpl.
  1: destruct (Adapter.SkipNoCookies ex) eqn:Hskip.
  1: { intros [= <- <-]. split_and!; try done.
       intros ex' [= <-]. split; [done|]. intros Hn. destruct Hn. done. }
  all: destruct (bidder_task _ _ _) as [[b bl]|] eqn:Htask; [|done];
    simpl; intros [= <- <-];
    apply bidder_task_identity in Htask as (Hcode & Hunits & Htimeout & Herr);
    (split; [done|]); (split; [done|]); (split; [done|]);
    intros ex' [= <-]; (split; [intros (? & ? & ?); congruence|]);
    intros _.
  - rewrite decide_True by done. eauto.
  - rewrite decide_False by tauto. eauto.
  - rewrite decide_False by tauto. eauto.
  - rewrite decide_False by tauto. eauto.
Qed.

(** A registered bidder for whose family the user has no id, in a request
    without an app, leaves the loop marked, called or not. *)
Lemma settle_cookie bidder bidder' sent ex :
  settle E pbs_req bidder = Some (bidder', sent) →
  exchanges E !! PBSBidder.BidderCode bidder = Some ex →
  PBSRequest.App pbs_req = None →
  PBSCookie.GetUID (PBSRequest.Cookie pbs_req) (Adapter.FamilyName ex) = "" →
  PBSBidder.NoCookie bidder' = true
  ∧ PBSBidder.UsersyncInfo bidder' = Some (Adapter.GetUsersyncInfo ex).
Proof.
  intros Hsettle Hex Happ Huid. unfold settle in Hsettle.
  rewrite Hex, Huid, !bool_decide_eq_true_2 in Hsettle by done.
  simpl in Hsettle. destruct (Adapter.SkipNoCookies ex).
  { by simplify_eq. }
  destruct (bidder_task _ _ _) as [[b bl]|] eqn:Htask; [|done].
  simpl in Hsettle. simplify_eq.
  by apply bidder_task_cookie in Htask as [-> ->].
Qed.
End fan_out.

Section auction.
Context (E : Env) (m : Metrics) (ua : option UserAgent).
Context (pbs_req : PBSRequest) (account : Account).
Context (Haccount : Accounts_Get E (PBSRequest.AccountID pbs_req) = inr account).

(** With a known account the handler goes through the fan-out loop and
    ends in [respond]. *)
Lemma auction_respond :
  ∃ st status m',
    fan_out E pbs_req = Some st
    ∧ auction E m ua (inr pbs_req)
      = respond E pbs_req account status m' st.
Proof.
  destruct (fan_out_spec E pbs_req) as (st & Hfan & _).
  unfold auction.
  destruct (request_status _ _ _) as [status m'].
  rewrite Haccount, Hfan. by exists st, status, m'.
Qed.

Lemma respond_Encoded status m' st run resp :
  respond E pbs_req account status m' st = Some run →
  AuctionRun.written run = Encoded resp →
  PBSResponse.BidderStatus resp = FanOut.bidders st
  ∧ AuctionRun.calls run = bidder <$> FanOut.results st.
Proof.
  unfold respond. intros Hrun Hw.
  repeat match type of Hrun with
         | context [decide ?P] => destruct (decide P)
         | context [pbc_Put ?E ?c] => destruct (pbc_Put E c)
         | context [sortBidsAddKeywordsMobile ?a ?b ?c ?d] =>
             destruct (sortBidsAddKeywordsMobile a b c d)
         end;
    simplify_eq/=; done.
Qed.

(** C6. When the auction comes to encode its response, the bidder
    statuses are the bidder requests of the input, one for one and in
    their order: each keeps its code and ad units; one with an
    unsupported code has the error "Unsupported bidder", every other
    field as it came, and its adapter (there is none) was not called; one
    skipped for want of a cookie has [noCookie] true and the user-sync
    information of its adapter, every other field as it came, and its
    adapter was not called; one whose adapter was called has "Timed out"
    as error when the call ran into the deadline, and the message of the
    error when it failed otherwise. Skipped or called, a registered
    bidder for whose family the user has no id (in a request without an
    app) has [noCookie] true and the user-sync information. *)
Theorem auction_bidder_status (run : AuctionRun) (resp : PBSResponse) :
  auction E m ua (inr pbs_req) = Some run →
  AuctionRun.written run = Encoded resp →
  length (PBSResponse.BidderStatus resp)
  = length (PBSRequest.Bidders pbs_req)
  ∧ ∀ i b,
      PBSRequest.Bidders pbs_req !! i = Some b →
      ∃ status,
        PBSResponse.BidderStatus resp !! i = Some status
        ∧ PBSBidder.BidderCode status = PBSBidder.BidderCode b
        ∧ PBSBidder.AdUnits status = PBSBidder.AdUnits b
        ∧ (exchanges E !! PBSBidder.BidderCode b = None →
           PBSBidder.Error status = "Unsupported bidder"
           ∧ status
             = PBSBidder.mk (PBSBidder.BidderCode b) (PBSBidder.AdUnits b)
                 (PBSBidder.ResponseTime b) (PBSBidder.NumBids b)
                 "Unsupported bidder" (PBSBidder.NoCookie b)
                 (PBSBidder.NoBid b) (PBSBidder.UsersyncInfo b)
           ∧ i ∉ AuctionRun.calls run)
        ∧ (∀ ex,
             exchanges E !! PBSBidder.BidderCode b = Some ex →
             (PBSRequest.App pbs_req = None →
              PBSCookie.GetUID (PBSRequest.Cookie pbs_req)
                (Adapter.FamilyName ex) = "" →
              PBSBidder.NoCookie status = true
              ∧ PBSBidder.UsersyncInfo status
                = Some (Adapter.GetUsersyncInfo ex))
             ∧ (skipped pbs_req ex →
                status
                = PBSBidder.mk (PBSBidder.BidderCode b)
                    (PBSBidder.AdUnits b) (PBSBidder.ResponseTime b)
                    (PBSBidder.NumBids b) (PBSBidder.Error b) true
                    (PBSBidder.NoBid b)
                    (Some (Adapter.GetUsersyncInfo ex))
                ∧ i ∉ AuctionRun.calls run)
             ∧ (¬ skipped pbs_req ex →
                let r :=
                  Adapter.Call ex pbs_req (as_called pbs_req ex b) in
                i ∈ AuctionRun.calls run
                ∧ (CallResult.err r = Some DeadlineExceeded →
                   PBSBidder.Error status = "Timed out")
                ∧ (∀ err,
                     CallResult.err r = Some err →
                     err ≠ DeadlineExceeded →
                     PBSBidder.Error status = Error_string err))).
Proof.
  intros Hrun Hw.
  destruct (fan_out_spec E pbs_req) as (st & Hfan & Hlen & Hst).
  destruct auction_respond as (st' & status & m' & Hfan' & Hauction).
  simplify_eq. rewrite Hauction in Hrun.
  destruct (respond_Encoded _ _ _ _ _ Hrun Hw) as [-> ->].
  split; [done|]. intros i b Hb.
  destruct (Hst i b Hb) as (b' & sent & Hsettle & Hb' & Hcalls).
  destruct (settle_cases E pbs_req b b' sent Hsettle)
    as (Hcode & Hunits & Hnone & Hsome).
  exists b'. split_and!; [done..| |].
  - intros Hex. destruct (Hnone Hex) as [-> ->]. split; [done|].
    split; [done|]. rewrite Hcalls. by intros []%is_Some_None.
  - intros ex Hex. destruct (Hsome ex Hex) as [Hskip Hcall]. split_and!.
    + intros Happ Huid. by eapply settle_cookie.
    + intros Hs. destruct (Hskip Hs) as [-> ->]. split; [done|].
      rewrite Hcalls. by intros []%is_Some_None.
    + intros Hs. destruct (Hcall Hs) as (Hsent & Htimeout & Herr).
      split_and!; [by apply Hcalls|done..].
Qed.

Lemma lookup_set_cache_ids uuids Bids i bid' :
  set_cache_ids uuids Bids !! i = Some bid' →
  PBSBid.CacheID bid' = uuids i ∧ PBSBid.Adm bid' = ""
  ∧ PBSBid.NURL bid' = ""
  ∧ ∃ bid, Bids !! i = Some bid ∧ bid' = PBSBid.set_cached bid (uuids i).
Proof.
  unfold set_cache_ids. rewrite list_lookup_imap.
  destruct (Bids !! i) as [b|]; [|done]. intros [= <-].
  split_and!; [done..|]. by exists b.
Qed.

Lemma lookup_cache_values Bids i bid :
  Bids !! i = Some bid →
  cache_values Bids !! i
  = Some (BidCache.mk (PBSBid.Adm bid) (PBSBid.NURL bid)
            (PBSBid.Width bid) (PBSBid.Height bid)).
Proof. intros Hi. unfold cache_values. by rewrite list_lookup_fmap, Hi. Qed.

Lemma touched_cached MaxKeyLength pg Bids Bids' i bid' :
  touched E MaxKeyLength pg Bids Bids' →
  Bids' !! i = Some bid' →
  ∃ bid, Bids !! i = Some bid
         ∧ PBSBid.CacheID bid' = PBSBid.CacheID bid
         ∧ PBSBid.Adm bid' = PBSBid.Adm bid
         ∧ PBSBid.NURL bid' = PBSBid.NURL bid.
Proof.
  intros [_ Ht] Hi. destruct (Ht i bid' Hi) as (bid & Hbid & Hcase).
  exists bid. split; [done|].
  by destruct Hcase as [->|(? & ? & _ & ->)].
Qed.

(** C5. With [cache_markup] 1 (and a known account): the creative cache
    is called once, with one object per bid of the aggregate list, in
    its order, holding the markup, the notification URL and the
    dimensions of the bid; when the call fails the handler writes an
    error response whose status names the cache failure, without bids;
    when it succeeds the bids of the response are the bids of the
    aggregate list, one for one and in their order, each with the UUID
    returned for the object at its position (the one built from its own
    markup) as cache id, an empty [adm] and [nurl], and its other fields
    as they were, but for the targeting map when the keys are asked
    for. The response is written when the targeting keys, if asked for,
    can be built. *)
Theorem auction_cache_markup :
  PBSRequest.CacheMarkup pbs_req = 1%Z →
  ∃ st,
    fan_out E pbs_req = Some st
    ∧ (∀ run,
         auction E m ua (inr pbs_req) = Some run →
         ∃ cobjs,
           AuctionRun.cache_puts run = [cobjs]
           ∧ length cobjs = length (drain E st)
           ∧ ∀ i bid,
               drain E st !! i = Some bid →
               cobjs !! i
               = Some (BidCache.mk (PBSBid.Adm bid) (PBSBid.NURL bid)
                         (PBSBid.Width bid) (PBSBid.Height bid)))
    ∧ (∀ err,
         pbc_Put E (cache_values (drain E st)) = inl err →
         ∃ run,
           auction E m ua (inr pbs_req) = Some run
           ∧ AuctionRun.written run
             = WroteError
                 (PBSResponse.mk ""
                    ("Prebid cache failed: " +:+ Error_string err) [] []))
    ∧ (∀ uuids,
         pbc_Put E (cache_values (drain E st)) = inr uuids →
         (∀ run,
            auction E m ua (inr pbs_req) = Some run →
            ∃ resp,
              AuctionRun.written run = Encoded resp
              ∧ length (PBSResponse.Bids resp) = length (drain E st)
              ∧ ∀ i bid',
                  PBSResponse.Bids resp !! i = Some bid' →
                  PBSBid.CacheID bid' = uuids i
                  ∧ PBSBid.Adm bid' = "" ∧ PBSBid.NURL bid' = ""
                  ∧ ∃ bid,
                      drain E st !! i = Some bid
                      ∧ untargeted bid'
                        = PBSBid.mk (PBSBid.BidID bid)
                            (PBSBid.AdUnitCode bid) (PBSBid.BidderCode bid)
                            (PBSBid.Price bid) "" "" (PBSBid.Width bid)
                            (PBSBid.Height bid)
                            (PBSBid.CreativeMediaType bid) (uuids i) None
                            (PBSBid.ResponseTime bid)
                      ∧ (PBSRequest.SortBids pbs_req ≠ 1%Z →
                         PBSBid.AdServerTargeting bid'
                         = PBSBid.AdServerTargeting bid))
         ∧ ((PBSRequest.SortBids pbs_req = 1%Z →
             (0 ≤ PBSRequest.MaxKeyLength pbs_req)%Z
             ∧ sorts (sort_Sort E)) →
            is_Some (auction E m ua (inr pbs_req)))).
Proof.
  intros Hcache.
  destruct auction_respond as (st & status & m' & Hfan & ->).
  exists st. split; [done|]. unfold respond.
  rewrite decide_True by done. split_and!.
  - intros run Hrun. exists (cache_values (drain E st)).
    split_and!.
    + destruct (pbc_Put _ _); [by simplify_eq/=|].
      destruct (decide _); [|by simplify_eq/=].
      destruct (sortBidsAddKeywordsMobile _ _ _ _); by simplify_eq/=.
    + unfold cache_values. by rewrite length_fmap.
    + apply lookup_cache_values.
  - intros err ->. eexists. split; [done|]. done.
  - intros uuids ->. split.
    + intros run Hrun. destruct (decide _) as [Hsort|Hsort].
      * destruct (sortBidsAddKeywordsMobile _ _ _ _) as [Bids'|] eqn:Hs;
          [|done].
        simplify_eq/=. eexists. split; [done|]. simpl.
        apply sortBidsAddKeywordsMobile_touched in Hs.
        split.
        { rewrite (proj1 Hs). unfold set_cache_ids.
          by rewrite length_imap. }
        intros i bid' Hi.
        destruct (touched_cached _ _ _ _ _ _ Hs Hi)
          as (bid0 & Hbid0 & -> & -> & ->).
        pose proof (touched_same _ _ _ _ _ _ _ _ Hs Hbid0 Hi) as ->.
        destruct (lookup_set_cache_ids _ _ _ _ Hbid0)
          as (Hid & Hadm & Hnurl & bid & Hbid & ->).
        split_and!; [done..|]. exists bid. by split_and!.
      * simplify_eq/=. eexists. split; [done|]. simpl. split.
        { unfold set_cache_ids. by rewrite length_imap. }
        intros i bid' Hi.
        destruct (lookup_set_cache_ids _ _ _ _ Hi)
          as (Hid & Hadm & Hnurl & bid & Hbid & ->).
        split_and!; [done..|]. exists bid. by split_and!.
    + intros Hok. destruct (decide _) as [Hsort|Hsort]; [|by eexists].
      destruct (Hok Hsort) as [Hm Hs].
      destruct (sortBidsAddKeywordsMobile_inv E
                  (set_cache_ids uuids (drain E st)) pbs_req
                  (Account.PriceGranularity account) Hm Hs)
        as (st' & Hrun & _).
      unfold sortBidsAddKeywordsMobile. rewrite Hrun. by eexists.
Qed.
End auction.

(** ** The properties on the scenario *)

Lemma checkForValidBidSize_reconciles_witness :
  ∃ out,
    checkForValidBidSize example_unsized_bids (example_bidder "A") = Some out
    ∧ PBSBid.Width <$> out = [300%N]
    ∧ PBSBid.Height <$> out = [250%N]
    ∧ PBSBid.AdUnitCode <$> out = ["u1"].
Proof.
  destruct (checkForValidBidSize_reconciles (example_bidder "A")
              example_unsized_bids)
    as (rule & Hrun & Hsized & _ & Hnone & _).
  destruct (Hsized (example_bid "u1" "A" 123 0 0)
              (PBSAdUnit.mk [Size.mk 300 250] "u1" "bid-1")
              (Size.mk 300 250))
    as (bid' & Hrule & Hwidth & Hheight & Hrest).
  { split; [reflexivity|left; reflexivity]. }
  { reflexivity. }
  { reflexivity. }
  assert (rule (example_bid "u9" "A" 80 0 0) = None) as Hdropped.
  { apply Hnone; [split; [reflexivity|left; reflexivity]|reflexivity]. }
  exists [bid']. split.
  { rewrite Hrun. unfold example_unsized_bids. cbn [omap list_omap].
    rewrite Hrule, Hdropped. reflexivity. }
  cbn [fmap list_fmap]. rewrite Hwidth, Hheight, Hrest.
  split; [reflexivity|]. split; reflexivity.
Defined.

Lemma checkForValidBidSize_idempotent_witness :
  Forall (λ bid, PBSBid.CreativeMediaType bid ≠ "banner"
                 ∨ (0 < PBSBid.Width bid ∧ 0 < PBSBid.Height bid)%N)
    example_defined_bids
  ∧ checkForValidBidSize example_defined_bids (example_bidder "B")
    = Some example_defined_bids.
Proof.
  assert (Forall (λ bid, PBSBid.CreativeMediaType bid ≠ "banner"
                         ∨ (0 < PBSBid.Width bid ∧ 0 < PBSBid.Height bid)%N)
            example_defined_bids) as Hdefined.
  { constructor; [right; split; reflexivity|].
    constructor; [left; discriminate|]. constructor. }
  split; [exact Hdefined|].
  exact (proj1 (checkForValidBidSize_idempotent (example_bidder "B")
                  example_defined_bids Hdefined)).
Defined.

Lemma cookieSync_response_witness :
  PBSCookie.AllowSyncs (example_cookie true) = true
  ∧ json_Decode example_Env "[A,B,Z]" = inr (Some example_csReq)
  ∧ ∃ run resp,
      cookieSync example_Env example_metrics (example_cookie true) "[A,B,Z]"
      = Some run
      ∧ reply run = CookieSyncJSON resp
      ∧ cs_Status resp = "ok"
      ∧ PBSBidder.BidderCode <$> cs_BidderStatus resp = ["audienceNetwork"].
Proof.
  assert (PBSCookie.AllowSyncs (example_cookie true) = true) as Hallow
    by reflexivity.
  assert (json_Decode example_Env "[A,B,Z]" = inr (Some example_csReq))
    as Hdecode by reflexivity.
  split; [exact Hallow|]. split; [exact Hdecode|].
  destruct (cookieSync_response example_Env example_metrics
              (example_cookie true) "[A,B,Z]" example_csReq Hallow Hdecode)
    as (run & resp & Hrun & Hreply & _ & _ & Hok & Hcodes & _).
  exists run, resp. split; [exact Hrun|]. split; [exact Hreply|]. split.
  - apply Hok. vm_compute. discriminate.
  - rewrite Hcodes. vm_compute. reflexivity.
Defined.

Lemma cookieSync_opt_out_first_witness :
  PBSCookie.AllowSyncs (example_cookie false) = false
  ∧ cookieSync example_Env example_metrics (example_cookie false) "{bidders:"
    = Some (Build_CookieSyncRun
              (HttpError "User has opted out" StatusUnauthorized)
              (Metrics.mark_CookieSync example_metrics) false).
Proof.
  assert (PBSCookie.AllowSyncs (example_cookie false) = false) as Hopt
    by reflexivity.
  split; [exact Hopt|].
  exact (cookieSync_opt_out_first example_Env example_metrics
           (example_cookie false) "{bidders:" Hopt).
Defined.

Lemma auction_unknown_account_witness :
  Accounts_Get example_Env (PBSRequest.AccountID (example_request "nope" 0))
  = inl (Errorf "sql: no rows in result set")
  ∧ ∃ run,
      auction example_Env example_metrics None
        (inr (example_request "nope" 0)) = Some run
      ∧ PBSResponse.Status (body (AuctionRun.written run))
        = "Unknown account id: Unknown account"
      ∧ AuctionRun.calls run = []
      ∧ Metrics.ErrorMeter (AuctionRun.metrics run) = 1%N.
Proof.
  assert (Accounts_Get example_Env
            (PBSRequest.AccountID (example_request "nope" 0))
          = inl (Errorf "sql: no rows in result set")) as Hunknown
    by reflexivity.
  split; [exact Hunknown|].
  destruct (auction_unknown_account example_Env example_metrics None
              (example_request "nope" 0) _ Hunknown)
    as (run & Hrun & Hstatus & _ & Hcalls & _ & Hmeter).
  exists run. repeat split; assumption.
Defined.

Lemma sortBidsAddKeywordsMobile_keywords_witness :
  (0 ≤ PBSRequest.MaxKeyLength (example_request "acct" 20))%Z
  ∧ sorts (sort_Sort example_Env)
  ∧ ∃ code_bids' bids',
      sortBidsAddKeywordsMobile_run example_Env example_long_code_bids
        (example_request "acct" 20) ""
      = Some (code_bids', bids')
      ∧ ∃ bid' kvs,
          bids' !! 0 = Some bid'
          ∧ PBSBid.AdServerTargeting bid' = Some kvs
          ∧ kvs !! "hb_pb_audienceNetwor" = Some "1.20"
          ∧ kvs !! "hb_bidder_audienceNe" = Some "audienceNetwork"
          ∧ kvs !! "hb_size_audienceNetw" = Some "300x250"
          ∧ kvs !! "hb_creative_loadtype" = Some "demand_sdk".
Proof.
  assert (0 ≤ PBSRequest.MaxKeyLength (example_request "acct" 20))%Z
    as Hlength by (vm_compute; discriminate).
  pose proof shellInsertionSort_sorts as Hsorts.
  split; [exact Hlength|]. split; [exact Hsorts|].
  destruct (sortBidsAddKeywordsMobile_keywords example_Env
              example_long_code_bids (example_request "acct" 20) ""
              Hlength Hsorts)
    as (code_bids' & bids' & Hrun & _ & Hkeys).
  assert (head (default []
                  (default ∅
                     (fst <$> sortBidsAddKeywordsMobile_run example_Env
                                example_long_code_bids
                                (example_request "acct" 20) "")
                   !! "u1")) = Some 0) as Hhead
    by (vm_compute; reflexivity).
  rewrite Hrun in Hhead.
  exists code_bids', bids'. split; [exact Hrun|].
  pose proof (Hkeys 0 (example_bid "u1" "audienceNetwork" 123 300 250)
                eq_refl (list_elem_of_here _ _)) as Hbid.
  cbv zeta in Hbid.
  destruct Hbid as (bid' & kvs & Hbid' & _ & Htargeting & Hcut & _ & Htop).
  destruct Hcut as (Hpb & Hbidder & _ & Hsize);
    [right; vm_compute; discriminate|].
  destruct (Htop Hhead) as (_ & _ & _ & _ & Hload).
  exists bid', kvs. split; [exact Hbid'|]. split; [exact Htargeting|].
  split; [exact Hpb|]. split; [exact Hbidder|]. split; [exact Hsize|].
  exact Hload.
Defined.


Lemma sortBidsAddKeywordsMobile_sorted_witness :
  (0 ≤ PBSRequest.MaxKeyLength (example_request "acct" 0))%Z
  ∧ sorts (sort_Sort example_Env)
  ∧ ∃ code_bids' bids',
      sortBidsAddKeywordsMobile_run example_Env example_ties
        (example_request "acct" 0) ""
      = Some (code_bids', bids')
      ∧ StronglySorted (price_ge example_ties)
          (default [] (code_bids' !! "u1")).
Proof.
  assert (0 ≤ PBSRequest.MaxKeyLength (example_request "acct" 0))%Z
    as Hlength by (vm_compute; discriminate).
  pose proof shellInsertionSort_sorts as Hsorts.
  split; [exact Hlength|]. split; [exact Hsorts|].
  destruct (sortBidsAddKeywordsMobile_sorted example_Env example_ties
              (example_request "acct" 0) "" Hlength Hsorts)
    as (code_bids' & bids' & Hrun & Hunits).
  exists code_bids', bids'. split; [exact Hrun|].
  destruct (Hunits (AdUnit.mk "u1" [Size.mk 300 250])) as (_ & Hsorted & _).
  - apply list_elem_of_here.
  - exact Hsorted.
Defined.

Lemma auction_cache_markup_witness :
  Accounts_Get example_Env
    (PBSRequest.AccountID (example_request "acct" 0))
  = inr (Account.mk "acct" "")
  ∧ PBSRequest.CacheMarkup (example_request "acct" 0) = 1%Z
  ∧ ∃ st,
      fan_out example_Env (example_request "acct" 0) = Some st
      ∧ ∃ bid',
          PBSResponse.Bids example_response !! 1 = Some bid'
          ∧ PBSBid.CacheID bid' = "uuid-1"
          ∧ PBSBid.BidderCode (untargeted bid') = "B"
          ∧ PBSBid.Adm bid' = "".
Proof.
  assert (Accounts_Get example_Env
            (PBSRequest.AccountID (example_request "acct" 0))
          = inr (Account.mk "acct" "")) as Haccount by reflexivity.
  assert (PBSRequest.CacheMarkup (example_request "acct" 0) = 1%Z)
    as Hcache by reflexivity.
  split; [exact Haccount|]. split; [exact Hcache|].
  destruct (auction_cache_markup example_Env example_metrics None
              (example_request "acct" 0) (Account.mk "acct" "") Haccount
              Hcache)
    as (st & Hfan & _ & _ & Hput).
  exists st. split; [exact Hfan|].
  assert (auction example_Env example_metrics None
            (inr (example_request "acct" 0)) = Some example_run)
    as Hrun by (vm_compute; reflexivity).
  assert (AuctionRun.written example_run = Encoded example_response)
    as Hwritten by (vm_compute; reflexivity).
  assert ((PBSBid.BidderCode
           <$> drain example_Env
                 (default (FanOut.mk [] [] 0)
                    (fan_out example_Env (example_request "acct" 0))))
            !! 1
          = Some "B") as Hsecond
    by (vm_compute; reflexivity).
  destruct (Hput (λ i, "uuid-" +:+ pretty i) eq_refl) as [Hbids _].
  destruct (Hbids example_run Hrun) as (resp & Hresp & Hlen & Htied).
  rewrite Hwritten in Hresp. injection Hresp as <-.
  destruct (lookup_lt_is_Some_2 (PBSResponse.Bids example_response) 1)
    as [bid' Hbid'].
  { vm_compute. lia. }
  destruct (Htied 1 bid' Hbid') as (Hid & Hadm & _ & bid & Hbid & Hsame & _).
  exists bid'. split; [exact Hbid'|]. split; [exact Hid|].
  split; [|exact Hadm].
  rewrite Hsame. simpl.
  rewrite Hfan in Hsecond. simpl in Hsecond.
  rewrite list_lookup_fmap, Hbid in Hsecond. simpl in Hsecond.
  by injection Hsecond.
Defined.

Lemma auction_bidder_status_witness :
  Accounts_Get example_Env
    (PBSRequest.AccountID (example_request "acct" 0))
  = inr (Account.mk "acct" "")
  ∧ auction example_Env example_metrics None
      (inr (example_request "acct" 0)) = Some example_run
  ∧ AuctionRun.written example_run = Encoded example_response
  ∧ length (PBSResponse.BidderStatus example_response)
    = length (PBSRequest.Bidders (example_request "acct" 0))
  ∧ (∃ status,
       PBSResponse.BidderStatus example_response !! 2 = Some status
       ∧ PBSBidder.BidderCode status = "Z"
       ∧ PBSBidder.Error status = "Unsupported bidder")
  ∧ ∃ status,
      PBSResponse.BidderStatus example_response !! 3 = Some status
      ∧ PBSBidder.BidderCode status = "audienceNetwork"
      ∧ PBSBidder.NoCookie status = true
      ∧ PBSBidder.UsersyncInfo status = Some "//sync.audienceNetwork".
Proof.
  assert (Accounts_Get example_Env
            (PBSRequest.AccountID (example_request "acct" 0))
          = inr (Account.mk "acct" "")) as Haccount by reflexivity.
  assert (auction example_Env example_metrics None
            (inr (example_request "acct" 0)) = Some example_run)
    as Hrun by (vm_compute; reflexivity).
  assert (AuctionRun.written example_run = Encoded example_response)
    as Hwritten by (vm_compute; reflexivity).
  split; [exact Haccount|]. split; [exact Hrun|]. split; [exact Hwritten|].
  destruct (auction_bidder_status example_Env example_metrics None
              (example_request "acct" 0) (Account.mk "acct" "")
              Haccount example_run example_response Hrun Hwritten)
    as [Hlen Hstatus].
  split; [exact Hlen|]. split.
  - destruct (Hstatus 2 (example_bidder "Z") eq_refl)
      as (status & Hs & Hcode & _ & Hnone & _).
    destruct (Hnone ltac:(vm_compute; reflexivity)) as (Herror & _).
    exists status. split; [exact Hs|]. split; [exact Hcode|exact Herror].
  - destruct (Hstatus 3 (example_bidder "audienceNetwork") eq_refl)
      as (status & Hs & Hcode & _ & _ & Hregistered).
    destruct (Hregistered
                (example_adapter "audienceNetwork" true
                   (CallResult.mk 5 None None))
                ltac:(vm_compute; reflexivity))
      as (Hcookie & _).
    destruct (Hcookie eq_refl eq_refl) as [Hno Hinfo].
    exists status. split; [exact Hs|]. split; [exact Hcode|].
    split; [exact Hno|exact Hinfo].
Defined.

(** Size reconciliation on four bids of bidder ["A"], whose unit [u1] has
    one size and whose unit [u2] has two: the bid without a size for [u1]
    is given 300x250, those for [u2] (ambiguous) and for the unknown [u3]
    are dropped, and the sized bid goes through. *)
Example checkForValidBidSize_scenario :
  checkForValidBidSize
    [example_bid "u1" "A" 123 0 0; example_bid "u2" "A" 90 0 250;
     example_bid "u3" "A" 80 300 0; example_bid "u2" "A" 70 728 90]
    (PBSBidder.mk "A"
       [PBSAdUnit.mk [Size.mk 300 250] "u1" "bid-1";
        PBSAdUnit.mk [Size.mk 300 250; Size.mk 728 90] "u2" "bid-1"]
       0 0 "" false false None)
  = Some [example_bid "u1" "A" 123 300 250; example_bid "u2" "A" 70 728 90].
Proof. reflexivity. Qed.

(** ** Where the specification says more than the code does *)

(** With a key length of 20 the keys of the bidder ["audienceNetwork"] are
    cut, and a bid for an ad unit code that the request does not list gets
    no targeting map at all. *)
Example keys_cut_or_absent :
  let bids := [example_bid "u1" "audienceNetwork" 123 300 250;
               example_bid "u9" "B" 50 300 250] in
  let bids' := default [] (sortBidsAddKeywordsMobile example_Env bids
                             (example_request "acct" 20) "") in
  let kvs := default ∅ (bids' !! 0 ≫= PBSBid.AdServerTargeting) in
  kvs !! "hb_cache_id_audienceNetwork" = None
  ∧ kvs !! "hb_cache_id_audience" = Some ""
  ∧ kvs !! "hb_bidder_audienceNe" = Some "audienceNetwork"
  ∧ kvs !! "hb_creative_loadtype" = Some "demand_sdk"
  ∧ bids' !! 1 ≫= PBSBid.AdServerTargeting = None.
Proof. vm_compute. done. Qed.

(** With a key length of 3 the four bidder names of a bid are all cut to
    [hb_]: the one entry holds the size, and the price of a bid that is
    not first in its group is in no entry. *)
Example keys_merged :
  let bids' :=
    default [] (sortBidsAddKeywordsMobile example_Env example_two_bids
                  (example_request "acct" 3) "") in
  let kvs :=
    default ∅ (PBSBid.AdServerTargeting
                 (default (example_bid "" "" 0 0 0) (bids' !! 1))) in
  kvs !! "hb_" = Some "300x250" ∧ size kvs = 1.
Proof. vm_compute. done. Qed.

(** Cutting the names is not all that a key length does: with fewer than
    four bytes left the bidder keys no longer hold one value each. With a
    key length of 3 the key that [hb_pb_<bidderCode>] is cut to does not
    hold the price. *)
Lemma sortBidsAddKeywordsMobile_short_keys_merge :
  ¬ (∀ (E : Env) (bids : list PBSBid) (pbs_req : PBSRequest) (pg : string)
         (bids' : list PBSBid),
         sorts (sort_Sort E) →
         (0 ≤ PBSRequest.MaxKeyLength pbs_req)%Z →
         sortBidsAddKeywordsMobile E bids pbs_req pg = Some bids' →
         ∀ j bid',
           bids' !! j = Some bid' →
           PBSBid.AdUnitCode bid'
           ∈ AdUnit.Code <$> PBSRequest.AdUnits pbs_req →
           ∃ kvs,
             PBSBid.AdServerTargeting bid' = Some kvs
             ∧ kvs !! cut_key (PBSRequest.MaxKeyLength pbs_req)
                        (hbpbConstantKey +:+ "_" +:+ PBSBid.BidderCode bid')
               = Some (roundedCpm E (granularity pg) bid')).
Proof.
  intros Hall.
  set (pbs_req := example_request "acct" 3).
  set (bids' := default [] (sortBidsAddKeywordsMobile example_Env
                              example_two_bids pbs_req "")).
  set (bid' := default (example_bid "" "" 0 0 0) (bids' !! 1)).
  assert (default ∅ (PBSBid.AdServerTargeting bid')
            !! cut_key (PBSRequest.MaxKeyLength pbs_req)
                 (hbpbConstantKey +:+ "_" +:+ PBSBid.BidderCode bid')
          = Some (roundedCpm example_Env (granularity "") bid')) as Hkey.
  { destruct (Hall example_Env example_two_bids pbs_req "" bids'
                shellInsertionSort_sorts ltac:(vm_compute; discriminate)
                ltac:(vm_compute; reflexivity)
                1 bid' ltac:(vm_compute; reflexivity)
                ltac:(vm_compute; apply list_elem_of_here))
      as (kvs & Hkvs & Hkey).
    by rewrite Hkvs. }
  vm_compute in Hkey. discriminate Hkey.
Qed.

(** The body [null]: the decoder gives no error and no request, and the
    cookie-sync handler panics. *)
Example cookieSync_null_body :
  cookieSync example_Env example_metrics (example_cookie true) "null" = None.
Proof. reflexivity. Qed.

(** C2, as stated, fails, in two ways: a bid of a listed ad unit lacks
    [hb_cache_id_<bidderCode>] when the key length cuts that name, and,
    with no key length at all, a bid of an ad unit that the request does
    not list has no targeting map. *)
Lemma sortBidsAddKeywordsMobile_keywords_not_all :
  ¬ (∀ (E : Env) (bids : list PBSBid) (pbs_req : PBSRequest) (pg : string)
       (bids' : list PBSBid),
       sorts (sort_Sort E) →
       sortBidsAddKeywordsMobile E bids pbs_req pg = Some bids' →
       ∀ j bid',
         bids' !! j = Some bid' →
         PBSBid.AdUnitCode bid' ∈ AdUnit.Code <$> PBSRequest.AdUnits pbs_req →
         ∃ kvs,
           PBSBid.AdServerTargeting bid' = Some kvs
           ∧ is_Some (kvs !! (hbCacheIdConstantKey +:+ "_"
                              +:+ PBSBid.BidderCode bid')))
  ∧ ¬ (∀ (E : Env) (bids : list PBSBid) (pbs_req : PBSRequest) (pg : string)
         (bids' : list PBSBid),
         sorts (sort_Sort E) →
         PBSRequest.MaxKeyLength pbs_req = 0%Z →
         sortBidsAddKeywordsMobile E bids pbs_req pg = Some bids' →
         ∀ j bid',
           bids' !! j = Some bid' →
           ∃ kvs,
             PBSBid.AdServerTargeting bid' = Some kvs
             ∧ is_Some (kvs !! (hbCacheIdConstantKey +:+ "_"
                                +:+ PBSBid.BidderCode bid'))).
Proof.
  set (bids := [example_bid "u1" "audienceNetwork" 123 300 250;
                example_bid "u9" "B" 50 300 250]).
  split; intros Hall.
  - set (pbs_req := example_request "acct" 20).
    set (bids' := default [] (sortBidsAddKeywordsMobile example_Env bids
                                pbs_req "")).
    set (bid' := default (example_bid "" "" 0 0 0) (bids' !! 0)).
    assert (is_Some (default ∅ (PBSBid.AdServerTargeting bid')
                       !! (hbCacheIdConstantKey +:+ "_"
                           +:+ PBSBid.BidderCode bid'))) as Hkey.
    { destruct (Hall example_Env bids pbs_req "" bids'
                  shellInsertionSort_sorts ltac:(vm_compute; reflexivity)
                  0 bid' ltac:(vm_compute; reflexivity)
                  ltac:(vm_compute; apply list_elem_of_here))
        as (kvs & Hkvs & Hkey).
      by rewrite Hkvs. }
    vm_compute in Hkey. by destruct Hkey.
  - set (pbs_req := example_request "acct" 0).
    set (bids' := default [] (sortBidsAddKeywordsMobile example_Env bids
                                pbs_req "")).
    destruct (Hall example_Env bids pbs_req "" bids' shellInsertionSort_sorts
                eq_refl ltac:(vm_compute; reflexivity) 1
                (example_bid "u9" "B" 50 300 250)
                ltac:(vm_compute; reflexivity))
      as (kvs & Hkvs & _).
    discriminate Hkvs.
Qed.


(** On the seven bids of prices 1, 5, 0, 0, 0, 0, 5 the pass with gap 6
    brings the last bid before the second, which has the same price; the
    last bid becomes the top bid of the group. *)
Example ties_reordered :
  (default [] <$> ((λ st, st.1 !! "u1")
                   <$> sortBidsAddKeywordsMobile_run example_Env example_ties
                         (example_request "acct" 0) ""))
  = Some [6; 1; 0; 2; 3; 4; 5].
Proof. vm_compute. reflexivity. Qed.

(** C4, as stated, fails: the groups are sorted by price, but two bids of
    the same price need not keep the order of the aggregate list, even
    with a [sort.Sort] that keeps its contract. *)
Lemma sortBidsAddKeywordsMobile_not_stable :
  ¬ (∀ (E : Env) (bids : list PBSBid) (pbs_req : PBSRequest) (pg : string)
       (code_bids' : gmap string (list nat)) (bids' : list PBSBid),
       sorts (sort_Sort E) →
       sortBidsAddKeywordsMobile_run E bids pbs_req pg
       = Some (code_bids', bids') →
       ∀ unit,
         unit ∈ PBSRequest.AdUnits pbs_req →
         StronglySorted (price_ge bids)
           (default [] (code_bids' !! AdUnit.Code unit))
         ∧ ∀ i1 i2 j1 j2 b1 b2,
             i1 < i2 →
             default [] (code_bids' !! AdUnit.Code unit) !! i1 = Some j1 →
             default [] (code_bids' !! AdUnit.Code unit) !! i2 = Some j2 →
             bids !! j1 = Some b1 → bids !! j2 = Some b2 →
             PBSBid.Price b1 = PBSBid.Price b2 →
             j1 < j2).
Proof.
  intros Hall.
  set (pbs_req := example_request "acct" 0).
  set (st := default (∅, []) (sortBidsAddKeywordsMobile_run example_Env
                                 example_ties pbs_req "")).
  assert (sortBidsAddKeywordsMobile_run example_Env example_ties pbs_req ""
          = Some (st.1, st.2)) as Hrun by (vm_compute; reflexivity).
  destruct (Hall example_Env example_ties pbs_req "" st.1 st.2
              shellInsertionSort_sorts Hrun (AdUnit.mk "u1" [Size.mk 300 250]))
    as [_ Hstable]; [apply list_elem_of_here|].
  assert (6 < 1) as Hlt; [|lia].
  apply (Hstable 0 1 6 1 (example_bid "u1" "b6" 500 300 250)
           (example_bid "u1" "b1" 500 300 250));
    [lia|vm_compute; reflexivity..].
Qed.

(** * Further properties *)

(** ** Size reconciliation, beyond the claims *)

Section size_reconciliation_more.
Context (bidder : PBSBidder).


Lemma originating_unit_elem bid u :
  originating_unit bidder bid = Some u →
  u ∈ PBSBidder.AdUnits bidder
  ∧ PBSAdUnit.BidID u = PBSBid.BidID bid
  ∧ PBSAdUnit.Code u = PBSBid.AdUnitCode bid.
Proof.
  unfold originating_unit. intros Hhead.
  apply head_Some_elem_of in Hhead.
  apply list_elem_of_filter in Hhead as [[? ?] ?]. done.
Qed.

(** What becomes of one bid: dropped, kept as it is, or kept with the one
    size of its originating unit. *)
Lemma reconcile_Some bid bid' :
  reconcile bidder bid = Some bid' →
  (¬ undefined_size bid ∧ bid' = bid)
  ∨ (undefined_size bid
     ∧ ∃ u sz,
         originating_unit bidder bid = Some u
         ∧ PBSAdUnit.Sizes u = [sz]
         ∧ bid' = PBSBid.set_size bid (Size.W sz) (Size.H sz)).
Proof.
  unfold reconcile. destruct (decide (undefined_size bid)) as [Hu|Hu].
  - destruct (originating_unit bidder bid) as [u|] eqn:Hou; [|done].
    destruct (PBSAdUnit.Sizes u) as [|sz [|? ?]] eqn:Hsz; try done.
    intros [= <-]. right. split; [done|]. by exists u, sz.
  - intros [= <-]. by left.
Qed.




(** X2. Size reconciliation distributes over concatenation: reconciling
    two bid lists for the same bidder and joining the results is
    reconciling the joined list. *)
Theorem checkForValidBidSize_app (bids1 bids2 : list PBSBid) :
  checkForValidBidSize (bids1 ++ bids2) bidder
  = out1 ← checkForValidBidSize bids1 bidder;
    out2 ← checkForValidBidSize bids2 bidder;
    Some (out1 ++ out2).
Proof.
  rewrite !checkForValidBidSize_omap. simpl. by rewrite omap_app.
Qed.

Lemma unsized_set_size bid w h : unsized (PBSBid.set_size bid w h) = unsized bid.
Proof. by destruct bid. Qed.

Lemma omap_reconcile_sublist (bids : list PBSBid) :
  unsized <$> omap (reconcile bidder) bids `sublist_of` unsized <$> bids.
Proof.
  induction bids as [|bid bids IH]; [done|].
  cbn [omap list_omap]. destruct (reconcile bidder bid) as [bid'|] eqn:Hr.
  - rewrite !fmap_cons.
    assert (unsized bid' = unsized bid) as ->.
    { destruct (reconcile_Some _ _ Hr) as [[_ ->]|(_ & u & sz & _ & _ & ->)];
        [done|apply unsized_set_size]. }
    by apply sublist_skip.
  - rewrite fmap_cons. by apply sublist_cons.
Qed.

(** X3. Size reconciliation only filters and sizes: up to the dimensions,
    the bids returned are a subsequence of the bids given (nothing is
    added, reordered, or changed in another field), and a bid returned
    with other dimensions than it came with has the single size of a unit
    of the bidder with its bid id and ad unit code. *)
Theorem checkForValidBidSize_provenance (bids out : list PBSBid) :
  checkForValidBidSize bids bidder = Some out →
  length out ≤ length bids
  ∧ unsized <$> out `sublist_of` unsized <$> bids
  ∧ ∀ bid', bid' ∈ out →
      bid' ∈ bids
      ∨ ∃ bid u sz,
          bid ∈ bids
          ∧ u ∈ PBSBidder.AdUnits bidder
          ∧ PBSAdUnit.BidID u = PBSBid.BidID bid
          ∧ PBSAdUnit.Code u = PBSBid.AdUnitCode bid
          ∧ PBSAdUnit.Sizes u = [sz]
          ∧ bid' = PBSBid.set_size bid (Size.W sz) (Size.H sz).
Proof.
  rewrite checkForValidBidSize_omap. intros [= <-].
  pose proof (omap_reconcile_sublist bids) as Hsub. split_and!.
  - apply sublist_length in Hsub. by rewrite !length_fmap in Hsub.
  - done.
  - intros bid' Hin. apply list_elem_of_omap in Hin as (bid & Hbid & Hr).
    destruct (reconcile_Some _ _ Hr)
      as [[_ ->]|(_ & u & sz & Hou & Hsz & ->)]; [by left|right].
    apply originating_unit_elem in Hou as (Hu & Hid & Hcode).
    by exists bid, u, sz.
Qed.

(** X4. When every size that the bidder's ad units declare has positive
    dimensions, every banner bid that size reconciliation returns has
    positive dimensions. *)
Theorem checkForValidBidSize_banners_sized (bids out : list PBSBid) :
  Forall (λ u, Forall (λ sz, (0 < Size.W sz ∧ 0 < Size.H sz)%N)
                 (PBSAdUnit.Sizes u))
    (PBSBidder.AdUnits bidder) →
  checkForValidBidSize bids bidder = Some out →
  Forall (λ bid, PBSBid.CreativeMediaType bid = "banner" →
                 (0 < PBSBid.Width bid ∧ 0 < PBSBid.Height bid)%N) out.
Proof.
  intros Hsizes. rewrite checkForValidBidSize_omap. intros [= <-].
  apply Forall_forall. intros bid' Hin Hbanner.
  apply list_elem_of_omap in Hin as (bid & Hbid & Hr).
  destruct (reconcile_Some _ _ Hr)
    as [[Hdef ->]|(_ & u & sz & Hou & Hsz & ->)].
  - unfold undefined_size in Hdef.
    destruct (decide (PBSBid.Width bid = 0%N)); [tauto|].
    destruct (decide (PBSBid.Height bid = 0%N)); [tauto|]. lia.
  - apply originating_unit_elem in Hou as (Hu & _).
    rewrite Forall_forall in Hsizes. specialize (Hsizes u Hu).
    rewrite Hsz in Hsizes. apply Forall_cons in Hsizes as [Hpos _].
    by destruct bid.
Qed.

(** X5. A banner bid with a zero dimension is dropped, and the rest of the
    list treated as if it were not there, whenever the first unit with its
    bid id and ad unit code does not declare exactly one size: none at
    all, or several, whatever later units with the same id and code
    declare. *)
Theorem checkForValidBidSize_first_unit_decides
    (bids1 bids2 : list PBSBid) (bid : PBSBid) (u : PBSAdUnit) :
  undefined_size bid →
  originating_unit bidder bid = Some u →
  length (PBSAdUnit.Sizes u) ≠ 1 →
  checkForValidBidSize (bids1 ++ bid :: bids2) bidder
  = checkForValidBidSize (bids1 ++ bids2) bidder.
Proof.
  intros Hu Hou Hlen. rewrite !checkForValidBidSize_omap. f_equal.
  rewrite !omap_app. f_equal. cbn [omap list_omap].
  unfold reconcile at 1. rewrite decide_True, Hou by done.
  by destruct (PBSAdUnit.Sizes u) as [|? [|? ?]].
Qed.
End size_reconciliation_more.

(** ** Targeting keys, beyond the claims *)

Section targeting_more.
Context (E : Env) (bids : list PBSBid) (pbs_req : PBSRequest) (pg : string).

(** X6. The targeting builder changes nothing but targeting maps: it
    returns as many bids as it was given, in the same places, each equal to
    the one given but for [AdServerTargeting]. No assumption on [sort.Sort]
    is needed. *)
Theorem sortBidsAddKeywordsMobile_frame (bids' : list PBSBid) :
  sortBidsAddKeywordsMobile E bids pbs_req pg = Some bids' →
  length bids' = length bids
  ∧ ∀ j bid bid',
      bids !! j = Some bid → bids' !! j = Some bid' →
      untargeted bid' = untargeted bid.
Proof.
  intros Hrun. apply sortBidsAddKeywordsMobile_touched in Hrun.
  split; [apply Hrun|]. intros j bid bid'. by eapply touched_same.
Qed.

Lemma positions_of_nil (code : string) :
  (∀ bid, bid ∈ bids → PBSBid.AdUnitCode bid ≠ code) →
  positions_of bids code = [].
Proof.
  intros Hnone. destruct (positions_of bids code) as [|j l] eqn:Hpos; [done|].
  assert (j ∈ positions_of bids code) as Hj by (rewrite Hpos; left).
  apply elem_of_positions_of in Hj as (b & Hb & Hcode).
  destruct (Hnone b); [|done]. by eapply list_elem_of_lookup_2.
Qed.

Lemma unit_loop_no_group MaxKeyLength pg' units :
  (∀ bid unit, bid ∈ bids → unit ∈ units →
               PBSBid.AdUnitCode bid ≠ AdUnit.Code unit) →
  unit_loop E MaxKeyLength pg' units (group_by_code bids, bids)
  = Some (group_by_code bids, bids).
Proof.
  induction units as [|unit units IH]; intros Hnone; [done|].
  cbn [unit_loop]. unfold unit_step at 1.
  rewrite group_by_code_positions, positions_of_nil.
  - simpl. apply IH. intros bid u Hbid Hu. apply Hnone; [done|by right].
  - intros bid Hbid. apply Hnone; [done|by left].
Qed.

(** X7. When no bid has the ad unit code of a unit of the request (no bids
    at all, or no ad units), the targeting builder returns the bids as
    they are, whatever the key length: it does not even panic on a
    negative one. *)
Theorem sortBidsAddKeywordsMobile_no_group :
  (∀ bid unit, bid ∈ bids → unit ∈ PBSRequest.AdUnits pbs_req →
               PBSBid.AdUnitCode bid ≠ AdUnit.Code unit) →
  sortBidsAddKeywordsMobile E bids pbs_req pg = Some bids.
Proof.
  intros Hnone.
  unfold sortBidsAddKeywordsMobile, sortBidsAddKeywordsMobile_run.
  by rewrite unit_loop_no_group.
Qed.

Lemma truncate_key_negative key MaxKeyLength :
  (MaxKeyLength < 0)%Z → truncate_key key MaxKeyLength = None.
Proof.
  intros Hneg. unfold truncate_key, slice_prefix, min.
  destruct (decide (_ < _)%Z); destruct (decide (_ ≤ _ ≤ _)%Z);
    try done; lia.
Qed.

Lemma pbs_kvs_negative MaxKeyLength cpm i bid :
  (MaxKeyLength < 0)%Z → pbs_kvs MaxKeyLength cpm i bid = None.
Proof.
  intros Hneg. unfold pbs_kvs, bidder_keys.
  destruct (decide (MaxKeyLength ≠ 0%Z)); [|lia].
  by rewrite (truncate_key_negative (hbpbConstantKey +:+ _)).
Qed.

Lemma unit_loop_negative MaxKeyLength pg' units :
  (MaxKeyLength < 0)%Z →
  (∀ less l, length (sort_Sort E less l) = length l) →
  (∃ bid unit, bid ∈ bids ∧ unit ∈ units
               ∧ PBSBid.AdUnitCode bid = AdUnit.Code unit) →
  unit_loop E MaxKeyLength pg' units (group_by_code bids, bids) = None.
Proof.
  intros Hneg Hlen. induction units as [|unit units IH].
  { intros (? & ? & _ & []%elem_of_nil & _). }
  intros Hsome. cbn [unit_loop]. unfold unit_step at 1.
  rewrite group_by_code_positions.
  destruct (decide (length (positions_of bids (AdUnit.Code unit)) = 0))
    as [Hnil|Hcons].
  - simpl. apply IH. destruct Hsome as (bid & u & Hbid & Hu & Hcode).
    apply elem_of_cons in Hu as [->|Hu]; [|by exists bid, u].
    apply list_elem_of_lookup in Hbid as [j Hj].
    assert (j ∈ positions_of bids (AdUnit.Code unit)) as Hin
      by (apply elem_of_positions_of; eauto).
    apply nil_length_inv in Hnil. rewrite Hnil in Hin.
    by apply elem_of_nil in Hin.
  - specialize (Hlen (PBSBidSlice_Less bids)
                  (positions_of bids (AdUnit.Code unit))).
    destruct (sort_Sort E _ _) as [|p bar]; [simpl in Hlen; lia|].
    cbn [add_keywords]. destruct (bids !! p) as [bid|]; [|done].
    cbn. by rewrite pbs_kvs_negative.
Qed.

(** X8. With a negative key length the targeting builder panics (on the
    slice expression that cuts the first key) as soon as one bid has the
    ad unit code of a unit of the request. *)
Theorem sortBidsAddKeywordsMobile_negative_length :
  (PBSRequest.MaxKeyLength pbs_req < 0)%Z →
  (∀ less l, length (sort_Sort E less l) = length l) →
  (∃ bid unit, bid ∈ bids ∧ unit ∈ PBSRequest.AdUnits pbs_req
               ∧ PBSBid.AdUnitCode bid = AdUnit.Code unit) →
  sortBidsAddKeywordsMobile E bids pbs_req pg = None.
Proof.
  intros Hneg Hlen Hsome.
  unfold sortBidsAddKeywordsMobile, sortBidsAddKeywordsMobile_run.
  by rewrite unit_loop_negative.
Qed.

Ltac top_key_ne :=
  unfold hbpbConstantKey, hbBidderConstantKey, hbCacheIdConstantKey,
    hbSizeConstantKey, hbCreativeLoadMethodConstantKey;
  cbn; discriminate.

(** Below the top of its group a bid gets no unsuffixed key (the names not
    being cut). *)
Lemma pbs_kvs_not_top cpm i bid kvs key :
  pbs_kvs 0 cpm (S i) bid = Some kvs → key ∈ top_keys → kvs !! key = None.
Proof.
  unfold pbs_kvs, bidder_keys.
  rewrite (decide_False (P := (0 ≠ 0)%Z)) by (intros H; by apply H).
  simpl. intros [= <-] Hkey. unfold top_keys in Hkey.
  repeat (apply elem_of_cons in Hkey as [->|Hkey]);
    [..|by apply elem_of_nil in Hkey];
    destruct (decide (hbSize bid ≠ ""));
    repeat (rewrite lookup_insert_ne by top_key_ne);
    apply lookup_empty.
Qed.

(** X9. The unsuffixed keys mark the top bid of a group and no other: for
    a bid with the ad unit code of a unit of the request, whose key names
    are not cut, the targeting map has [hb_bidder] exactly when the bid is
    first in its sorted group, and has any other unsuffixed key only
    then. *)
Theorem sortBidsAddKeywordsMobile_top_only :
  (0 ≤ PBSRequest.MaxKeyLength pbs_req)%Z → sorts (sort_Sort E) →
  ∃ code_bids' bids',
    sortBidsAddKeywordsMobile_run E bids pbs_req pg = Some (code_bids', bids')
    ∧ ∀ j bid,
        bids !! j = Some bid →
        PBSBid.AdUnitCode bid ∈ AdUnit.Code <$> PBSRequest.AdUnits pbs_req →
        keys_fit (PBSRequest.MaxKeyLength pbs_req) bid →
        ∃ bid' kvs,
          bids' !! j = Some bid'
          ∧ PBSBid.AdServerTargeting bid' = Some kvs
          ∧ (is_Some (kvs !! hbBidderConstantKey)
             ↔ head (default [] (code_bids' !! PBSBid.AdUnitCode bid))
               = Some j)
          ∧ ∀ key, key ∈ top_keys → is_Some (kvs !! key) →
                   head (default [] (code_bids' !! PBSBid.AdUnitCode bid))
                   = Some j.
Proof.
  intros Hm Hsort.
  destruct (sortBidsAddKeywordsMobile_inv E bids pbs_req pg Hm Hsort)
    as ([code_bids' bids'] & Hrun & Hinv).
  exists code_bids', bids'. split; [done|].
  destruct Hinv as [_ Hgroups _ _ Hkeyed]. simpl in *.
  intros j bid Hj Hcode Hfit.
  assert (j ∈ default [] (code_bids' !! PBSBid.AdUnitCode bid)) as Hin.
  { rewrite Hgroups. apply elem_of_positions_of. eauto. }
  apply list_elem_of_lookup in Hin as [i Hi].
  destruct (Hkeyed (PBSBid.AdUnitCode bid) i j)
    as (b & kvs & Hb & Hkvs & Hcur); [by apply elem_of_rev|done|].
  simplify_eq. rewrite (pbs_kvs_fits _ _ _ _ Hfit) in Hkvs.
  exists (PBSBid.set_AdServerTargeting bid kvs), kvs.
  split; [done|]. split; [done|].
  assert (∀ key, key ∈ top_keys → is_Some (kvs !! key) →
                 head (default [] (code_bids' !! PBSBid.AdUnitCode bid))
                 = Some j) as Honly.
  { intros key Hkey Hsome. destruct i as [|i].
    - by rewrite head_lookup.
    - rewrite (pbs_kvs_not_top _ _ _ _ _ Hkvs Hkey) in Hsome.
      by apply is_Some_None in Hsome. }
  split; [|done]. split.
  - apply Honly. unfold top_keys. right. left.
  - intros Hhead. rewrite head_lookup in Hhead.
    assert (i = 0) as ->.
    { eapply NoDup_lookup; [|done..].
      rewrite Hgroups. apply NoDup_positions_of. }
    destruct (pbs_kvs_untruncated (roundedCpm E (granularity pg) bid) 0 bid)
      as (kvs' & Hkvs' & _ & _ & _ & _ & Htop).
    simplify_eq. destruct (Htop eq_refl) as (_ & -> & _). eauto.
Qed.
End targeting_more.

(** ** The auction, beyond the claims *)

Section fan_out_more.
Context (E : Env) (pbs_req : PBSRequest).

(** The fan-out loop in closed form: each bidder is settled on its own. *)
Lemma dispatch_loop_closed todo : ∀ done results sent,
  dispatch_loop E pbs_req (seq (length done) (length todo))
    (FanOut.mk (done ++ todo) results sent)
  = Some (FanOut.mk (done ++ (settled E pbs_req <$> todo))
            (results ++ sent_results E pbs_req (length done) todo)
            (sent + length (sent_results E pbs_req (length done) todo))).
Proof.
  induction todo as [|b todo IH]; intros done results sent.
  { simpl. by rewrite !(right_id_L [] (++)), Nat.add_0_r. }
  cbn [length seq dispatch_loop]. rewrite dispatch_settle.
  cbn [FanOut.bidders FanOut.results FanOut.sentBids].
  rewrite list_lookup_middle by done. cbn [mbind option_bind].
  destruct (settle_Some E pbs_req b) as [[b' s] Hs].
  unfold settled at 1. cbn [sent_results fmap list_fmap]. rewrite Hs.
  cbn [mbind option_bind fmap option_fmap option_map default fst].
  rewrite insert_app_r_alt by done. rewrite Nat.sub_diag.
  cbn [insert list_insert].
  rewrite (cons_middle b' done todo), (assoc_L (++)).
  specialize (IH (done ++ [b'])). rewrite length_app in IH.
  cbn [length] in IH. rewrite Nat.add_1_r in IH. rewrite IH.
  f_equal. f_equal.
  - by rewrite <- (assoc_L (++)).
  - rewrite <- (assoc_L (++)). by destruct s.
  - rewrite length_app. destruct s; simpl; lia.
Qed.

Lemma fan_out_closed :
  fan_out E pbs_req
  = Some (FanOut.mk (settled E pbs_req <$> PBSRequest.Bidders pbs_req)
            (sent_results E pbs_req 0 (PBSRequest.Bidders pbs_req))
            (length (sent_results E pbs_req 0
                       (PBSRequest.Bidders pbs_req)))).
Proof.
  unfold fan_out.
  exact (dispatch_loop_closed (PBSRequest.Bidders pbs_req) [] [] 0).
Qed.

Lemma sent_results_sublist i bs :
  bidder <$> sent_results E pbs_req i bs `sublist_of` seq i (length bs).
Proof.
  revert i. induction bs as [|b bs IH]; intros i; [done|].
  cbn [sent_results length seq].
  destruct (settle E pbs_req b) as [[b' [bl|]]|]; simpl.
  - by apply sublist_skip.
  - by apply sublist_cons.
  - by apply sublist_cons.
Qed.

(** X10. The handler waits for exactly as many results as it has started
    bidder tasks, and it starts them in the order of the request, at most
    one for each bidder. *)
Theorem fan_out_tasks :
  ∃ st,
    fan_out E pbs_req = Some st
    ∧ FanOut.sentBids st = length (FanOut.results st)
    ∧ bidder <$> FanOut.results st
      `sublist_of` seq 0 (length (PBSRequest.Bidders pbs_req)).
Proof.
  eexists. split; [apply fan_out_closed|]. split; [done|].
  apply sent_results_sublist.
Qed.

Lemma foldl_append_bids (l : list bidResult) (acc : list PBSBid) :
  foldl (λ Bids result, Bids ++ bid_list result) acc l
  = acc ++ mjoin (bid_list <$> l).
Proof.
  revert acc. induction l as [|r l IH]; intros acc; simpl.
  - by rewrite (right_id_L [] (++)).
  - by rewrite IH, (assoc_L (++)).
Qed.

Lemma drain_arrival st :
  FanOut.sentBids st = length (FanOut.results st) →
  (∀ l, arrival E l ≡ₚ l) →
  drain E st = mjoin (bid_list <$> arrival E (FanOut.results st)).
Proof.
  intros Hsent Harr. unfold drain.
  rewrite take_ge by (by rewrite Hsent, (Harr (FanOut.results st))).
  by rewrite foldl_append_bids.
Qed.

(** X11. Whatever the order in which the results arrive, the bids received
    for the response are those of the results sent, none lost and none
    twice. *)
Theorem drain_receives_all :
  (∀ l, arrival E l ≡ₚ l) →
  ∃ st,
    fan_out E pbs_req = Some st
    ∧ drain E st ≡ₚ mjoin (bid_list <$> FanOut.results st).
Proof.
  intros Harr. eexists. split; [apply fan_out_closed|].
  rewrite drain_arrival by done. simpl.
  by rewrite (Harr (sent_results E pbs_req 0 (PBSRequest.Bidders pbs_req))).
Qed.

(** A registered bidder that is not skipped is settled by its task. *)
Lemma settle_called b ex :
  exchanges E !! PBSBidder.BidderCode b = Some ex →
  ¬ skipped pbs_req ex →
  settle E pbs_req b
  = '(b', bl) ← bidder_task ex pbs_req (as_called pbs_req ex b);
    Some (b', Some bl).
Proof.
  intros Hex Hskip. unfold settle, skipped, as_called in *. rewrite Hex.
  destruct (bool_decide_reflect (PBSRequest.App pbs_req = None)) as [Happ|Happ];
    destruct (bool_decide_reflect
                (PBSCookie.GetUID (PBSRequest.Cookie pbs_req)
                   (Adapter.FamilyName ex) = "")) as [Huid|Huid];
    simpl.
  1: destruct (Adapter.SkipNoCookies ex) eqn:Hs; [by destruct Hskip|].
  1: by rewrite decide_True by done.
  all: by rewrite decide_False by tauto.
Qed.

Lemma sent_results_lookup bs : ∀ k i b b' bl,
  bs !! i = Some b →
  settle E pbs_req b = Some (b', Some bl) →
  Build_bidResult (k + i) bl ∈ sent_results E pbs_req k bs.
Proof.
  induction bs as [|b0 bs IH]; intros k i b b' bl Hi Hs; [done|].
  cbn [sent_results]. apply elem_of_app. destruct i as [|i].
  - left. simpl in Hi. simplify_eq. rewrite Hs, Nat.add_0_r. left.
  - right. replace (k + S i) with (S k + i) by lia. by eapply IH.
Qed.

(** X12. The bids that an adapter hands back together with an error are
    not dropped: the task sends them on as they are, and they are among
    the bids received for the response. *)
Theorem drain_keeps_bids_of_failed_call (i : nat) (b : PBSBidder)
    (ex : Adapter) (bid : PBSBid) :
  (∀ l, arrival E l ≡ₚ l) →
  PBSRequest.Bidders pbs_req !! i = Some b →
  exchanges E !! PBSBidder.BidderCode b = Some ex →
  ¬ skipped pbs_req ex →
  is_Some (CallResult.err
             (Adapter.Call ex pbs_req (as_called pbs_req ex b))) →
  bid ∈ default [] (CallResult.bid_list
                      (Adapter.Call ex pbs_req (as_called pbs_req ex b))) →
  ∃ st, fan_out E pbs_req = Some st ∧ bid ∈ drain E st.
Proof.
  intros Harr Hi Hex Hskip [err Herr] Hbid.
  eexists. split; [apply fan_out_closed|].
  rewrite drain_arrival by done. simpl.
  rewrite (Harr (sent_results E pbs_req 0 (PBSRequest.Bidders pbs_req))).
  apply list_elem_of_join. eexists. split; [exact Hbid|].
  apply list_elem_of_fmap.
  exists (Build_bidResult i
            (default [] (CallResult.bid_list
                           (Adapter.Call ex pbs_req
                              (as_called pbs_req ex b))))).
  split; [done|].
  apply (sent_results_lookup _ 0 i b
           (match err with
            | DeadlineExceeded =>
                PBSBidder.set_Error
                  (PBSBidder.set_ResponseTime (as_called pbs_req ex b)
                     (CallResult.elapsed
                        (Adapter.Call ex pbs_req (as_called pbs_req ex b))))
                  "Timed out"
            | _ =>
                PBSBidder.set_Error
                  (PBSBidder.set_ResponseTime (as_called pbs_req ex b)
                     (CallResult.elapsed
                        (Adapter.Call ex pbs_req (as_called pbs_req ex b))))
                  (Error_string err)
            end)); [done|].
  rewrite (settle_called b ex) by done. unfold bidder_task. rewrite Herr. done.
Qed.

Lemma as_called_NumBids ex b :
  PBSBidder.NumBids (as_called pbs_req ex b) = PBSBidder.NumBids b.
Proof. unfold as_called. by destruct (decide _). Qed.

Lemma as_called_AdUnits ex b :
  PBSBidder.AdUnits (as_called pbs_req ex b) = PBSBidder.AdUnits b.
Proof. unfold as_called. by destruct (decide _). Qed.

(** With no count to begin with, a settled bidder counts the bids sent
    for it (when failing adapters hand back none). *)
Lemma settle_counts b b' sent :
  errors_without_bids E →
  PBSBidder.NumBids b = 0 →
  settle E pbs_req b = Some (b', sent) →
  PBSBidder.NumBids b' = length (default [] sent).
Proof.
  intros Hquiet Hzero.
  destruct (exchanges E !! PBSBidder.BidderCode b) as [ex|] eqn:Hex.
  2:{ unfold settle. rewrite Hex. by intros [= <- <-]. }
  destruct (decide (skipped pbs_req ex)) as [Hskip|Hskip].
  { intros Hs.
    destruct (settle_cases E pbs_req b b' sent Hs) as (_ & _ & _ & Hsome).
    destruct (Hsome ex Hex) as [Hyes _].
    by destruct (Hyes Hskip) as [-> ->]. }
  rewrite (settle_called b ex) by done. unfold bidder_task.
  pose proof (Hquiet _ ex pbs_req (as_called pbs_req ex b) Hex) as Hq.
  pose proof (as_called_NumBids ex b) as Hn.
  destruct (CallResult.err _) as [err|].
  - simpl. intros [= <- <-]. simpl. rewrite Hq by eauto.
    destruct err; simpl; congruence.
  - destruct (CallResult.bid_list _) as [bl|].
    + rewrite checkForValidBidSize_omap. simpl. intros [= <- <-].
      simpl. by rewrite length_fmap.
    + simpl. intros [= <- <-]. simpl. congruence.
Qed.

Lemma sent_results_counts bs : ∀ k,
  errors_without_bids E →
  Forall (λ b, PBSBidder.NumBids b = 0) bs →
  sum_list (PBSBidder.NumBids <$> (settled E pbs_req <$> bs))
  = length (mjoin (bid_list <$> sent_results E pbs_req k bs)).
Proof.
  induction bs as [|b bs IH]; intros k Hquiet Hzero; [done|].
  apply Forall_cons in Hzero as [Hb Hbs].
  cbn [sent_results fmap list_fmap sum_list].
  rewrite fmap_app, join_app, length_app, <- (IH (S k)) by done.
  f_equal. unfold settled.
  destruct (settle_Some E pbs_req b) as [[b' sent] Hs]. rewrite Hs.
  cbn [fmap option_fmap option_map default fst]. unfold id.
  rewrite (settle_counts b b' sent Hquiet Hb Hs).
  destruct sent as [bl|]; simpl; [|done].
  by rewrite (right_id_L [] (++)).
Qed.
End fan_out_more.

Section auction_more.
Context (E : Env) (m : Metrics) (ua : option UserAgent).

Lemma respond_metrics pbs_req account status m' st run :
  respond E pbs_req account status m' st = Some run →
  AuctionRun.metrics run
  = match AuctionRun.written run with
    | WroteError _ => Metrics.mark_Error m'
    | Encoded _ => m'
    end.
Proof.
  unfold respond. intros Hrun.
  repeat match type of Hrun with
         | context [decide ?P] => destruct (decide P)
         | context [pbc_Put ?E ?c] => destruct (pbc_Put E c)
         | context [sortBidsAddKeywordsMobile ?a ?b ?c ?d] =>
             destruct (sortBidsAddKeywordsMobile a b c d)
         end;
    simplify_eq/=; done.
Qed.

Lemma respond_status pbs_req account status m' st run resp :
  respond E pbs_req account status m' st = Some run →
  AuctionRun.written run = Encoded resp →
  PBSResponse.Status resp = status
  ∧ PBSResponse.TID resp = PBSRequest.Tid pbs_req.
Proof.
  unfold respond. intros Hrun Hw.
  repeat match type of Hrun with
         | context [decide ?P] => destruct (decide P)
         | context [pbc_Put ?E ?c] => destruct (pbc_Put E c)
         | context [sortBidsAddKeywordsMobile ?a ?b ?c ?d] =>
             destruct (sortBidsAddKeywordsMobile a b c d)
         end;
    simplify_eq/=; done.
Qed.

Lemma respond_Bids_length pbs_req account status m' st run resp :
  respond E pbs_req account status m' st = Some run →
  AuctionRun.written run = Encoded resp →
  length (PBSResponse.Bids resp) = length (drain E st).
Proof.
  unfold respond. intros Hrun Hw.
  repeat match type of Hrun with
         | context [decide ?P] => destruct (decide P)
         | context [pbc_Put ?E ?c] => destruct (pbc_Put E c)
         | context [sortBidsAddKeywordsMobile ?a ?b ?c ?d] =>
             let Hs := fresh "Hs" in
             destruct (sortBidsAddKeywordsMobile a b c d) eqn:Hs;
             [apply sortBidsAddKeywordsMobile_touched in Hs as [Hs _]|]
         end;
    simplify_eq/=; try done;
    try rewrite Hs; unfold set_cache_ids; by rewrite ?length_imap.
Qed.

(** X13. Every run of the auction handler marks the request meter once,
    the Safari request meter once when the user agent is the Safari
    browser, and the error meter once exactly when it writes an error
    response instead of encoding its own, be it for a request that does
    not parse, an unknown account or a failing cache. The cookie-sync
    meter is not touched. *)
Theorem auction_meters (parsed : error + PBSRequest) (run : AuctionRun) :
  auction E m ua parsed = Some run →
  Metrics.RequestMeter (AuctionRun.metrics run)
  = (Metrics.RequestMeter m + 1)%N
  ∧ Metrics.SafariRequestMeter (AuctionRun.metrics run)
    = (Metrics.SafariRequestMeter m + if isSafari ua then 1 else 0)%N
  ∧ Metrics.ErrorMeter (AuctionRun.metrics run)
    = (Metrics.ErrorMeter m
       + match AuctionRun.written run with
         | WroteError _ => 1
         | Encoded _ => 0
         end)%N
  ∧ Metrics.CookieSyncMeter (AuctionRun.metrics run)
    = Metrics.CookieSyncMeter m.
Proof.
  unfold auction. destruct parsed as [err|pbs_req].
  { intros [= <-]. destruct (isSafari ua); simpl; split_and!; lia. }
  destruct (request_status _ _ _) as [status m'] eqn:Hst.
  assert (Metrics.RequestMeter m' = (Metrics.RequestMeter m + 1)%N
          ∧ Metrics.SafariRequestMeter m'
            = (Metrics.SafariRequestMeter m
               + if isSafari ua then 1 else 0)%N
          ∧ Metrics.ErrorMeter m' = Metrics.ErrorMeter m
          ∧ Metrics.CookieSyncMeter m' = Metrics.CookieSyncMeter m)
    as (Hreq & Hsaf & Herr & Hcs).
  { unfold request_status in Hst.
    destruct (PBSRequest.App pbs_req); [|destruct (decide _)];
      simplify_eq; destruct (isSafari ua); simpl; split_and!; lia. }
  destruct (Accounts_Get E _) as [err|account].
  { intros [= <-]. simpl. rewrite Hreq, Hsaf, Herr, Hcs. split_and!; lia. }
  destruct (fan_out E pbs_req) as [st|]; [|done]. simpl. intros Hrun.
  rewrite (respond_metrics _ _ _ _ _ _ Hrun).
  destruct (AuctionRun.written run); simpl;
    rewrite ?Hreq, ?Hsaf, ?Herr, ?Hcs; split_and!; lia.
Qed.

(** X14. For a request that parses, the handler marks the app meter when
    the request has an app, and otherwise the no-cookie meter when the
    cookie has no live sync (the Safari one with it for Safari), also when
    the account turns out to be unknown. A response that it encodes has
    the transaction id of the request and the status "no_cookie" in the
    second case, "OK" in all others. *)
Theorem auction_status (pbs_req : PBSRequest) (run : AuctionRun) :
  auction E m ua (inr pbs_req) = Some run →
  let no_cookie :=
    bool_decide (PBSRequest.App pbs_req = None)
    && bool_decide (PBSCookie.LiveSyncCount (PBSRequest.Cookie pbs_req) = 0)
  in
  Metrics.AppRequestMeter (AuctionRun.metrics run)
  = (Metrics.AppRequestMeter m
     + if PBSRequest.App pbs_req is Some _ then 1 else 0)%N
  ∧ Metrics.NoCookieMeter (AuctionRun.metrics run)
    = (Metrics.NoCookieMeter m + if no_cookie then 1 else 0)%N
  ∧ Metrics.SafariNoCookieMeter (AuctionRun.metrics run)
    = (Metrics.SafariNoCookieMeter m
       + if no_cookie && isSafari ua then 1 else 0)%N
  ∧ ∀ resp,
      AuctionRun.written run = Encoded resp →
      PBSResponse.TID resp = PBSRequest.Tid pbs_req
      ∧ PBSResponse.Status resp = if no_cookie then "no_cookie" else "OK".
Proof.
  intros Hrun no_cookie. unfold auction in Hrun.
  destruct (request_status _ _ _) as [status m'] eqn:Hst.
  assert (Metrics.AppRequestMeter m'
          = (Metrics.AppRequestMeter m
             + if PBSRequest.App pbs_req is Some _ then 1 else 0)%N
          ∧ Metrics.NoCookieMeter m'
            = (Metrics.NoCookieMeter m + if no_cookie then 1 else 0)%N
          ∧ Metrics.SafariNoCookieMeter m'
            = (Metrics.SafariNoCookieMeter m
               + if no_cookie && isSafari ua then 1 else 0)%N
          ∧ status = if no_cookie then "no_cookie" else "OK")
    as (Happ & Hnc & Hsnc & Hstatus).
  { unfold request_status in Hst. unfold no_cookie.
    destruct (PBSRequest.App pbs_req) as [app|].
    - simplify_eq. destruct (isSafari ua); simpl; split_and!; try lia; done.
    - rewrite bool_decide_eq_true_2 by done.
      destruct (decide _) as [Hz|Hz].
      + rewrite (bool_decide_eq_true_2 _ Hz). simplify_eq.
        destruct (isSafari ua); simpl; split_and!; try lia; done.
      + rewrite (bool_decide_eq_false_2 _ Hz). simplify_eq.
        destruct (isSafari ua); simpl; split_and!; try lia; done. }
  destruct (Accounts_Get E _) as [err|account].
  { simplify_eq. simpl. split_and!; [done..|]. intros resp [=]. }
  destruct (fan_out E pbs_req) as [st|]; [|done]. simpl in Hrun.
  rewrite (respond_metrics _ _ _ _ _ _ Hrun).
  split_and!.
  - by destruct (AuctionRun.written run).
  - by destruct (AuctionRun.written run).
  - by destruct (AuctionRun.written run).
  - intros resp Hw.
    destruct (respond_status _ _ _ _ _ _ _ Hrun Hw) as [-> ->].
    by rewrite Hstatus.
Qed.

(** X15. When the bidders of the request come without a bid count, and
    the adapters that fail hand back no bids, the bid counts of the
    bidder statuses of an encoded response add up to the number of its
    bids, whatever the order in which the results arrived. *)
Theorem auction_bid_counts_add_up (pbs_req : PBSRequest) (run : AuctionRun)
    (resp : PBSResponse) :
  (∀ l, arrival E l ≡ₚ l) →
  errors_without_bids E →
  Forall (λ b, PBSBidder.NumBids b = 0) (PBSRequest.Bidders pbs_req) →
  auction E m ua (inr pbs_req) = Some run →
  AuctionRun.written run = Encoded resp →
  sum_list (PBSBidder.NumBids <$> PBSResponse.BidderStatus resp)
  = length (PBSResponse.Bids resp).
Proof.
  intros Harr Hquiet Hzero. unfold auction.
  destruct (request_status _ _ _) as [status m'].
  destruct (Accounts_Get E _) as [err|account].
  { by intros [= <-]. }
  rewrite fan_out_closed. simpl. intros Hrun Hw.
  rewrite (respond_Bids_length _ _ _ _ _ _ _ Hrun Hw).
  destruct (respond_Encoded E pbs_req account _ _ _ _ _ Hrun Hw) as [-> _].
  simpl. rewrite drain_arrival by done. simpl.
  rewrite (Harr (sent_results E pbs_req 0 (PBSRequest.Bidders pbs_req))).
  by apply sent_results_counts.
Qed.

Lemma checkForValidBidSize_AdUnits bids b1 b2 :
  PBSBidder.AdUnits b1 = PBSBidder.AdUnits b2 →
  checkForValidBidSize bids b1 = checkForValidBidSize bids b2.
Proof.
  intros Hu. rewrite !checkForValidBidSize_omap. do 2 f_equal.
  unfold reconcile, originating_unit. by rewrite Hu.
Qed.

(** X16. The status of a bidder whose adapter was called and came back
    without an error: it has the time the call took; when the adapter
    handed back a list, its bid count is the number of bids that size
    reconciliation (against the ad units of the bidder) let through, be
    that none, and the no-bid flag stays as it was; when the adapter
    handed back nil, the no-bid flag is set. *)
Theorem auction_called_bidder_status (pbs_req : PBSRequest) (run : AuctionRun)
    (resp : PBSResponse) (i : nat) (b : PBSBidder) (ex : Adapter) :
  auction E m ua (inr pbs_req) = Some run →
  AuctionRun.written run = Encoded resp →
  PBSRequest.Bidders pbs_req !! i = Some b →
  exchanges E !! PBSBidder.BidderCode b = Some ex →
  ¬ skipped pbs_req ex →
  CallResult.err (Adapter.Call ex pbs_req (as_called pbs_req ex b)) = None →
  ∃ status,
    PBSResponse.BidderStatus resp !! i = Some status
    ∧ PBSBidder.ResponseTime status
      = CallResult.elapsed (Adapter.Call ex pbs_req (as_called pbs_req ex b))
    ∧ PBSBidder.Error status = PBSBidder.Error b
    ∧ match CallResult.bid_list
              (Adapter.Call ex pbs_req (as_called pbs_req ex b)) with
      | Some bl =>
          ∃ out,
            checkForValidBidSize bl b = Some out
            ∧ PBSBidder.NumBids status = length out
            ∧ PBSBidder.NoBid status = PBSBidder.NoBid b
      | None =>
          PBSBidder.NoBid status = true
          ∧ PBSBidder.NumBids status = PBSBidder.NumBids b
      end.
Proof.
  unfold auction. destruct (request_status _ _ _) as [status m'].
  destruct (Accounts_Get E _) as [err|account].
  { by intros [= <-]. }
  rewrite fan_out_closed. simpl. intros Hrun Hw Hi Hex Hskip Herr.
  destruct (respond_Encoded E pbs_req account _ _ _ _ _ Hrun Hw) as [-> _].
  simpl. rewrite list_lookup_fmap, Hi. simpl. eexists. split; [reflexivity|].
  unfold settled. rewrite (settle_called E pbs_req b ex) by done.
  unfold bidder_task. rewrite Herr.
  assert (PBSBidder.Error (as_called pbs_req ex b) = PBSBidder.Error b)
    as Herror by (unfold as_called; by destruct (decide _)).
  assert (PBSBidder.NoBid (as_called pbs_req ex b) = PBSBidder.NoBid b)
    as Hnobid by (unfold as_called; by destruct (decide _)).
  destruct (CallResult.bid_list _) as [bl|].
  - rewrite (checkForValidBidSize_AdUnits bl _ b)
      by (simpl; apply as_called_AdUnits).
    rewrite checkForValidBidSize_omap. simpl.
    split; [done|]. split; [done|].
    eexists. split; [reflexivity|]. done.
  - simpl. split; [done|]. split; [done|]. split; [done|].
    apply as_called_NumBids.
Qed.
End auction_more.

Section auction_total.
Context (E : Env) (m : Metrics) (ua : option UserAgent).

(** X17. The auction handler comes to its end, with a response written,
    for every request and every behaviour of the adapters, the account
    store and the cache, unless the targeting keys are asked for with a
    negative key length (or a [sort.Sort] that breaks its contract). *)
Theorem auction_responds (parsed : error + PBSRequest) :
  (∀ pbs_req,
     parsed = inr pbs_req → PBSRequest.SortBids pbs_req = 1%Z →
     (0 ≤ PBSRequest.MaxKeyLength pbs_req)%Z ∧ sorts (sort_Sort E)) →
  is_Some (auction E m ua parsed).
Proof.
  intros Hok. unfold auction. destruct parsed as [err|pbs_req]; [eauto|].
  destruct (request_status _ _ _) as [status m'].
  destruct (Accounts_Get E _) as [err|account]; [eauto|].
  rewrite fan_out_closed. simpl. unfold respond.
  assert (∀ Bids puts,
            is_Some
              (Bids ← (if decide (PBSRequest.SortBids pbs_req = 1%Z)
                       then sortBidsAddKeywordsMobile E Bids pbs_req
                              (Account.PriceGranularity account)
                       else Some Bids);
               Some (AuctionRun.mk
                       (Encoded
                          (PBSResponse.mk (PBSRequest.Tid pbs_req) status
                             (settled E pbs_req
                              <$> PBSRequest.Bidders pbs_req) Bids))
                       m'
                       (bidder <$> sent_results E pbs_req 0
                                     (PBSRequest.Bidders pbs_req))
                       puts))) as Hfinish.
  { intros Bids puts. destruct (decide _) as [Hsort|Hsort]; [|by eexists].
    destruct (Hok pbs_req eq_refl Hsort) as [Hm Hs].
    destruct (sortBidsAddKeywordsMobile_inv E Bids pbs_req
                (Account.PriceGranularity account) Hm Hs)
      as (st' & Hrun & _).
    unfold sortBidsAddKeywordsMobile. rewrite Hrun. by eexists. }
  destruct (decide (PBSRequest.CacheMarkup pbs_req = 1%Z)); [|apply Hfinish].
  destruct (pbc_Put E _); [eauto|apply Hfinish].
Qed.
End auction_total.

(** ** The adapter codes: [keys] *)

Section keys.
Context (range : gmap string Adapter → list string).

Lemma keys_loop ks : ∀ done n,
  length ks ≤ n →
  foldl keys_step (Some (done ++ replicate n "", length done)) ks
  = Some (done ++ ks ++ replicate (n - length ks) "",
          length done + length ks).
Proof.
  induction ks as [|k ks IH]; intros done n Hn.
  { simpl. by rewrite Nat.sub_0_r, Nat.add_0_r. }
  simpl in Hn. destruct n as [|n]; [lia|].
  cbn [foldl]. unfold keys_step at 2. cbn [mbind option_bind].
  rewrite decide_True by (rewrite length_app, length_replicate; simpl; lia).
  rewrite insert_app_r_alt by done. rewrite Nat.sub_diag.
  cbn [replicate insert list_insert].
  rewrite (cons_middle k done (replicate n "")), (assoc_L (++)).
  specialize (IH (done ++ [k]) n). rewrite length_app in IH.
  cbn [length] in IH. rewrite Nat.add_1_r in IH. rewrite IH by lia.
  cbn [length]. rewrite <- (assoc_L (++)). simpl.
  do 2 f_equal. lia.
Qed.

(** X18. [keys] returns the codes of the registered adapters, each one
    once, in the order in which the map is ranged over, and never writes
    outside its buffer. *)
Theorem keys_enumerates (m : gmap string Adapter) :
  range m ≡ₚ (map_to_list m).*1 →
  keys range m = Some (range m)
  ∧ NoDup (range m)
  ∧ length (range m) = size m
  ∧ ∀ k, k ∈ range m ↔ is_Some (m !! k).
Proof.
  intros Hperm.
  assert (length (range m) = size m) as Hlen.
  { by rewrite Hperm, length_fmap, length_map_to_list. }
  split_and!; [|by rewrite Hperm; apply NoDup_fst_map_to_list|done|].
  - unfold keys.
    pose proof (keys_loop (range m) [] (size m)) as Hloop.
    simpl in Hloop. rewrite Hloop by lia.
    simpl. rewrite Hlen, Nat.sub_diag. simpl.
    by rewrite (right_id_L [] (++)).
  - intros k. rewrite Hperm, list_elem_of_fmap. split.
    + intros ([k' a] & -> & Hin). apply elem_of_map_to_list in Hin. eauto.
    + intros [a Ha]. exists (k, a). split; [done|].
      by apply elem_of_map_to_list.
Qed.
End keys.

(** ** The schema directory: [NewJsonDirectoryServer] *)

Section schema_directory.
Context (ReadDir : string → error + list string).
Context (ReadFile : string → error + string).
Context (json_Marshal : gmap string string → error + string).
Context (schemaDirectory : string).

Lemma slice_prefix_stem file_Name :
  5 ≤ String.length file_Name →
  slice_prefix file_Name (Z.of_nat (String.length file_Name) - 5)
  = Some (stem file_Name).
Proof.
  intros Hlen. unfold slice_prefix, stem. rewrite decide_True by lia.
  do 2 f_equal. lia.
Qed.

Lemma slice_prefix_short file_Name :
  String.length file_Name < 5 →
  slice_prefix file_Name (Z.of_nat (String.length file_Name) - 5) = None.
Proof. intros Hlen. unfold slice_prefix. by rewrite decide_False by lia. Qed.

Lemma slurp_data (content : string → string) files : ∀ data0,
  (∀ file_Name, file_Name ∈ files →
     5 ≤ String.length file_Name
     ∧ ReadFile (schemaDirectory +:+ "/" +:+ file_Name)
       = inr (content file_Name)) →
  ∃ data,
    slurp ReadFile schemaDirectory files data0 = Started data
    ∧ ∀ key,
        data !! key
        = match last (filter (λ file_Name, stem file_Name = key) files) with
          | Some file_Name => Some (content file_Name)
          | None => data0 !! key
          end.
Proof.
  induction files as [|name files IH]; intros data0 Hfiles.
  { by exists data0. }
  destruct (Hfiles name) as [Hlen Hread]; [left|].
  cbn [slurp]. rewrite Hread, slice_prefix_stem by done.
  destruct (IH (<[stem name := content name]> data0)) as (data & -> & Hdata).
  { intros n Hn. apply Hfiles. by right. }
  exists data. split; [done|]. intros key. rewrite Hdata, filter_cons.
  destruct (decide (stem name = key)) as [<-|Hne].
  - rewrite last_cons, lookup_insert_eq.
    by destruct (last (filter _ files)).
  - by rewrite lookup_insert_ne by done.
Qed.

(** X19. When the directory and every entry of it can be read and every
    name has at least five bytes, the server serves [json.Marshal] of a
    map that has, under each name less its last five bytes, the content
    of the last entry with that stem in directory order, and nothing
    else; the five bytes are not checked to be [.json]. *)
Theorem NewJsonDirectoryServer_serves (content : string → string)
    (files : list string) :
  ReadDir schemaDirectory = inr files →
  (∀ file_Name, file_Name ∈ files →
     5 ≤ String.length file_Name
     ∧ ReadFile (schemaDirectory +:+ "/" +:+ file_Name)
       = inr (content file_Name)) →
  ∃ data,
    (∀ key,
       data !! key
       = content
         <$> last (filter (λ file_Name, stem file_Name = key) files))
    ∧ NewJsonDirectoryServer ReadDir ReadFile json_Marshal schemaDirectory
      = match json_Marshal data with
        | inl err =>
            Fatalf ("Failed to marshal bidder param JSON-schema: "
                    +:+ Error_string err)
        | inr response => Started response
        end.
Proof.
  intros Hdir Hfiles.
  destruct (slurp_data content files ∅ Hfiles) as (data & Hslurp & Hdata).
  exists data. split.
  - intros key. rewrite Hdata, lookup_empty.
    by destruct (last (filter _ files)).
  - unfold NewJsonDirectoryServer. by rewrite Hdir, Hslurp.
Qed.

Lemma slurp_app files1 files2 data0 :
  slurp ReadFile schemaDirectory (files1 ++ files2) data0
  = match slurp ReadFile schemaDirectory files1 data0 with
    | Started data => slurp ReadFile schemaDirectory files2 data
    | Fatalf msg => Fatalf msg
    | Panic => Panic
    end.
Proof.
  revert data0. induction files1 as [|name files1 IH]; intros data0; [done|].
  cbn [app slurp]. destruct (ReadFile _); [done|].
  destruct (slice_prefix _ _); [apply IH|done].
Qed.

(** X20. The first entry that cannot be read, or whose name has fewer
    than five bytes, ends the start of the server, and no later entry is
    looked at: the program exits when the entry cannot be read, and
    panics on the slice expression when it can be read but its name is
    too short. *)
Theorem NewJsonDirectoryServer_first_bad_entry (content : string → string)
    (good : list string) (bad : string) (rest : list string) :
  ReadDir schemaDirectory = inr (good ++ bad :: rest) →
  (∀ file_Name, file_Name ∈ good →
     5 ≤ String.length file_Name
     ∧ ReadFile (schemaDirectory +:+ "/" +:+ file_Name)
       = inr (content file_Name)) →
  (∀ err,
     ReadFile (schemaDirectory +:+ "/" +:+ bad) = inl err →
     NewJsonDirectoryServer ReadDir ReadFile json_Marshal schemaDirectory
     = Fatalf ("Failed to read file " +:+ schemaDirectory +:+ "/" +:+ bad
               +:+ ": " +:+ Error_string err))
  ∧ (∀ bytes,
       ReadFile (schemaDirectory +:+ "/" +:+ bad) = inr bytes →
       String.length bad < 5 →
       NewJsonDirectoryServer ReadDir ReadFile json_Marshal schemaDirectory
       = Panic).
Proof.
  intros Hdir Hgood.
  destruct (slurp_data content good ∅ Hgood) as (data & Hslurp & _).
  unfold NewJsonDirectoryServer. rewrite Hdir, slurp_app, Hslurp.
  cbn [slurp]. split.
  - by intros err ->.
  - intros bytes -> Hshort. by rewrite slice_prefix_short.
Qed.
End schema_directory.

(** ** The further properties on the scenarios *)

Lemma checkForValidBidSize_provenance_witness :
  checkForValidBidSize example_unsized_bids (example_bidder "A")
  = Some [example_bid "u1" "A" 123 300 250]
  ∧ length [example_bid "u1" "A" 123 300 250] ≤ length example_unsized_bids.
Proof.
  assert (checkForValidBidSize example_unsized_bids (example_bidder "A")
          = Some [example_bid "u1" "A" 123 300 250]) as Hout
    by (vm_compute; reflexivity).
  split; [exact Hout|].
  exact (proj1 (checkForValidBidSize_provenance (example_bidder "A")
                  example_unsized_bids _ Hout)).
Defined.

Lemma checkForValidBidSize_banners_sized_witness :
  Forall (λ u, Forall (λ sz, (0 < Size.W sz ∧ 0 < Size.H sz)%N)
                 (PBSAdUnit.Sizes u))
    (PBSBidder.AdUnits (example_bidder "A"))
  ∧ checkForValidBidSize example_unsized_bids (example_bidder "A")
    = Some [example_bid "u1" "A" 123 300 250]
  ∧ Forall (λ bid, PBSBid.CreativeMediaType bid = "banner" →
                   (0 < PBSBid.Width bid ∧ 0 < PBSBid.Height bid)%N)
      [example_bid "u1" "A" 123 300 250].
Proof.
  assert (Forall (λ u, Forall (λ sz, (0 < Size.W sz ∧ 0 < Size.H sz)%N)
                         (PBSAdUnit.Sizes u))
            (PBSBidder.AdUnits (example_bidder "A"))) as Hsizes.
  { constructor; [|constructor].
    constructor; [|constructor]. split; reflexivity. }
  assert (checkForValidBidSize example_unsized_bids (example_bidder "A")
          = Some [example_bid "u1" "A" 123 300 250]) as Hout
    by (vm_compute; reflexivity).
  split; [exact Hsizes|]. split; [exact Hout|].
  exact (checkForValidBidSize_banners_sized (example_bidder "A")
           example_unsized_bids _ Hsizes Hout).
Defined.

Lemma checkForValidBidSize_first_unit_decides_witness :
  undefined_size (example_bid "u1" "A" 123 0 0)
  ∧ originating_unit example_bidder_two_sizes (example_bid "u1" "A" 123 0 0)
    = Some (PBSAdUnit.mk [Size.mk 300 250; Size.mk 728 90] "u1" "bid-1")
  ∧ checkForValidBidSize
      ([example_bid "u1" "B" 50 300 250] ++ example_bid "u1" "A" 123 0 0 :: [])
      example_bidder_two_sizes
    = checkForValidBidSize ([example_bid "u1" "B" 50 300 250] ++ [])
        example_bidder_two_sizes.
Proof.
  assert (undefined_size (example_bid "u1" "A" 123 0 0)) as Hundefined
    by (split; [reflexivity|left; reflexivity]).
  assert (originating_unit example_bidder_two_sizes
            (example_bid "u1" "A" 123 0 0)
          = Some (PBSAdUnit.mk [Size.mk 300 250; Size.mk 728 90] "u1"
                    "bid-1")) as Hunit
    by (vm_compute; reflexivity).
  split; [exact Hundefined|]. split; [exact Hunit|].
  apply (checkForValidBidSize_first_unit_decides example_bidder_two_sizes
           [example_bid "u1" "B" 50 300 250] [] _ _ Hundefined Hunit).
  simpl. lia.
Defined.

Lemma sortBidsAddKeywordsMobile_frame_witness :
  sortBidsAddKeywordsMobile example_Env example_long_code_bids
    (example_request "acct" 20) "" = Some example_long_code_keyed
  ∧ length example_long_code_keyed = length example_long_code_bids.
Proof.
  assert (sortBidsAddKeywordsMobile example_Env example_long_code_bids
            (example_request "acct" 20) "" = Some example_long_code_keyed)
    as Hrun by (vm_compute; reflexivity).
  split; [exact Hrun|].
  exact (proj1 (sortBidsAddKeywordsMobile_frame example_Env
                  example_long_code_bids (example_request "acct" 20) ""
                  example_long_code_keyed Hrun)).
Defined.

Lemma sortBidsAddKeywordsMobile_no_group_witness :
  (∀ bid unit,
     bid ∈ example_unlisted_bids →
     unit ∈ PBSRequest.AdUnits (example_request "acct" (-1)) →
     PBSBid.AdUnitCode bid ≠ AdUnit.Code unit)
  ∧ sortBidsAddKeywordsMobile example_Env example_unlisted_bids
      (example_request "acct" (-1)) "" = Some example_unlisted_bids.
Proof.
  assert (∀ bid unit,
            bid ∈ example_unlisted_bids →
            unit ∈ PBSRequest.AdUnits (example_request "acct" (-1)) →
            PBSBid.AdUnitCode bid ≠ AdUnit.Code unit) as Hnone.
  { intros bid unit Hbid Hunit.
    apply list_elem_of_singleton in Hbid as ->.
    apply list_elem_of_singleton in Hunit as ->. discriminate. }
  split; [exact Hnone|].
  exact (sortBidsAddKeywordsMobile_no_group example_Env example_unlisted_bids
           (example_request "acct" (-1)) "" Hnone).
Defined.

Lemma sortBidsAddKeywordsMobile_negative_length_witness :
  (PBSRequest.MaxKeyLength (example_request "acct" (-1)) < 0)%Z
  ∧ (∀ less l, length (sort_Sort example_Env less l) = length l)
  ∧ sortBidsAddKeywordsMobile example_Env example_two_bids
      (example_request "acct" (-1)) "" = None.
Proof.
  assert (PBSRequest.MaxKeyLength (example_request "acct" (-1)) < 0)%Z
    as Hlength by (vm_compute; reflexivity).
  assert (∀ less l, length (sort_Sort example_Env less l) = length l)
    as Hsort.
  { intros less l. apply Permutation_length.
    apply (sorts_perm _ shellInsertionSort_sorts). }
  split; [exact Hlength|]. split; [exact Hsort|].
  apply (sortBidsAddKeywordsMobile_negative_length example_Env
           example_two_bids (example_request "acct" (-1)) "" Hlength Hsort).
  exists (example_bid "u1" "A" 123 300 250), (AdUnit.mk "u1" [Size.mk 300 250]).
  split; [apply list_elem_of_here|].
  split; [apply list_elem_of_here|reflexivity].
Defined.

Lemma sortBidsAddKeywordsMobile_top_only_witness :
  (0 ≤ PBSRequest.MaxKeyLength (example_request "acct" 0))%Z
  ∧ sorts (sort_Sort example_Env)
  ∧ ∃ code_bids' bids',
      sortBidsAddKeywordsMobile_run example_Env example_two_bids
        (example_request "acct" 0) ""
      = Some (code_bids', bids')
      ∧ ∃ bid' kvs,
          bids' !! 1 = Some bid'
          ∧ PBSBid.AdServerTargeting bid' = Some kvs
          ∧ (is_Some (kvs !! hbBidderConstantKey)
             ↔ head (default [] (code_bids' !! "u1")) = Some 1).
Proof.
  assert (0 ≤ PBSRequest.MaxKeyLength (example_request "acct" 0))%Z
    as Hlength by (vm_compute; discriminate).
  pose proof shellInsertionSort_sorts as Hsorts.
  split; [exact Hlength|]. split; [exact Hsorts|].
  destruct (sortBidsAddKeywordsMobile_top_only example_Env example_two_bids
              (example_request "acct" 0) "" Hlength Hsorts)
    as (code_bids' & bids' & Hrun & Hkeys).
  exists code_bids', bids'. split; [exact Hrun|].
  destruct (Hkeys 1 (example_bid "u1" "B" 50 300 250) eq_refl)
    as (bid' & kvs & Hbid' & Htargeting & Htop & _).
  - apply list_elem_of_here.
  - left. reflexivity.
  - exists bid', kvs. split; [exact Hbid'|]. split; [exact Htargeting|].
    exact Htop.
Defined.

Lemma drain_receives_all_witness :
  (∀ l, arrival example_Env l ≡ₚ l)
  ∧ ∃ st,
      fan_out example_Env (example_request "acct" 0) = Some st
      ∧ drain example_Env st ≡ₚ mjoin (bid_list <$> FanOut.results st).
Proof.
  assert (∀ l, arrival example_Env l ≡ₚ l) as Harrival
    by (intros l; reflexivity).
  split; [exact Harrival|].
  exact (drain_receives_all example_Env (example_request "acct" 0) Harrival).
Defined.

Lemma drain_keeps_bids_of_failed_call_witness :
  (∀ l, arrival example_failing_Env l ≡ₚ l)
  ∧ PBSRequest.Bidders example_failing_request !! 0
    = Some (example_bidder "F")
  ∧ exchanges example_failing_Env !! "F" = Some example_failing_adapter
  ∧ ¬ skipped example_failing_request example_failing_adapter
  ∧ ∃ st,
      fan_out example_failing_Env example_failing_request = Some st
      ∧ example_bid "u1" "F" 99 0 0 ∈ drain example_failing_Env st.
Proof.
  assert (∀ l, arrival example_failing_Env l ≡ₚ l) as Harrival
    by (intros l; reflexivity).
  assert (PBSRequest.Bidders example_failing_request !! 0
          = Some (example_bidder "F")) as Hbidder by reflexivity.
  assert (exchanges example_failing_Env !! "F" = Some example_failing_adapter)
    as Hex by (vm_compute; reflexivity).
  assert (¬ skipped example_failing_request example_failing_adapter)
    as Hskip by (intros (_ & _ & Hs); discriminate Hs).
  split; [exact Harrival|]. split; [exact Hbidder|]. split; [exact Hex|].
  split; [exact Hskip|].
  apply (drain_keeps_bids_of_failed_call example_failing_Env
           example_failing_request 0 (example_bidder "F")
           example_failing_adapter (example_bid "u1" "F" 99 0 0)
           Harrival Hbidder Hex Hskip).
  - exists (Errorf "boom"). reflexivity.
  - apply list_elem_of_here.
Defined.

Lemma auction_meters_witness :
  auction example_Env example_metrics None (inr (example_request "acct" 0))
  = Some example_run
  ∧ Metrics.RequestMeter (AuctionRun.metrics example_run) = 1%N.
Proof.
  assert (auction example_Env example_metrics None
            (inr (example_request "acct" 0)) = Some example_run)
    as Hrun by (vm_compute; reflexivity).
  split; [exact Hrun|].
  exact (proj1 (auction_meters example_Env example_metrics None
                  (inr (example_request "acct" 0)) example_run Hrun)).
Defined.

Lemma auction_status_witness :
  auction example_Env example_metrics None (inr (example_request "acct" 0))
  = Some example_run
  ∧ Metrics.AppRequestMeter (AuctionRun.metrics example_run) = 0%N.
Proof.
  assert (auction example_Env example_metrics None
            (inr (example_request "acct" 0)) = Some example_run)
    as Hrun by (vm_compute; reflexivity).
  split; [exact Hrun|].
  exact (proj1 (auction_status example_Env example_metrics None
                  (example_request "acct" 0) example_run Hrun)).
Defined.

Lemma example_errors_without_bids : errors_without_bids example_Env.
Proof.
  intros code ex pbs_req b Hex Herr.
  unfold example_Env, example_exchanges in Hex. cbn [exchanges] in Hex.
  repeat (apply lookup_insert_Some in Hex as [[_ <-]|[_ Hex]]);
    try (by apply is_Some_None in Herr); try done.
Defined.

Lemma auction_bid_counts_add_up_witness :
  (∀ l, arrival example_Env l ≡ₚ l)
  ∧ errors_without_bids example_Env
  ∧ Forall (λ b, PBSBidder.NumBids b = 0)
      (PBSRequest.Bidders (example_request "acct" 0))
  ∧ auction example_Env example_metrics None
      (inr (example_request "acct" 0)) = Some example_run
  ∧ AuctionRun.written example_run = Encoded example_response
  ∧ sum_list (PBSBidder.NumBids <$> PBSResponse.BidderStatus example_response)
    = length (PBSResponse.Bids example_response).
Proof.
  assert (∀ l, arrival example_Env l ≡ₚ l) as Harrival
    by (intros l; reflexivity).
  pose proof example_errors_without_bids as Hquiet.
  assert (Forall (λ b, PBSBidder.NumBids b = 0)
            (PBSRequest.Bidders (example_request "acct" 0))) as Hzero.
  { apply Forall_fmap, Forall_forall. intros code _. reflexivity. }
  assert (auction example_Env example_metrics None
            (inr (example_request "acct" 0)) = Some example_run)
    as Hrun by (vm_compute; reflexivity).
  assert (AuctionRun.written example_run = Encoded example_response)
    as Hwritten by (vm_compute; reflexivity).
  split; [exact Harrival|]. split; [exact Hquiet|]. split; [exact Hzero|].
  split; [exact Hrun|]. split; [exact Hwritten|].
  exact (auction_bid_counts_add_up example_Env example_metrics None
           (example_request "acct" 0) example_run example_response
           Harrival Hquiet Hzero Hrun Hwritten).
Defined.

Lemma auction_called_bidder_status_witness :
  auction example_Env example_metrics None (inr (example_request "acct" 0))
  = Some example_run
  ∧ AuctionRun.written example_run = Encoded example_response
  ∧ PBSRequest.Bidders (example_request "acct" 0) !! 0
    = Some (example_bidder "A")
  ∧ ∃ status,
      PBSResponse.BidderStatus example_response !! 0 = Some status
      ∧ PBSBidder.ResponseTime status = 12%Z.
Proof.
  assert (auction example_Env example_metrics None
            (inr (example_request "acct" 0)) = Some example_run)
    as Hrun by (vm_compute; reflexivity).
  assert (AuctionRun.written example_run = Encoded example_response)
    as Hwritten by (vm_compute; reflexivity).
  assert (PBSRequest.Bidders (example_request "acct" 0) !! 0
          = Some (example_bidder "A")) as Hbidder by reflexivity.
  assert (exchanges example_Env !! PBSBidder.BidderCode (example_bidder "A")
          = Some (example_adapter "famA" false
                    (CallResult.mk 12 (Some [example_bid "u1" "A" 123 0 0])
                       None))) as Hex
    by (vm_compute; reflexivity).
  split; [exact Hrun|]. split; [exact Hwritten|]. split; [exact Hbidder|].
  destruct (auction_called_bidder_status example_Env example_metrics None
              (example_request "acct" 0) example_run example_response 0
              (example_bidder "A") _ Hrun Hwritten Hbidder Hex)
    as (status & Hstatus & Htime & _).
  - intros (_ & _ & Hs). discriminate Hs.
  - reflexivity.
  - exists status. split; [exact Hstatus|exact Htime].
Defined.

Lemma auction_responds_witness :
  (∀ pbs_req,
     @inr error PBSRequest (example_request "acct" 0) = inr pbs_req →
     PBSRequest.SortBids pbs_req = 1%Z →
     (0 ≤ PBSRequest.MaxKeyLength pbs_req)%Z
     ∧ sorts (sort_Sort example_Env))
  ∧ is_Some (auction example_Env example_metrics None
               (inr (example_request "acct" 0))).
Proof.
  assert (∀ pbs_req,
            @inr error PBSRequest (example_request "acct" 0) = inr pbs_req →
            PBSRequest.SortBids pbs_req = 1%Z →
            (0 ≤ PBSRequest.MaxKeyLength pbs_req)%Z
            ∧ sorts (sort_Sort example_Env)) as Hok.
  { intros pbs_req [= <-] _. split; [vm_compute; discriminate|].
    exact shellInsertionSort_sorts. }
  split; [exact Hok|].
  exact (auction_responds example_Env example_metrics None
           (inr (example_request "acct" 0)) Hok).
Defined.

Lemma keys_enumerates_witness :
  example_range example_exchanges ≡ₚ (map_to_list example_exchanges).*1
  ∧ keys example_range example_exchanges
    = Some (example_range example_exchanges).
Proof.
  assert (example_range example_exchanges
          ≡ₚ (map_to_list example_exchanges).*1) as Hrange by reflexivity.
  split; [exact Hrange|].
  exact (proj1 (keys_enumerates example_range example_exchanges Hrange)).
Defined.

Lemma NewJsonDirectoryServer_serves_witness :
  example_ReadDir ["appnexus.json"; "rubicon.json"] "schemas"
  = inr ["appnexus.json"; "rubicon.json"]
  ∧ ∃ data,
      data !! "rubicon" = Some "{rubicon.json}"
      ∧ NewJsonDirectoryServer
          (example_ReadDir ["appnexus.json"; "rubicon.json"])
          example_ReadFile example_Marshal "schemas"
        = match example_Marshal data with
          | inl err =>
              Fatalf ("Failed to marshal bidder param JSON-schema: "
                      +:+ Error_string err)
          | inr response => Started response
          end.
Proof.
  assert (example_ReadDir ["appnexus.json"; "rubicon.json"] "schemas"
          = inr ["appnexus.json"; "rubicon.json"]) as Hdir by reflexivity.
  split; [exact Hdir|].
  destruct (NewJsonDirectoryServer_serves
              (example_ReadDir ["appnexus.json"; "rubicon.json"])
              example_ReadFile example_Marshal "schemas" example_content
              ["appnexus.json"; "rubicon.json"] Hdir)
    as (data & Hdata & Hserved).
  - intros file_Name Hin.
    apply elem_of_cons in Hin as [->|Hin];
      [split; [vm_compute; lia|reflexivity]|].
    apply list_elem_of_singleton in Hin as ->.
    split; [vm_compute; lia|reflexivity].
  - exists data. split; [|exact Hserved].
    rewrite Hdata. reflexivity.
Defined.

Lemma NewJsonDirectoryServer_first_bad_entry_witness :
  example_ReadDir ["appnexus.json"; "doc"; "rubicon.json"] "schemas"
  = inr (["appnexus.json"] ++ "doc" :: ["rubicon.json"])
  ∧ NewJsonDirectoryServer
      (example_ReadDir ["appnexus.json"; "doc"; "rubicon.json"])
      example_ReadFile example_Marshal "schemas"
    = Fatalf "Failed to read file schemas/doc: is a directory".
Proof.
  assert (example_ReadDir ["appnexus.json"; "doc"; "rubicon.json"] "schemas"
          = inr (["appnexus.json"] ++ "doc" :: ["rubicon.json"])) as Hdir
    by reflexivity.
  split; [exact Hdir|].
  destruct (NewJsonDirectoryServer_first_bad_entry
              (example_ReadDir ["appnexus.json"; "doc"; "rubicon.json"])
              example_ReadFile example_Marshal "schemas" example_content
              ["appnexus.json"] "doc" ["rubicon.json"] Hdir)
    as [Hfatal _].
  - intros file_Name Hin. apply list_elem_of_singleton in Hin as ->.
    split; [vm_compute; lia|reflexivity].
  - exact (Hfatal (Errorf "is a directory") eq_refl).
Defined.
